(** * Foodgram backend: a shallow embedding of the request handlers

    The development follows [backend/api/views.py],
    [backend/api/serializers.py], [backend/api/permissions.py] and
    [backend/users/views.py].  Database tables are lists of rows, a view is a
    function from the store to an outcome and a new store, and a Python
    exception is a value of [exn] carried by the [result] monad. *)

From stdpp Require Import base decidable option list numbers strings pretty
  sets sorting.

Local Open Scope Z_scope.

(** ** Python text

    A Python [str] whose characters the code inspects is a list of Unicode
    code points.  Literals of the source files are Rocq strings holding the
    UTF-8 bytes of the literal. *)

Definition pystr := list N.

(** The code points of a UTF-8 byte sequence (well-formed input assumed:
    literals of the source files). *)
Fixpoint utf8_decode (bytes : list N) : pystr :=
  match bytes with
  | [] => []
  | b :: rest =>
      if (b <? 128)%N then b :: utf8_decode rest
      else if (b <? 224)%N then
        match rest with
        | c1 :: rest => ((b - 192) * 64 + (c1 - 128))%N :: utf8_decode rest
        | _ => []
        end
      else if (b <? 240)%N then
        match rest with
        | c1 :: c2 :: rest =>
            ((b - 224) * 4096 + (c1 - 128) * 64 + (c2 - 128))%N
            :: utf8_decode rest
        | _ => []
        end
      else
        match rest with
        | c1 :: c2 :: c3 :: rest =>
            ((b - 240) * 262144 + (c1 - 128) * 4096 + (c2 - 128) * 64
             + (c3 - 128))%N :: utf8_decode rest
        | _ => []
        end
  end.

(** A literal of the source as a [str]. *)
Definition lit (s : string) : pystr :=
  utf8_decode (Ascii.N_of_ascii <$> String.list_ascii_of_string s).

(** ["\n"] *)
Definition newline : pystr := [10%N].

(** [sep.join(parts)] *)
Fixpoint join (sep : pystr) (parts : list pystr) : pystr :=
  match parts with
  | [] => []
  | [part] => part
  | part :: rest => part ++ sep ++ join sep rest
  end.

(** [str.isspace] for one character: the ASCII and the Unicode white
    space that [str.strip] and [int] skip. *)
Definition isspace (c : N) : bool :=
  bool_decide (c ∈ [9; 10; 11; 12; 13; 28; 29; 30; 31; 32; 133; 160; 5760;
                    8192; 8193; 8194; 8195; 8196; 8197; 8198; 8199; 8200;
                    8201; 8202; 8232; 8233; 8239; 8287; 12288]%N).

Fixpoint lstrip (s : pystr) : pystr :=
  match s with
  | c :: rest => if isspace c then lstrip rest else s
  | [] => []
  end.

(** [str.strip()] *)
Definition strip (s : pystr) : pystr :=
  reverse (lstrip (reverse (lstrip s))).

(** [str(n)] for an integer. *)
Definition str_of_int (n : Z) : pystr := lit (pretty n).

(** ** Exceptions and results *)

Inductive detail :=
| Msg (m : string)
| Msgs (ms : list string)
| Fields (errs : list (string * list string)).

Inductive exn :=
| ValidationError (d : detail)
| Http404
| NotAuthenticated
| PermissionDenied
| KeyError (key : string)
| ValueError
| MethodNotAllowed
| DoesNotExist
| MultipleObjectsReturned
| TypeError
| IntegrityError
| AssertionError.

Inductive result (A : Type) :=
| Ok (a : A)
| Raise (e : exn).
Arguments Ok {A} a.
Arguments Raise {A} e.

#[global] Instance result_ret : MRet result := λ A a, Ok a.
#[global] Instance result_bind : MBind result := λ A B f m,
  match m with
  | Ok a => f a
  | Raise e => Raise e
  end.

Definition is_Ok {A} (r : result A) : bool :=
  match r with Ok _ => true | Raise _ => false end.

(** ** HTTP status codes (rest_framework.status) *)

Definition HTTP_200_OK := 200.
Definition HTTP_201_CREATED := 201.
Definition HTTP_204_NO_CONTENT := 204.
Definition HTTP_400_BAD_REQUEST := 400.
Definition HTTP_401_UNAUTHORIZED := 401.
Definition HTTP_403_FORBIDDEN := 403.
Definition HTTP_404_NOT_FOUND := 404.
Definition HTTP_405_METHOD_NOT_ALLOWED := 405.
Definition HTTP_500_INTERNAL_SERVER_ERROR := 500.

(** ** Data model *)

(** users/models.py: [User] and [Subscribe]. *)
Record User := mkUser {
  user_pk : Z;
  user_username : pystr;
  user_email : pystr;
  user_first_name : pystr;
  user_last_name : pystr;
  user_is_staff : bool
}.

Record Subscribe := mkSubscribe {
  sub_user : Z;
  sub_author : Z
}.

(** Modelled from the spec: [recipes/models.py] is not among the source
    files; the rows below carry the attributes that section 3 of the
    specification lists for Tag, Ingredient, Recipe, IngredientInRecipe,
    Favourite and ShoppingCart, under the field names that the views and
    serializers use. *)
Record Tag := mkTag {
  tag_pk : Z;
  tag_name : pystr;
  tag_slug : pystr
}.

Record Ingredient := mkIngredient {
  ingredient_pk : Z;
  ingredient_name : pystr;
  ingredient_measurement_unit : pystr
}.

Record Recipe := mkRecipe {
  recipe_pk : Z;
  recipe_author : Z;
  recipe_name : pystr;
  recipe_image : pystr;
  recipe_text : pystr;
  recipe_cooking_time : Z
}.

Record IngredientInRecipe := mkIngredientInRecipe {
  iir_recipe : Z;
  iir_ingredient : Z;
  iir_amount : Z
}.

(** A row of [Favourite] or of [ShoppingCart]: both relate a user to a
    recipe. *)
Record UserRecipe := mkUserRecipe {
  ur_user : Z;
  ur_recipe : Z
}.

#[global] Instance User_eq_dec : EqDecision User.
Proof. solve_decision. Defined.
#[global] Instance Subscribe_eq_dec : EqDecision Subscribe.
Proof. solve_decision. Defined.
#[global] Instance Tag_eq_dec : EqDecision Tag.
Proof. solve_decision. Defined.
#[global] Instance Ingredient_eq_dec : EqDecision Ingredient.
Proof. solve_decision. Defined.
#[global] Instance Recipe_eq_dec : EqDecision Recipe.
Proof. solve_decision. Defined.
#[global] Instance IngredientInRecipe_eq_dec : EqDecision IngredientInRecipe.
Proof. solve_decision. Defined.
#[global] Instance UserRecipe_eq_dec : EqDecision UserRecipe.
Proof. solve_decision. Defined.

(** The database.  [recipe_tags] is the through table of [Recipe.tags],
    rows of (recipe id, tag id). *)
Record Store := mkStore {
  users : list User;
  subscribes : list Subscribe;
  tags : list Tag;
  ingredients : list Ingredient;
  recipes : list Recipe;
  recipe_tags : list (Z * Z);
  ingredient_in_recipe : list IngredientInRecipe;
  favourites : list UserRecipe;
  shopping_carts : list UserRecipe
}.

(** ** Query helpers (the ORM calls the views make) *)

(** [queryset.exists()] *)
Definition exists_ {A} (qs : list A) : bool :=
  match qs with [] => false | _ :: _ => true end.

(** [get_object_or_404(Model, id=pk)]: the row with that primary key, or
    [Http404]. *)
Definition get_object_or_404 {A} (pk_of : A → Z) (table : list A) (pk : Z)
  : result A :=
  match filter (λ row, pk_of row = pk) table with
  | [] => Raise Http404
  | [row] => Ok row
  | _ :: _ :: _ => Raise MultipleObjectsReturned
  end.

(** ** Responses *)

Inductive Body :=
| NoBody
| Errors (message : string)
| ErrorList (messages : list string)
| FieldErrors (errs : list (string * list string))
| Text (message : string)
| RecipeShortData (r : Recipe)
| RecipeReadData (r : Recipe)
| RecipeList (rs : list Recipe)
| UserData (u : User)
| SubscriptionList (authors : list (User * list Recipe * nat))
| Metadata
| Attachment (filename : pystr) (content : pystr).

Record Response := mkResponse {
  status_code : Z;
  data : Body
}.

(** A view returns a response or raises, and leaves a store behind. *)
Definition outcome : Type := result Response * Store.

(** ** Requests *)

Inductive Method := GET | HEAD | OPTIONS | POST | PUT | PATCH | DELETE.

#[global] Instance Method_eq_dec : EqDecision Method.
Proof. solve_decision. Defined.

(** rest_framework.permissions.SAFE_METHODS *)
Definition SAFE_METHODS : list Method := [GET; HEAD; OPTIONS].

(** [request.user] is [None] for Django's [AnonymousUser].  [query_params]
    keeps the query string in order. *)
Record Request := mkRequest {
  method : Method;
  user : option User;
  query_params : list (string * pystr)
}.

Definition is_authenticated (u : option User) : bool :=
  match u with Some _ => true | None => false end.

Definition is_staff (u : option User) : bool :=
  match u with Some row => user_is_staff row | None => false end.

(** [QueryDict.get(key)]: the last value given for the key, [None] when the
    key is absent. *)
Definition query_get (key : string) (q : list (string * pystr))
  : option pystr :=
  last (snd <$> filter (λ kv, kv.1 = key) q).

(** ** Authentication classes and the failure of a permission check *)

Inductive Authenticator :=
| TokenAuthentication
| SessionAuthentication
| BasicAuthentication.

(** Modelled from the spec: the settings module is not among the source
    files.  Section 6 of the specification names a third-party
    authentication-token endpoint (and [users/urls.py] mounts
    [djoser.urls.authtoken]), so requests are authenticated by token. *)
Definition DEFAULT_AUTHENTICATION_CLASSES : list Authenticator :=
  [TokenAuthentication].

(** [authenticator.authenticate_header(request)] *)
Definition authenticate_header (a : Authenticator) : option string :=
  match a with
  | TokenAuthentication => Some "Token"
  | SessionAuthentication => None
  | BasicAuthentication => Some "Basic realm=api"
  end.

(** [APIView.get_authenticate_header]: the header of the first
    authenticator. *)
Definition get_authenticate_header (auths : list Authenticator)
  : option string :=
  match auths with
  | [] => None
  | a :: _ => authenticate_header a
  end.

(** [APIView.permission_denied]: [NotAuthenticated] when authenticators are
    configured and none of them identified the requester, else
    [PermissionDenied]. *)
Definition permission_denied (request : Request) : exn :=
  if negb (bool_decide (DEFAULT_AUTHENTICATION_CLASSES = []))
     && negb (is_authenticated (user request))
  then NotAuthenticated
  else PermissionDenied.

(** [APIView.handle_exception] with the default exception handler: API
    exceptions and [Http404] become responses with their status, a
    [NotAuthenticated] without an authenticate header is coerced to 403, and
    any other exception is re-raised, which the server answers with 500. *)
Definition handle_exception (e : exn) : Response :=
  match e with
  | ValidationError (Msg m) => mkResponse HTTP_400_BAD_REQUEST (ErrorList [m])
  | ValidationError (Msgs ms) => mkResponse HTTP_400_BAD_REQUEST (ErrorList ms)
  | ValidationError (Fields errs) =>
      mkResponse HTTP_400_BAD_REQUEST (FieldErrors errs)
  | Http404 => mkResponse HTTP_404_NOT_FOUND (Errors "Not found.")
  | NotAuthenticated =>
      match get_authenticate_header DEFAULT_AUTHENTICATION_CLASSES with
      | Some _ =>
          mkResponse HTTP_401_UNAUTHORIZED
            (Errors "Authentication credentials were not provided.")
      | None =>
          mkResponse HTTP_403_FORBIDDEN
            (Errors "Authentication credentials were not provided.")
      end
  | PermissionDenied =>
      mkResponse HTTP_403_FORBIDDEN
        (Errors "You do not have permission to perform this action.")
  | MethodNotAllowed =>
      mkResponse HTTP_405_METHOD_NOT_ALLOWED (Errors "Method not allowed.")
  | KeyError _ | ValueError | DoesNotExist | MultipleObjectsReturned
  | TypeError | IntegrityError | AssertionError =>
      mkResponse HTTP_500_INTERNAL_SERVER_ERROR NoBody
  end.

(** What the client receives for an outcome. *)
Definition respond (o : outcome) : Response * Store :=
  match o with
  | (Ok r, db) => (r, db)
  | (Raise e, db) => (handle_exception e, db)
  end.

(** [transaction.atomic]: when the wrapped block raises, the database is
    rolled back to what it was on entry. *)
Definition atomic {A} (block : Store → result A * Store) (db : Store)
  : result A * Store :=
  match block db with
  | (Ok a, db') => (Ok a, db')
  | (Raise e, _) => (Raise e, db)
  end.

(** ** api/permissions.py *)

Inductive Permission :=
| AllowAny
| IsAuthenticated
| IsAdminOrReadOnly
| IsAuthorOrReadOnly
| OR (op1 op2 : Permission).

(** [has_permission(request, view)] of each class; [OR] is
    rest_framework.permissions.OR, built by [|]. *)
Fixpoint has_permission (p : Permission) (request : Request) : bool :=
  match p with
  | AllowAny => true
  | IsAuthenticated => is_authenticated (user request)
  | IsAdminOrReadOnly =>
      bool_decide (method request ∈ SAFE_METHODS) || is_staff (user request)
  | IsAuthorOrReadOnly =>
      bool_decide (method request ∈ SAFE_METHODS)
      || is_authenticated (user request)
  | OR op1 op2 => has_permission op1 request || has_permission op2 request
  end.

(** [obj.author == request.user]: model instances are equal when their
    primary keys are; [AnonymousUser] equals no row. *)
Definition author_is_user (obj : Recipe) (u : option User) : bool :=
  match u with
  | Some row => bool_decide (recipe_author obj = user_pk row)
  | None => false
  end.

(** [has_object_permission(request, view, obj)].  Classes that do not
    override it inherit [BasePermission]'s, which returns [True]; [OR]
    (rest_framework 3.14 and later) asks each operand for both checks. *)
Fixpoint has_object_permission (p : Permission) (request : Request)
  (obj : Recipe) : bool :=
  match p with
  | AllowAny => true
  | IsAuthenticated => true
  | IsAdminOrReadOnly => true
  | IsAuthorOrReadOnly => author_is_user obj (user request)
  | OR op1 op2 =>
      (has_permission op1 request && has_object_permission op1 request obj)
      || (has_permission op2 request && has_object_permission op2 request obj)
  end.

(** Before release 3.14 [OR.has_object_permission] asked the operands for
    their object-level answer only.  The development follows the current
    rule above; this one is kept to show what depends on it. *)
Fixpoint has_object_permission_before_3_14 (p : Permission)
  (request : Request) (obj : Recipe) : bool :=
  match p with
  | AllowAny => true
  | IsAuthenticated => true
  | IsAdminOrReadOnly => true
  | IsAuthorOrReadOnly => author_is_user obj (user request)
  | OR op1 op2 =>
      has_object_permission_before_3_14 op1 request obj
      || has_object_permission_before_3_14 op2 request obj
  end.

(** [APIView.check_permissions] *)
Fixpoint check_permissions (perms : list Permission) (request : Request)
  : result () :=
  match perms with
  | [] => Ok ()
  | p :: rest =>
      if has_permission p request then check_permissions rest request
      else Raise (permission_denied request)
  end.

(** [APIView.check_object_permissions] *)
Fixpoint check_object_permissions (perms : list Permission)
  (request : Request) (obj : Recipe) : result () :=
  match perms with
  | [] => Ok ()
  | p :: rest =>
      if has_object_permission p request obj
      then check_object_permissions rest request obj
      else Raise (permission_denied request)
  end.

(** ** api/views.py: favourites and shopping cart *)

Inductive RelModel := Favourite | ShoppingCart.

(** [model.objects] *)
Definition objects (model : RelModel) (db : Store) : list UserRecipe :=
  match model with
  | Favourite => favourites db
  | ShoppingCart => shopping_carts db
  end.

Definition with_objects (model : RelModel) (rows : list UserRecipe)
  (db : Store) : Store :=
  match model with
  | Favourite =>
      mkStore (users db) (subscribes db) (tags db) (ingredients db)
        (recipes db) (recipe_tags db) (ingredient_in_recipe db)
        rows (shopping_carts db)
  | ShoppingCart =>
      mkStore (users db) (subscribes db) (tags db) (ingredients db)
        (recipes db) (recipe_tags db) (ingredient_in_recipe db)
        (favourites db) rows
  end.

(** [model.objects.filter(user=user, recipe_id=pk)] *)
Definition filter_user_recipe (u pk : Z) (rows : list UserRecipe)
  : list UserRecipe :=
  filter (λ r, ur_user r = u ∧ ur_recipe r = pk) rows.

(** [queryset.delete()] on that filter: the rows that stay. *)
Definition delete_user_recipe (u pk : Z) (rows : list UserRecipe)
  : list UserRecipe :=
  filter (λ r, ¬ (ur_user r = u ∧ ur_recipe r = pk)) rows.

(** [RecipeViewSet._add_to] *)
Definition _add_to (model : RelModel) (u : User) (pk : Z) (db : Store)
  : outcome :=
  if exists_ (filter_user_recipe (user_pk u) pk (objects model db)) then
    (Ok (mkResponse HTTP_400_BAD_REQUEST (Errors "Рецепт уже добавлен!")),
     db)
  else
    match get_object_or_404 recipe_pk (recipes db) pk with
    | Raise e => (Raise e, db)
    | Ok recipe =>
        (Ok (mkResponse HTTP_201_CREATED (RecipeShortData recipe)),
         with_objects model
           (objects model db ++ [mkUserRecipe (user_pk u) (recipe_pk recipe)])
           db)
    end.

(** [RecipeViewSet._delete_from] *)
Definition _delete_from (model : RelModel) (u : User) (pk : Z) (db : Store)
  : outcome :=
  let obj := filter_user_recipe (user_pk u) pk (objects model db) in
  if exists_ obj then
    (Ok (mkResponse HTTP_204_NO_CONTENT NoBody),
     with_objects model (delete_user_recipe (user_pk u) pk (objects model db))
       db)
  else
    (Ok (mkResponse HTTP_400_BAD_REQUEST (Errors "Рецепт не найден!")), db).

(** The bodies of the detail actions [favorite] and [shopping_cart]. *)
Definition favorite_body (request : Request) (u : User) (pk : Z) (db : Store)
  : outcome :=
  if bool_decide (method request = POST) then _add_to Favourite u pk db
  else _delete_from Favourite u pk db.

Definition shopping_cart_body (request : Request) (u : User) (pk : Z)
  (db : Store) : outcome :=
  if bool_decide (method request = POST) then _add_to ShoppingCart u pk db
  else _delete_from ShoppingCart u pk db.

(** An action declared with [methods=('post', 'delete')] and
    [permission_classes=(IsAuthenticated,)]: the dispatcher checks the
    permission, serves OPTIONS itself, answers any other method with 405, and
    calls the body.  A body reached by [AnonymousUser] would fail in the ORM
    filter. *)
Definition post_delete_action
  (body : Request → User → Z → Store → outcome)
  (request : Request) (pk : Z) (db : Store) : outcome :=
  match check_permissions [IsAuthenticated] request with
  | Raise e => (Raise e, db)
  | Ok _ =>
      if bool_decide (method request ∈ [POST; DELETE]) then
        match user request with
        | None => (Raise TypeError, db)
        | Some u => body request u pk db
        end
      else if bool_decide (method request = OPTIONS) then
        (Ok (mkResponse HTTP_200_OK Metadata), db)
      else (Raise MethodNotAllowed, db)
  end.

Definition favorite := post_delete_action favorite_body.
Definition shopping_cart := post_delete_action shopping_cart_body.

(** The action of the view set that serves a relation. *)
Definition toggle_action (model : RelModel) :=
  match model with
  | Favourite => favorite
  | ShoppingCart => shopping_cart
  end.

(** ** Fields of the framework *)

(** [MaxLengthValidator(limit, message)] *)
Definition MaxLengthValidator (limit : nat) (message : string)
  (value : pystr) : list string :=
  if bool_decide (limit < length value)%nat then [message] else [].

(** The two validators that every [CharField] appends. *)
Definition ProhibitNullCharactersValidator (value : pystr) : list string :=
  if bool_decide (0%N ∈ value) then ["Null characters are not allowed."]
  else [].

Definition ProhibitSurrogateCharactersValidator (value : pystr)
  : list string :=
  if bool_decide (Exists (λ c, 55296 ≤ c ≤ 57343)%N value)
  then ["Surrogate characters are not allowed."] else [].

(** [Field.run_validators]: every validator runs, the messages are
    gathered. *)
Definition run_validators (validators : list (pystr → list string))
  (value : pystr) : result pystr :=
  match validators ≫= (λ validator, validator value) with
  | [] => Ok value
  | m :: ms => Raise (ValidationError (Msgs (m :: ms)))
  end.

(** [CharField.run_validation]: white space is trimmed, a blank value is
    refused, then the validators run. *)
Definition CharField (validators : list (pystr → list string))
  (data : pystr) : result pystr :=
  let value := strip data in
  match value with
  | [] => Raise (ValidationError (Msg "This field may not be blank."))
  | _ :: _ =>
      run_validators
        (validators ++ [ProhibitNullCharactersValidator;
                        ProhibitSurrogateCharactersValidator]) value
  end.

(** ** api/serializers.py: Base64ImageField *)

(** [s.startswith(prefix)] *)
Fixpoint startswith (prefix s : pystr) : bool :=
  match prefix, s with
  | [], _ => true
  | p :: prefix', c :: s' => (p =? c)%N && startswith prefix' s'
  | _ :: _, [] => false
  end.

(** [s.split(sep)] for a separator that is not empty: the text is read from
    the left, an occurrence of the separator closes the current piece and is
    skipped.  [skip] counts the characters of a found separator that are
    still to pass, [cur] holds the current piece in reverse. *)
Fixpoint split_from (sep s : pystr) (skip : nat) (cur : pystr)
  : list pystr :=
  match s with
  | [] => [reverse cur]
  | c :: rest =>
      match skip with
      | S skip' => split_from sep rest skip' cur
      | O =>
          if startswith sep s
          then reverse cur :: split_from sep rest (length sep - 1) []
          else split_from sep rest 0 (c :: cur)
      end
  end.

Definition split (sep s : pystr) : list pystr := split_from sep s 0 [].

(** What reaches the field: a string of the JSON body or an uploaded file. *)
Inductive Upload :=
| Str (s : pystr)
| File (name : pystr) (content : list N).

Section Base64ImageField.

(** [base64.b64decode], which raises [binascii.Error], a [ValueError], for
    wrong padding, and [ImageField.to_internal_value] of the framework. *)
Context {Image : Type}.
Variable b64decode : pystr → result (list N).
Variable ImageField_to_internal_value : Upload → result Image.

(** [Base64ImageField.to_internal_value].  The assignment
    [format, imgstr = data.split(';base64,')] needs exactly two pieces and
    is a [ValueError] otherwise. *)
Definition Base64ImageField_to_internal_value (data : Upload)
  : result Image :=
  match data with
  | Str s =>
      if startswith (lit "data:image") s then
        match split (lit ";base64,") s with
        | [format; imgstr] =>
            let ext := default [] (last (split (lit "/") format)) in
            content ← b64decode imgstr;
            ImageField_to_internal_value
              (File (lit "temp." ++ ext) content)
        | _ => Raise ValueError
        end
      else ImageField_to_internal_value data
  | File _ _ => ImageField_to_internal_value data
  end.

End Base64ImageField.

(** What the recipe handlers leave to the framework and to the storage:
    the decoder of base64, the image field, whose validation either returns
    the file or raises, and the storage, which keeps a file under a name of
    its choice when a row with a new file is saved. *)
Record Framework := mkFramework {
  b64decode : pystr → result (list N);
  ImageField_to_internal_value : Upload → result Upload;
  storage_save : Upload → pystr
}.

(** ** api/serializers.py: RecipeWriteSerializer *)

(** One entry of the [ingredients] list after the child serializer
    [IngredientInRecipeWriteSerializer] has parsed it: [item['id']] and
    [item['amount']]. *)
Record IngredientItem := mkItem {
  item_id : Z;
  item_amount : Z
}.

#[global] Instance IngredientItem_eq_dec : EqDecision IngredientItem.
Proof. solve_decision. Defined.

(** The parsed request body.  A key that the body does not carry is
    [None]. *)
Record RecipeData := mkRecipeData {
  data_tags : option (list Z);
  data_ingredients : option (list IngredientItem);
  data_name : option pystr;
  data_image : option pystr;
  data_text : option pystr;
  data_cooking_time : option Z
}.

(** [validated_data]: the dictionary that [create] and [update] receive.
    [author] is added by [serializer.save(author=...)]. *)
Record ValidatedData := mkValidated {
  v_tags : option (list Tag);
  v_ingredients : option (list IngredientItem);
  v_name : option pystr;
  v_image : option Upload;
  v_text : option pystr;
  v_cooking_time : option Z;
  v_author : option User
}.

(** [Model.objects.get(id=pk)] *)
Definition objects_get {A} (pk_of : A → Z) (table : list A) (pk : Z)
  : result A :=
  match filter (λ row, pk_of row = pk) table with
  | [] => Raise DoesNotExist
  | [row] => Ok row
  | _ :: _ :: _ => Raise MultipleObjectsReturned
  end.

(** [obj in objs] for model instances: equality of primary keys. *)
Definition instance_in {A} (pk_of : A → Z) (obj : A) (objs : list A) : bool :=
  bool_decide (pk_of obj ∈ pk_of <$> objs).

(** The loop of [validate_ingredients]; [ingredients_list] is the
    accumulator of the source. *)
Fixpoint validate_ingredients_loop (db : Store) (items : list IngredientItem)
  (ingredients_list : list Ingredient) : result () :=
  match items with
  | [] => Ok ()
  | item :: rest =>
      ingredient ← get_object_or_404 ingredient_pk (ingredients db)
                     (item_id item);
      if instance_in ingredient_pk ingredient ingredients_list then
        Raise (ValidationError (Msg "Ингридиенты не могут повторяться!"))
      else if bool_decide (item_amount item ≤ 0) then
        Raise (ValidationError
                 (Msg "Количество ингредиента должно быть больше 0!"))
      else
        validate_ingredients_loop db rest (ingredients_list ++ [ingredient])
  end.

(** [RecipeWriteSerializer.validate_ingredients] *)
Definition validate_ingredients (db : Store) (value : list IngredientItem)
  : result (list IngredientItem) :=
  match value with
  | [] => Raise (ValidationError (Msg "Нужен хотя бы один ингредиент!"))
  | _ :: _ =>
      _ ← validate_ingredients_loop db value [];
      Ok value
  end.

(** The loop of [validate_tags]. *)
Fixpoint validate_tags_loop (tags : list Tag) (tags_list : list Tag)
  : result () :=
  match tags with
  | [] => Ok ()
  | tag :: rest =>
      if instance_in tag_pk tag tags_list then
        Raise (ValidationError (Msg "Теги должны быть уникальными!"))
      else validate_tags_loop rest (tags_list ++ [tag])
  end.

(** [RecipeWriteSerializer.validate_tags] *)
Definition validate_tags (value : list Tag) : result (list Tag) :=
  match value with
  | [] => Raise (ValidationError (Msg "Нужно выбрать хотя бы один тег!"))
  | _ :: _ =>
      _ ← validate_tags_loop value [];
      Ok value
  end.

(** [RecipeWriteSerializer.validate_cooking_time] *)
Definition validate_cooking_time (value : Z) : result Z :=
  if bool_decide (value ≤ 0) then
    Raise (ValidationError
             (Msg "Время приготовления должно быть больше нуля."))
  else if bool_decide (value > 600) then
    Raise (ValidationError
             (Msg "Время приготовления должно быть меньше 600 минут."))
  else Ok value.

(** The field [tags = PrimaryKeyRelatedField(queryset=Tag.objects.all(),
    many=True)]: every primary key is looked up; a key without a row is a
    validation error of the field. *)
Fixpoint tags_to_internal_value (db : Store) (pks : list Z)
  : result (list Tag) :=
  match pks with
  | [] => Ok []
  | pk :: rest =>
      match objects_get tag_pk (tags db) pk with
      | Ok tag =>
          more ← tags_to_internal_value db rest;
          Ok (tag :: more)
      | Raise DoesNotExist =>
          Raise (ValidationError (Msg "Invalid pk - object does not exist."))
      | Raise e => Raise e
      end
  end.

(** The field [tags] followed by [validate_tags]. *)
Definition tags_field (db : Store) (pks : list Z) : result (list Tag) :=
  value ← tags_to_internal_value db pks; validate_tags value.

(** [field.run_validation] for a value that may be missing: a missing key
    is skipped by a partial update and is an error otherwise, with the
    message [required] of the field. *)
Definition run_field_with {A B} (required : string) (partial : bool)
  (value : option A) (validate : A → result B) : result (option B) :=
  match value with
  | None =>
      if partial then Ok None
      else Raise (ValidationError (Msg required))
  | Some v => b ← validate v; Ok (Some b)
  end.

Definition run_field {A B} : bool → option A → (A → result B)
                             → result (option B) :=
  run_field_with "This field is required.".

(** The same for a [FileField], which words the error in its own way. *)
Definition run_file_field {A B} : bool → option A → (A → result B)
                                  → result (option B) :=
  run_field_with "No file was submitted.".

Definition detail_messages (d : detail) : list string :=
  match d with
  | Msg m => [m]
  | Msgs ms => ms
  | Fields errs => errs ≫= snd
  end.

(** One turn of the loop of [Serializer.to_internal_value]: a
    [ValidationError] of the field is recorded under the field's name and the
    loop goes on; any other exception leaves the loop. *)
Definition collect {A} (name : string) (r : result (option A))
  (errors : list (string * list string))
  : result (option A * list (string * list string)) :=
  match r with
  | Ok v => Ok (v, errors)
  | Raise (ValidationError d) =>
      Ok (None, errors ++ [(name, detail_messages d)])
  | Raise e => Raise e
  end.

(** The field [image = Base64ImageField()] of [RecipeWriteSerializer], given
    the string that the body carries. *)
Definition image_field (fw : Framework) (data : pystr) : result Upload :=
  Base64ImageField_to_internal_value (b64decode fw)
    (ImageField_to_internal_value fw) (Str data).

(** [Serializer.to_internal_value] for [RecipeWriteSerializer]: the
    writable fields in the order of [Meta.fields], each followed by its
    [validate_<field>] method.  [name] and [text] are the [CharField]s that
    [ModelSerializer] builds for the columns, [image] is the
    [Base64ImageField], given the string of the body.  The limits that the
    fields inherit from the model declarations ([recipes/models.py], not
    among the source files) are not part of this function. *)
Definition to_internal_value (fw : Framework) (partial : bool) (db : Store)
  (d : RecipeData) : result ValidatedData :=
  '(tags, errors) ←
    collect "tags"
      (run_field partial (data_tags d) (tags_field db)) [];
  '(ingredients, errors) ←
    collect "ingredients"
      (run_field partial (data_ingredients d) (validate_ingredients db))
      errors;
  '(name, errors) ←
    collect "name" (run_field partial (data_name d) (CharField [])) errors;
  '(image, errors) ←
    collect "image"
      (run_file_field partial (data_image d) (image_field fw)) errors;
  '(text, errors) ←
    collect "text" (run_field partial (data_text d) (CharField [])) errors;
  '(cooking_time, errors) ←
    collect "cooking_time"
      (run_field partial (data_cooking_time d) validate_cooking_time) errors;
  match errors with
  | [] => Ok (mkValidated tags ingredients name image text cooking_time None)
  | _ :: _ => Raise (ValidationError (Fields errors))
  end.

(** *** Writing the associations *)

Definition with_recipes (rows : list Recipe) (db : Store) : Store :=
  mkStore (users db) (subscribes db) (tags db) (ingredients db)
    rows (recipe_tags db) (ingredient_in_recipe db)
    (favourites db) (shopping_carts db).

Definition with_recipe_tags (rows : list (Z * Z)) (db : Store) : Store :=
  mkStore (users db) (subscribes db) (tags db) (ingredients db)
    (recipes db) rows (ingredient_in_recipe db)
    (favourites db) (shopping_carts db).

Definition with_ingredient_in_recipe (rows : list IngredientInRecipe)
  (db : Store) : Store :=
  mkStore (users db) (subscribes db) (tags db) (ingredients db)
    (recipes db) (recipe_tags db) rows
    (favourites db) (shopping_carts db).

(** The related manager [instance.tags] over the through table: the tag
    ids of a recipe, [clear()], [remove] of ids, [add] of ids (which inserts the
    ids that have no row yet, once each) and [set(objs)]. *)
Definition m2m_ids (r : Z) (through : list (Z * Z)) : list Z :=
  snd <$> filter (λ row, row.1 = r) through.

Definition m2m_clear (r : Z) (through : list (Z * Z)) : list (Z * Z) :=
  filter (λ row, row.1 ≠ r) through.

Definition m2m_remove (r : Z) (ids : list Z) (through : list (Z * Z))
  : list (Z * Z) :=
  filter (λ row, ¬ (row.1 = r ∧ row.2 ∈ ids)) through.

Definition m2m_add (r : Z) (ids : list Z) (through : list (Z * Z))
  : list (Z * Z) :=
  through
  ++ (pair r <$> filter (λ t, t ∉ m2m_ids r through) (remove_dups ids)).

(** The loop of [set]: an id that is among [old_ids] is struck from them,
    any other goes to [new_objs]. *)
Fixpoint m2m_set_loop (objs : list Z) (old_ids new_objs : list Z)
  : list Z * list Z :=
  match objs with
  | [] => (old_ids, new_objs)
  | fk_val :: rest =>
      if bool_decide (fk_val ∈ old_ids) then
        m2m_set_loop rest (filter (λ t, t ≠ fk_val) old_ids) new_objs
      else m2m_set_loop rest old_ids (new_objs ++ [fk_val])
  end.

Definition m2m_set (r : Z) (objs : list Z) (through : list (Z * Z))
  : list (Z * Z) :=
  let '(old_ids, new_objs) :=
    m2m_set_loop objs (remove_dups (m2m_ids r through)) [] in
  m2m_add r new_objs (m2m_remove r old_ids through).

(** The rows that [create_ingredients_amounts] hands to [bulk_create]: the
    list comprehension looks every ingredient up with
    [Ingredient.objects.get]. *)
Fixpoint ingredient_rows (db : Store) (recipe : Recipe)
  (items : list IngredientItem) : result (list IngredientInRecipe) :=
  match items with
  | [] => Ok []
  | item :: rest =>
      ingredient ← objects_get ingredient_pk (ingredients db) (item_id item);
      more ← ingredient_rows db recipe rest;
      Ok (mkIngredientInRecipe (recipe_pk recipe) (ingredient_pk ingredient)
            (item_amount item) :: more)
  end.

(** [RecipeWriteSerializer.create_ingredients_amounts] *)
Definition create_ingredients_amounts (items : list IngredientItem)
  (recipe : Recipe) : Store → result () * Store :=
  atomic (λ db,
    match ingredient_rows db recipe items with
    | Raise e => (Raise e, db)
    | Ok rows =>
        (Ok (),
         with_ingredient_in_recipe (ingredient_in_recipe db ++ rows) db)
    end).

(** [dict.pop(key)] on [validated_data] *)
Definition pop {A} (key : string) (value : option A) : result A :=
  match value with
  | Some v => Ok v
  | None => Raise (KeyError key)
  end.

(** The primary key that the database gives to a new recipe row. *)
Definition next_pk (rows : list Recipe) : Z :=
  1 + foldr Z.max 0 (recipe_pk <$> rows).

(** [instance.save()]: the row with the instance's primary key is
    rewritten; without such a row the instance is inserted. *)
Definition save (instance : Recipe) (db : Store) : Store :=
  if bool_decide (recipe_pk instance ∈ recipe_pk <$> recipes db) then
    with_recipes
      ((λ row, if bool_decide (recipe_pk row = recipe_pk instance)
               then instance else row) <$> recipes db) db
  else with_recipes (recipes db ++ [instance]) db.

(** [Recipe.objects.create] called with what is left of [validated_data]
    after the two pops.  Text columns left out take the
    empty string; the integer column and the author cannot be left out.  The
    image column takes the name under which the storage keeps the file. *)
Definition Recipe_objects_create (fw : Framework) (v : ValidatedData)
  (db : Store) : result Recipe * Store :=
  match v_author v, v_cooking_time v with
  | Some author, Some cooking_time =>
      let recipe :=
        mkRecipe (next_pk (recipes db)) (user_pk author)
          (default [] (v_name v))
          (from_option (storage_save fw) [] (v_image v))
          (default [] (v_text v)) cooking_time in
      (Ok recipe, with_recipes (recipes db ++ [recipe]) db)
  | _, _ => (Raise IntegrityError, db)
  end.

(** [RecipeWriteSerializer.create] *)
Definition create (fw : Framework) (v : ValidatedData)
  : Store → result Recipe * Store :=
  atomic (λ db,
    match pop "tags" (v_tags v) with
    | Raise e => (Raise e, db)
    | Ok tags =>
    match pop "ingredients" (v_ingredients v) with
    | Raise e => (Raise e, db)
    | Ok ingredients =>
    match Recipe_objects_create fw v db with
    | (Raise e, db) => (Raise e, db)
    | (Ok recipe, db) =>
        let db :=
          with_recipe_tags
            (m2m_set (recipe_pk recipe) (tag_pk <$> tags) (recipe_tags db))
            db in
        match create_ingredients_amounts ingredients recipe db with
        | (Raise e, db) => (Raise e, db)
        | (Ok _, db) => (Ok recipe, db)
        end
    end end end).

(** [ModelSerializer.update]: every key left in [validated_data] is set on
    the instance, which is then saved; saving stores a new file. *)
Definition ModelSerializer_update (fw : Framework) (instance : Recipe)
  (v : ValidatedData) (db : Store) : Recipe * Store :=
  let instance :=
    mkRecipe (recipe_pk instance)
      (from_option user_pk (recipe_author instance) (v_author v))
      (default (recipe_name instance) (v_name v))
      (from_option (storage_save fw) (recipe_image instance) (v_image v))
      (default (recipe_text instance) (v_text v))
      (default (recipe_cooking_time instance) (v_cooking_time v)) in
  (instance, save instance db).

(** The body of [RecipeWriteSerializer.update], statement by statement, as
    it runs inside the transaction: each write is made on the spot, and an
    exception leaves the writes made before it in place. *)
Definition update_body (fw : Framework) (instance : Recipe)
  (v : ValidatedData) (db : Store) : result Recipe * Store :=
  match pop "tags" (v_tags v) with
  | Raise e => (Raise e, db)
  | Ok tags =>
  match pop "ingredients" (v_ingredients v) with
  | Raise e => (Raise e, db)
  | Ok ingredients =>
      let '(instance, db) := ModelSerializer_update fw instance v db in
      let db :=
        with_recipe_tags (m2m_clear (recipe_pk instance) (recipe_tags db))
          db in
      let db :=
        with_recipe_tags
          (m2m_set (recipe_pk instance) (tag_pk <$> tags) (recipe_tags db))
          db in
      let db :=
        with_ingredient_in_recipe
          (filter (λ row, iir_recipe row ≠ recipe_pk instance)
             (ingredient_in_recipe db)) db in
      match create_ingredients_amounts ingredients instance db with
      | (Raise e, db) => (Raise e, db)
      | (Ok _, db) => (Ok instance, save instance db)
      end
  end end.

(** [RecipeWriteSerializer.update]: the body under [@transaction.atomic]. *)
Definition update (fw : Framework) (instance : Recipe) (v : ValidatedData)
  : Store → result Recipe * Store :=
  atomic (update_body fw instance v).

(** ** api/views.py: RecipeViewSet *)

(** [permission_classes = (IsAuthorOrReadOnly | IsAdminOrReadOnly,)] *)
Definition RecipeViewSet_permission_classes : list Permission :=
  [OR IsAuthorOrReadOnly IsAdminOrReadOnly].

(** [GenericAPIView.get_object]: lookup-or-404, then the object-level
    permission check. *)
Definition get_object (request : Request) (pk : Z) (db : Store)
  : result Recipe :=
  obj ← get_object_or_404 recipe_pk (recipes db) pk;
  _ ← check_object_permissions RecipeViewSet_permission_classes request obj;
  Ok obj.

Definition with_author (u : User) (v : ValidatedData) : ValidatedData :=
  mkValidated (v_tags v) (v_ingredients v) (v_name v) (v_image v) (v_text v)
    (v_cooking_time v) (Some u).

(** [CreateModelMixin.create] with [RecipeViewSet.perform_create], which
    saves with [author=self.request.user]. *)
Definition RecipeViewSet_create (fw : Framework) (request : Request)
  (d : RecipeData) (db : Store) : outcome :=
  match to_internal_value fw false db d with
  | Raise e => (Raise e, db)
  | Ok v =>
      match user request with
      | None => (Raise ValueError, db)
      | Some u =>
          match create fw (with_author u v) db with
          | (Raise e, db) => (Raise e, db)
          | (Ok recipe, db) =>
              (Ok (mkResponse HTTP_201_CREATED (RecipeReadData recipe)), db)
          end
      end
  end.

(** [UpdateModelMixin.update] ([partial] is [True] for PATCH). *)
Definition RecipeViewSet_update (fw : Framework) (partial : bool)
  (request : Request) (pk : Z) (d : RecipeData) (db : Store) : outcome :=
  match get_object request pk db with
  | Raise e => (Raise e, db)
  | Ok instance =>
      match to_internal_value fw partial db d with
      | Raise e => (Raise e, db)
      | Ok v =>
          match update fw instance v db with
          | (Raise e, db) => (Raise e, db)
          | (Ok recipe, db) =>
              (Ok (mkResponse HTTP_200_OK (RecipeReadData recipe)), db)
          end
      end
  end.

(** Modelled from the spec: the foreign keys are declared in
    [recipes/models.py], which is not among the source files; a deleted
    recipe takes its tag, ingredient, favourite and cart rows with it
    ("deletion cascades relations"). *)
Definition Recipe_delete (instance : Recipe) (db : Store) : Store :=
  let pk := recipe_pk instance in
  mkStore (users db) (subscribes db) (tags db) (ingredients db)
    (filter (λ row, recipe_pk row ≠ pk) (recipes db))
    (m2m_clear pk (recipe_tags db))
    (filter (λ row, iir_recipe row ≠ pk) (ingredient_in_recipe db))
    (filter (λ row, ur_recipe row ≠ pk) (favourites db))
    (filter (λ row, ur_recipe row ≠ pk) (shopping_carts db)).

(** [DestroyModelMixin.destroy] *)
Definition RecipeViewSet_destroy (request : Request) (pk : Z) (db : Store)
  : outcome :=
  match get_object request pk db with
  | Raise e => (Raise e, db)
  | Ok instance =>
      (Ok (mkResponse HTTP_204_NO_CONTENT NoBody), Recipe_delete instance db)
  end.

(** [RetrieveModelMixin.retrieve] *)
Definition RecipeViewSet_retrieve (request : Request) (pk : Z) (db : Store)
  : outcome :=
  match get_object request pk db with
  | Raise e => (Raise e, db)
  | Ok instance => (Ok (mkResponse HTTP_200_OK (RecipeReadData instance)), db)
  end.

(** [ListModelMixin.list]; filtering and pagination are declared in
    [api/filters.py] and [api/pagination.py], which are not among the source
    files, and are left out. *)
Definition RecipeViewSet_list (request : Request) (db : Store) : outcome :=
  (Ok (mkResponse HTTP_200_OK (RecipeList (recipes db))), db).

(** [APIView.dispatch] for the routes of the view set: [initial] checks
    the permissions, then the method and the presence of a primary key in the
    URL select the handler.  HEAD is served by the GET handler. *)
Definition RecipeViewSet (fw : Framework) (request : Request)
  (pk : option Z) (d : RecipeData) (db : Store) : outcome :=
  match check_permissions RecipeViewSet_permission_classes request with
  | Raise e => (Raise e, db)
  | Ok _ =>
      match method request, pk with
      | (GET | HEAD), None => RecipeViewSet_list request db
      | (GET | HEAD), Some pk => RecipeViewSet_retrieve request pk db
      | OPTIONS, _ => (Ok (mkResponse HTTP_200_OK Metadata), db)
      | POST, None => RecipeViewSet_create fw request d db
      | PUT, Some pk => RecipeViewSet_update fw false request pk d db
      | PATCH, Some pk => RecipeViewSet_update fw true request pk d db
      | DELETE, Some pk => RecipeViewSet_destroy request pk db
      | _, _ => (Raise MethodNotAllowed, db)
      end
  end.

(** ** api/views.py: the shopping list *)

(** [datetime.today()], of which the view prints the date. *)
Record Date := mkDate {
  year : Z;
  month : Z;
  day : Z
}.

(** Two digits, as [%m] and [%d] print them. *)
Definition two_digits (n : Z) : pystr :=
  if bool_decide (n < 10) then lit "0" ++ str_of_int n else str_of_int n.

(** [f'{today:%Y-%m-%d}'] and [f'{today:%Y}'] (four-digit years). *)
Definition format_date (today : Date) : pystr :=
  str_of_int (year today) ++ lit "-" ++ two_digits (month today)
  ++ lit "-" ++ two_digits (day today).

Definition format_year (today : Date) : pystr := str_of_int (year today).

(** [AbstractUser.get_full_name] *)
Definition get_full_name (u : User) : pystr :=
  strip (user_first_name u ++ lit " " ++ user_last_name u).

(** [user.shopping_cart]: the cart rows of the user. *)
Definition user_shopping_cart (u : User) (db : Store) : list UserRecipe :=
  filter (λ cart, ur_user cart = user_pk u) (shopping_carts db).

(** The rows under
    [IngredientInRecipe.objects.filter(recipe__shopping_cart__user=user)
     .values('ingredient__name', 'ingredient__measurement_unit')]:
    every ingredient row joined with the cart rows of its recipe that belong
    to the user and with its ingredient, giving ((name, unit), amount). *)
Definition cart_ingredient_rows (u : User) (db : Store)
  : list (pystr * pystr * Z) :=
  row ← ingredient_in_recipe db;
  cart ← filter (λ cart, ur_recipe cart = iir_recipe row
                         ∧ ur_user cart = user_pk u) (shopping_carts db);
  ingredient ← filter (λ i, ingredient_pk i = iir_ingredient row)
                  (ingredients db);
  [(ingredient_name ingredient, ingredient_measurement_unit ingredient,
    iir_amount row)].

(** [.annotate(amount=Sum('amount'))] after [values]: GROUP BY the selected
    columns.  A row joins the group of its key, or opens a new group; the
    groups are gathered here in the order in which their keys are met, the
    order in which the database returns them is applied by the caller. *)
Fixpoint group_add {K} `{EqDecision K} (key : K) (amount : Z)
  (groups : list (K * Z)) : list (K * Z) :=
  match groups with
  | [] => [(key, amount)]
  | (k, total) :: rest =>
      if decide (k = key) then (k, total + amount) :: rest
      else (k, total) :: group_add key amount rest
  end.

Definition annotate_sum {K} `{EqDecision K} (rows : list (K * Z))
  : list (K * Z) :=
  foldl (λ groups row, group_add row.1 row.2 groups) [] rows.

(** The sum of the amounts of the rows that carry a key. *)
Definition group_total {K} `{EqDecision K} (key : K) (rows : list (K * Z))
  : Z :=
  foldr Z.add 0 (snd <$> filter (λ row, row.1 = key) rows).

(** One line of the list. *)
Definition shopping_line (ingredient : pystr * pystr * Z) : pystr :=
  lit "- " ++ ingredient.1.1 ++ lit " (" ++ ingredient.1.2 ++ lit ") - "
  ++ str_of_int ingredient.2.

(** The aggregated rows of the user.  The query has no [order_by]: the
    order in which the database returns the groups is its own,
    [query_order]. *)
Definition shopping_groups
  (query_order : list (pystr * pystr * Z) → list (pystr * pystr * Z))
  (u : User) (db : Store) : list (pystr * pystr * Z) :=
  query_order (annotate_sum (cart_ingredient_rows u db)).

Definition shopping_list
  (query_order : list (pystr * pystr * Z) → list (pystr * pystr * Z))
  (today : Date) (u : User) (db : Store) : pystr :=
  lit "Список покупок для: " ++ get_full_name u ++ newline
  ++ lit "Дата: " ++ format_date today ++ newline ++ newline
  ++ join newline (shopping_line <$> shopping_groups query_order u db)
  ++ newline ++ newline ++ lit "Foodgram (" ++ format_year today ++ lit ")".

(** [RecipeViewSet.download_shopping_cart], a list action with
    [permission_classes=(IsAuthenticated,)] that the router serves for GET. *)
Definition download_shopping_cart
  (query_order : list (pystr * pystr * Z) → list (pystr * pystr * Z))
  (today : Date) (request : Request) (db : Store) : outcome :=
  match check_permissions [IsAuthenticated] request with
  | Raise e => (Raise e, db)
  | Ok _ =>
      if bool_decide (method request ∈ [GET; HEAD]) then
        match user request with
        | None => (Raise TypeError, db)
        | Some u =>
            if negb (exists_ (user_shopping_cart u db)) then
              (Ok (mkResponse HTTP_400_BAD_REQUEST
                     (Errors "Корзина покупок пуста!")), db)
            else
              (Ok (mkResponse HTTP_200_OK
                     (Attachment
                        (user_username u ++ lit "_shopping_list.txt")
                        (shopping_list query_order today u db))), db)
        end
      else if bool_decide (method request = OPTIONS) then
        (Ok (mkResponse HTTP_200_OK Metadata), db)
      else (Raise MethodNotAllowed, db)
  end.

(** The specification's reading of the list, to compare with the query:
    for every cart row of the user, the ingredient rows of its recipe, each
    with the ingredients of the given name and unit that it names; the
    amounts of these rows. *)
Definition carted_amounts (u : User) (db : Store) (name unit : pystr)
  : list Z :=
  cart ← user_shopping_cart u db;
  row ← filter (λ row, iir_recipe row = ur_recipe cart)
          (ingredient_in_recipe db);
  ingredient ← filter (λ i, ingredient_pk i = iir_ingredient row
                            ∧ ingredient_name i = name
                            ∧ ingredient_measurement_unit i = unit)
                  (ingredients db);
  [iir_amount row].

(** ** users/views.py: UserViewSet.subscribe *)

(** [Subscribe.objects.filter(user=user, author=author)] *)
Definition filter_subscribe (u a : Z) (rows : list Subscribe)
  : list Subscribe :=
  filter (λ s, sub_user s = u ∧ sub_author s = a) rows.

Definition with_subscribes (rows : list Subscribe) (db : Store) : Store :=
  mkStore (users db) rows (tags db) (ingredients db)
    (recipes db) (recipe_tags db) (ingredient_in_recipe db)
    (favourites db) (shopping_carts db).

(** [get_object_or_404(Subscribe, user=user, author=author)] followed by
    [subscription.delete()]: the single matching row is removed. *)
Definition delete_subscription (u a : Z) (db : Store) : result () * Store :=
  match filter_subscribe u a (subscribes db) with
  | [] => (Raise Http404, db)
  | [_] =>
      (Ok (),
       with_subscribes
         (filter (λ s, ¬ (sub_user s = u ∧ sub_author s = a)) (subscribes db))
         db)
  | _ :: _ :: _ => (Raise MultipleObjectsReturned, db)
  end.

(** [UserViewSet.subscribe].  The response to a successful POST is rendered
    by [get_serializer], only the author is kept of it here. *)
Definition subscribe (request : Request) (pk : Z) (db : Store) : outcome :=
  match user request with
  | None => (Ok (mkResponse HTTP_401_UNAUTHORIZED NoBody), db)
  | Some u =>
      match get_object_or_404 user_pk (users db) pk with
      | Raise e => (Raise e, db)
      | Ok author =>
          if bool_decide (method request = POST) then
            if bool_decide (user_pk u = user_pk author) then
              (Raise (ValidationError
                        (Msg "Нельзя подписаться на самого себя.")), db)
            else if exists_ (filter_subscribe (user_pk u) (user_pk author)
                               (subscribes db)) then
              (Raise (ValidationError
                        (Msg "Вы уже подписаны на этого автора.")), db)
            else
              (Ok (mkResponse HTTP_201_CREATED (UserData author)),
               with_subscribes
                 (subscribes db
                  ++ [mkSubscribe (user_pk u) (user_pk author)]) db)
          else if bool_decide (method request = DELETE) then
            if negb (exists_ (filter_subscribe (user_pk u) (user_pk author)
                                (subscribes db))) then
              (Raise (ValidationError
                        (Msg "Подписка не была оформлена, либо удалена.")),
               db)
            else
              match delete_subscription (user_pk u) (user_pk author) db with
              | (Raise e, db) => (Raise e, db)
              | (Ok _, db) =>
                  (Ok (mkResponse HTTP_204_NO_CONTENT
                         (Text "Вы успешно отписались.")), db)
              end
          else (Ok (mkResponse HTTP_405_METHOD_NOT_ALLOWED NoBody), db)
      end
  end.

(** ** Text checks that depend on the Unicode character database

    The database itself is not part of the sources; its two tables are
    variables, consulted only for code points above 127. *)

Section Unicode.

(** [str.isalnum] of a character above 127. *)
Variable unicode_alnum : N → bool.
(** The value of a decimal digit (category Nd) above 127. *)
Variable unicode_decimal : N → option Z.

Definition ascii_digit (c : N) : bool := (48 <=? c)%N && (c <=? 57)%N.
Definition ascii_alpha (c : N) : bool :=
  ((65 <=? c)%N && (c <=? 90)%N) || ((97 <=? c)%N && (c <=? 122)%N).

(** The class [\w] of a [str] pattern. *)
Definition word_char (c : N) : bool :=
  if (c <? 128)%N then ascii_digit c || ascii_alpha c || (c =? 95)%N
  else unicode_alnum c.

(** The class [[\w.@+-]]. *)
Definition username_class (c : N) : bool :=
  word_char c || bool_decide (c ∈ [46; 64; 43; 45]%N).

Fixpoint take_while {A} (p : A → bool) (l : list A) : list A :=
  match l with
  | x :: rest => if p x then x :: take_while p rest else []
  | [] => []
  end.

(** [re.search(r'^[\w.@+-]+', value)]: the pattern is anchored at the start
    only, so the match is the longest prefix in the class, when that prefix
    is not empty. *)
Definition regex_search (value : pystr) : option pystr :=
  match take_while username_class value with
  | [] => None
  | c :: m => Some (c :: m)
  end.

(** [RegexValidator(regex=..., message=...)]: the messages it raises. *)
Definition RegexValidator (message : string) (value : pystr) : list string :=
  match regex_search value with
  | Some _ => []
  | None => [message]
  end.

(** [UniqueValidator(queryset, message)] over a column. *)
Definition UniqueValidator (column : list pystr) (message : string)
  (value : pystr) : list string :=
  if bool_decide (value ∈ column) then [message] else [].

Definition USERNAME_MAX_LENGTH : nat := 150.
Definition EMAIL_MAX_LENGTH : nat := 254.

(** [UserSerializer.username] *)
Definition UserSerializer_username (db : Store) : pystr → result pystr :=
  CharField
    [MaxLengthValidator USERNAME_MAX_LENGTH
       "Имя пользователя не должно быть длинее 150 символов";
     UniqueValidator (user_username <$> users db)
       "Это имя пользователя уже занято";
     RegexValidator "Имя пользователя содержит недопустимые символы"].

(** [EmailField.run_validation]: a [CharField] whose constructor appends
    [EmailValidator] after the two validators that [CharField] has appended.
    [EmailValidator] is a class of the framework, taken here as the function
    that says whether it accepts a value. *)
Definition EmailField (EmailValidator : pystr → bool)
  (validators : list (pystr → list string)) (data : pystr) : result pystr :=
  let value := strip data in
  match value with
  | [] => Raise (ValidationError (Msg "This field may not be blank."))
  | _ :: _ =>
      run_validators
        (validators ++ [ProhibitNullCharactersValidator;
                        ProhibitSurrogateCharactersValidator;
                        (λ value, if EmailValidator value then []
                                  else ["Enter a valid email address."])])
        value
  end.

(** [UserSerializer.email] *)
Definition UserSerializer_email (EmailValidator : pystr → bool)
  : pystr → result pystr :=
  EmailField EmailValidator
    [MaxLengthValidator EMAIL_MAX_LENGTH
       "Email не должен превышать 254 символа";
     RegexValidator
       "Адрес электронной почты содержит недопустимые символы"].

(** *** [int(text)] *)

Definition digit_value (c : N) : option Z :=
  if ascii_digit c then Some (Z.of_N c - 48)
  else if (c <? 128)%N then None
  else unicode_decimal c.

(** Digits, with single underscores allowed between two digits. *)
Fixpoint parse_digits (s : pystr) (acc : Z) (after_digit : bool)
  : option Z :=
  match s with
  | [] => if after_digit then Some acc else None
  | c :: rest =>
      if (c =? 95)%N then
        if after_digit then parse_digits rest acc false else None
      else
        match digit_value c with
        | Some d => parse_digits rest (10 * acc + d) true
        | None => None
        end
  end.

(** [int(s)] in base ten: surrounding white space, an optional sign, the
    digits.  (The cap on the number of digits of recent interpreters is left
    out.) *)
Definition int (s : pystr) : result Z :=
  let '(sign, body) :=
    match strip s with
    | c :: rest =>
        if (c =? 45)%N then (-1, rest)
        else if (c =? 43)%N then (1, rest)
        else (1, c :: rest)
    | [] => (1, [])
    end in
  match parse_digits body 0 false with
  | Some n => Ok (sign * n)
  | None => Raise ValueError
  end.

(** [queryset[:n]], evaluated: a negative bound is refused by the ORM, and
    a bound that does not fit the 64-bit integer of the LIMIT clause is
    refused by the database. *)
Definition queryset_slice {A} (n : Z) (qs : list A) : result (list A) :=
  if bool_decide (n < 0) then Raise ValueError
  else if bool_decide (2 ^ 63 ≤ n) then Raise IntegrityError
  else Ok (take (Z.to_nat n) qs).

(** Truth of [limit] in [if limit:]; [None] and the empty string are
    false. *)
Definition truthy (limit : option pystr) : bool :=
  match limit with
  | Some (_ :: _) => true
  | Some [] | None => false
  end.

(** [SubscriptionSerializer.get_recipes] *)
Definition SubscriptionSerializer_get_recipes (request : Request)
  (obj : User) (db : Store) : result (list Recipe) :=
  let limit := query_get "recipes_limit" (query_params request) in
  let recipes := filter (λ r, recipe_author r = user_pk obj) (recipes db) in
  if truthy limit then
    n ← int (default [] limit);
    queryset_slice n recipes
  else Ok recipes.

(** [SubscribeSerializer.get_recipes]: [request.GET] is the same query
    dictionary and [obj.recipes.all()] the same rows. *)
Definition SubscribeSerializer_get_recipes (request : Request)
  (obj : User) (db : Store) : result (list Recipe) :=
  let limit := query_get "recipes_limit" (query_params request) in
  let recipes := filter (λ r, recipe_author r = user_pk obj) (recipes db) in
  if truthy limit then
    n ← int (default [] limit);
    queryset_slice n recipes
  else Ok recipes.

(** [SubscriptionSerializer(paginated_queryset, many=True).data]: every
    listed author with the preview of recipes and their count. *)
Fixpoint SubscriptionSerializer_data (request : Request)
  (authors : list User) (db : Store)
  : result (list (User * list Recipe * nat)) :=
  match authors with
  | [] => Ok []
  | obj :: rest =>
      previews ← SubscriptionSerializer_get_recipes request obj db;
      more ← SubscriptionSerializer_data request rest db;
      Ok ((obj, previews,
           length (filter (λ r, recipe_author r = user_pk obj) (recipes db)))
          :: more)
  end.

(** [QuerySet] of [User]: [Meta.ordering = ['id']]. *)
Definition id_le (a b : User) : Prop := user_pk a ≤ user_pk b.

#[global] Instance id_le_dec a b : Decision (id_le a b).
Proof. unfold id_le. apply _. Defined.

Definition order_by_id (rows : list User) : list User :=
  merge_sort id_le rows.

(** [User.objects.filter(id__in=users_id)], where [users_id] are the authors
    of the rows of [user.follower]. *)
Definition following (u : User) (db : Store) : list User :=
  let users_id :=
    sub_author <$> filter (λ s, sub_user s = user_pk u) (subscribes db) in
  order_by_id (filter (λ a, user_pk a ∈ users_id) (users db)).

(** [UserViewSet.http_method_names] *)
Definition http_method_names : list Method := [GET; POST; DELETE; PUT].

(** [UserViewSet.subscriptions], a list action with
    [permission_classes=[IsAuthenticated]] that the router binds to GET:
    the dispatcher checks the permission and answers any other method with
    405.  [paginate_queryset] is the paginator of [api/pagination.py], which
    is not among the source files: it picks the page of the list or raises;
    of [get_paginated_response] the results are kept, the count and the page
    links that the paginator adds are left out. *)
Definition subscriptions
  (paginate_queryset : Request → list User → result (list User))
  (request : Request) (db : Store) : outcome :=
  match check_permissions [IsAuthenticated] request with
  | Raise e => (Raise e, db)
  | Ok _ =>
      if bool_decide (method request ∈ http_method_names)
         && bool_decide (method request = GET) then
        match user request with
        | None => (Raise TypeError, db)
        | Some u =>
            match paginate_queryset request (following u db) with
            | Raise e => (Raise e, db)
            | Ok paginated_queryset =>
                match SubscriptionSerializer_data request paginated_queryset
                        db with
                | Raise e => (Raise e, db)
                | Ok rendered =>
                    (Ok (mkResponse HTTP_200_OK (SubscriptionList rendered)),
                     db)
                end
            end
        end
      else (Raise MethodNotAllowed, db)
  end.

End Unicode.

(** ** Primary keys

    A primary key names at most one row of its table. *)
Definition pk_unique (db : Store) : Prop :=
  NoDup (user_pk <$> users db)
  ∧ NoDup (tag_pk <$> tags db)
  ∧ NoDup (ingredient_pk <$> ingredients db)
  ∧ NoDup (recipe_pk <$> recipes db).

#[global] Instance pk_unique_dec db : Decision (pk_unique db).
Proof. unfold pk_unique. apply _. Defined.

(** The request bodies that claim C5 is about: an empty ingredient list, an
    empty tag list, a tag id given twice, an ingredient id given twice, or an
    amount that is not positive. *)
Definition faulty_associations (d : RecipeData) : Prop :=
  data_ingredients d = Some []
  ∨ data_tags d = Some []
  ∨ (∃ pks, data_tags d = Some pks ∧ ¬ NoDup pks)
  ∨ (∃ items, data_ingredients d = Some items
       ∧ (¬ NoDup (item_id <$> items)
          ∨ ∃ item, item ∈ items ∧ item_amount item ≤ 0)).

(** [partial] as the router sets it: PATCH is the partial update. *)
Definition is_partial (request : Request) : bool :=
  bool_decide (method request = PATCH).

(** ** A small database for worked examples *)

Definition alice : User :=
  mkUser 1 (lit "alice") (lit "alice@example.com")
    (lit "Alice") (lit "Liddell") false.
Definition bob : User :=
  mkUser 2 (lit "bob") (lit "bob@example.com")
    (lit "Bob") (lit "Baker") false.
Definition carol : User :=
  mkUser 3 (lit "carol") (lit "carol@example.com")
    (lit "Carol") (lit "Cook") true.

Definition breakfast : Tag := mkTag 1 (lit "Breakfast") (lit "breakfast").
Definition dinner : Tag := mkTag 2 (lit "Dinner") (lit "dinner").

Definition eggs : Ingredient := mkIngredient 1 (lit "eggs") (lit "pcs").
Definition flour : Ingredient := mkIngredient 2 (lit "flour") (lit "g").
Definition milk : Ingredient := mkIngredient 3 (lit "milk") (lit "ml").

Definition pancakes : Recipe :=
  mkRecipe 10 1 (lit "Pancakes") (lit "recipes/p.png")
    (lit "Mix and fry.") 20.
Definition omelette : Recipe :=
  mkRecipe 11 1 (lit "Omelette") (lit "recipes/o.png")
    (lit "Beat and fry.") 10.

(** Alice wrote both recipes; pancakes take 2 eggs and 100 g of flour, the
    omelette 3 eggs and 50 ml of milk; Bob has both in his cart and the
    pancakes among his favourites; Carol is staff. *)
Definition sample_db : Store :=
  mkStore [alice; bob; carol] []
    [breakfast; dinner] [eggs; flour; milk]
    [pancakes; omelette]
    [(10, 1); (11, 1); (11, 2)]
    [mkIngredientInRecipe 10 1 2; mkIngredientInRecipe 10 2 100;
     mkIngredientInRecipe 11 1 3; mkIngredientInRecipe 11 3 50]
    [mkUserRecipe 2 10]
    [mkUserRecipe 2 10; mkUserRecipe 2 11].

(** Validated data whose second ingredient has left the table since the
    body was validated: [update] gets as far as
    [create_ingredients_amounts] and raises there. *)
Definition stale_validated_data : ValidatedData :=
  mkValidated (Some [dinner]) (Some [mkItem 1 4; mkItem 999 1])
    None None None None None.

(** A framework for the examples: the payload of a data URL is taken as
    the content of the file, every file passes as an image and any other
    value is refused, and the storage keeps a file under [recipes/] and its
    own name. *)
Definition sample_framework : Framework :=
  mkFramework (λ imgstr, Ok imgstr)
    (λ data,
       match data with
       | File _ _ => Ok data
       | Str _ =>
           Raise (ValidationError
                    (Msg "The submitted data was not a file."))
       end)
    (λ file,
       match file with
       | File name _ => lit "recipes/" ++ name
       | Str s => s
       end).

(** A database that returns the groups in the order in which it met their
    keys. *)
Definition first_seen (groups : list (pystr * pystr * Z))
  : list (pystr * pystr * Z) := groups.

(** A paginator whose page is the whole list. *)
Definition whole_list (request : Request) (qs : list User)
  : result (list User) := Ok qs.

(** The same database after Bob subscribed to Alice. *)
Definition following_db : Store :=
  with_subscribes [mkSubscribe 2 1] sample_db.

(** A cart that holds the pancakes only. *)
Definition pancakes_only_db : Store :=
  with_objects ShoppingCart [mkUserRecipe 2 10] sample_db.

Definition no_data : RecipeData :=
  mkRecipeData None None None None None None.

(** A request body for the examples: tags 1 and 2, four eggs and 150 ml of
    milk. *)
Definition crepes_data : RecipeData :=
  mkRecipeData (Some [1; 2]) (Some [mkItem 1 4; mkItem 3 150])
    (Some (lit "Crepes")) (Some (lit "data:image/png;base64,aGk="))
    (Some (lit "Whisk, rest, fry.")) (Some 30).

Definition with_cooking_time (value : Z) (d : RecipeData) : RecipeData :=
  mkRecipeData (data_tags d) (data_ingredients d) (data_name d)
    (data_image d) (data_text d) (Some value).

Definition with_ingredient_items (items : list IngredientItem)
  (d : RecipeData) : RecipeData :=
  mkRecipeData (data_tags d) (Some items) (data_name d)
    (data_image d) (data_text d) (data_cooking_time d).

(** ** Referential integrity

    A row of an association table names a recipe of the recipe table. *)
Definition references_ok (db : Store) : Prop :=
  Forall (λ row, row.1 ∈ recipe_pk <$> recipes db) (recipe_tags db)
  ∧ Forall (λ row, iir_recipe row ∈ recipe_pk <$> recipes db)
      (ingredient_in_recipe db)
  ∧ Forall (λ row, ur_recipe row ∈ recipe_pk <$> recipes db) (favourites db)
  ∧ Forall (λ row, ur_recipe row ∈ recipe_pk <$> recipes db)
      (shopping_carts db).

#[global] Instance references_ok_dec db : Decision (references_ok db).
Proof. unfold references_ok. apply _. Defined.

(** What [RecipeWriteSerializer] demands of a body on create and on PUT:
    every key present, tags and ingredients non-empty, without repetition and
    known to the database, amounts positive, cooking time in (0, 600]. *)
Definition acceptable_body (db : Store) (d : RecipeData) : Prop :=
  ∃ pks items cooking_time,
    data_tags d = Some pks ∧ data_ingredients d = Some items
    ∧ data_cooking_time d = Some cooking_time
    ∧ is_Some (data_name d) ∧ is_Some (data_image d) ∧ is_Some (data_text d)
    ∧ pks ≠ [] ∧ NoDup pks ∧ pks ⊆ tag_pk <$> tags db
    ∧ items ≠ [] ∧ NoDup (item_id <$> items)
    ∧ item_id <$> items ⊆ ingredient_pk <$> ingredients db
    ∧ Forall (λ item, 0 < item_amount item) items
    ∧ 0 < cooking_time ≤ 600.

(** ** api/serializers.py: the flags of RecipeReadSerializer *)

(** [RecipeReadSerializer.get_is_favorited] *)
Definition get_is_favorited (request : Request) (obj : Recipe) (db : Store)
  : bool :=
  match user request with
  | None => false
  | Some u =>
      exists_ (filter_user_recipe (user_pk u) (recipe_pk obj) (favourites db))
  end.

(** [RecipeReadSerializer.get_is_in_shopping_cart] *)
Definition get_is_in_shopping_cart (request : Request) (obj : Recipe)
  (db : Store) : bool :=
  match user request with
  | None => false
  | Some u =>
      exists_ (filter_user_recipe (user_pk u) (recipe_pk obj)
                 (shopping_carts db))
  end.

(** The flag that reports on a relation. *)
Definition relation_flag (model : RelModel)
  : Request → Recipe → Store → bool :=
  match model with
  | Favourite => get_is_favorited
  | ShoppingCart => get_is_in_shopping_cart
  end.

(** The request of the same sender with another method. *)
Definition with_method (m : Method) (request : Request) : Request :=
  mkRequest m (user request) (query_params request).

(** ** users/views.py: [subscribe] as the URL reaches it

    The router hands [pk] over as the text of the URL segment.  The view
    answers an anonymous sender before it looks at the key.  The lookup
    turns the text into the integer of the key column with [int], and
    [get_object_or_404] of [django.shortcuts] lets the [ValueError] of a text
    that is no number through.  An integer beyond the 64 bits of the database
    is answered by the database layer in use, with no row or with an
    exception of its own: [out_of_range] stands for that exception. *)
Definition UserViewSet_subscribe (unicode_decimal : N → option Z)
  (out_of_range : option exn) (request : Request) (pk : pystr) (db : Store)
  : outcome :=
  match user request with
  | None => (Ok (mkResponse HTTP_401_UNAUTHORIZED NoBody), db)
  | Some _ =>
      match int unicode_decimal pk with
      | Raise e => (Raise e, db)
      | Ok key =>
          if bool_decide (- 2 ^ 63 ≤ key < 2 ^ 63) then
            subscribe request key db
          else
            match out_of_range with
            | Some e => (Raise e, db)
            | None => (Raise Http404, db)
            end
      end
  end.

(** ** users/models.py: the constraints of [Subscribe]

    [unique_subscribe] allows one row per (user, author); the view adds the
    rule that nobody follows themselves. *)
Definition subscribes_ok (db : Store) : Prop :=
  NoDup (subscribes db)
  ∧ Forall (λ s, sub_user s ≠ sub_author s) (subscribes db).

#[global] Instance subscribes_ok_dec db : Decision (subscribes_ok db).
Proof. unfold subscribes_ok. apply _. Defined.

(** ** api/serializers.py: [is_subscribed] *)

(** [CustomUserSerializer.get_is_subscribed].  The context of a serializer
    may come without a request: [None]. *)
Definition CustomUserSerializer_get_is_subscribed (context : option Request)
  (obj : User) (db : Store) : bool :=
  match context with
  | None => false
  | Some request =>
      match user request with
      | None => false
      | Some u =>
          exists_ (filter_subscribe (user_pk u) (user_pk obj) (subscribes db))
      end
  end.

(** [SubscriptionSerializer.get_is_subscribed]: [self.context['request']] is
    read before the test of [request], so a context without request is a
    [KeyError].  [obj.following] are the rows whose author is [obj]. *)
Definition SubscriptionSerializer_get_is_subscribed
  (context : option Request) (obj : User) (db : Store) : result bool :=
  match context with
  | None => Raise (KeyError "request")
  | Some request =>
      match user request with
      | None => Ok false
      | Some u =>
          Ok (exists_
                (filter (λ s, sub_user s = user_pk u)
                   (filter (λ s, sub_author s = user_pk obj)
                      (subscribes db))))
      end
  end.

(** [SubscribeSerializer.validate], with [self.instance] the author and the
    request of the context.  A filter on [user=AnonymousUser] is a
    [TypeError] of the ORM. *)
Definition SubscribeSerializer_validate {A} (request : Request)
  (instance : User) (db : Store) (data : A) : result A :=
  match user request with
  | None => Raise TypeError
  | Some u =>
      if exists_ (filter (λ s, sub_author s = user_pk instance
                               ∧ sub_user s = user_pk u) (subscribes db))
      then Raise (ValidationError
                    (Msg "Вы уже подписаны на этого пользователя!"))
      else if bool_decide (user_pk u = user_pk instance)
      then Raise (ValidationError
                    (Msg "Вы не можете подписаться на самого себя!"))
      else Ok data
  end.

(** ** users/views.py: UserViewSet.user_self_profile *)

(** What [CustomUserSerializer] renders of a user: the columns of the row
    and [is_subscribed].  (The row of this development carries no avatar.) *)
Inductive ProfileBody :=
| ProfileData (u : User) (is_subscribed : bool)
| ProfilePlain (b : Body).

Record ProfileResponse := mkProfileResponse {
  profile_status : Z;
  profile_data : ProfileBody
}.

(** [handle_exception] for this action. *)
Definition profile_respond (r : result ProfileResponse) : ProfileResponse :=
  match r with
  | Ok response => response
  | Raise e =>
      mkProfileResponse (status_code (handle_exception e))
        (ProfilePlain (data (handle_exception e)))
  end.

(** The body of [UserViewSet.user_self_profile]. *)
Definition user_self_profile_body (request : Request) (u : User)
  (db : Store) : ProfileResponse :=
  if bool_decide (method request = GET) then
    mkProfileResponse HTTP_200_OK
      (ProfileData u
         (CustomUserSerializer_get_is_subscribed (Some request) u db))
  else mkProfileResponse HTTP_405_METHOD_NOT_ALLOWED (ProfilePlain NoBody).

(** [UserViewSet.user_self_profile], a list action at [me] with
    [permission_classes=[IsAuthenticated]].  The router binds it to GET, and
    with GET to HEAD.  The dispatcher checks the permission, then looks for
    the handler of the method, for a method of [http_method_names] only; a
    request without handler is answered with 405.  A body reached by
    [AnonymousUser] would fail in the serializer. *)
Definition user_self_profile (request : Request) (db : Store)
  : result ProfileResponse :=
  match check_permissions [IsAuthenticated] request with
  | Raise e => Raise e
  | Ok _ =>
      if bool_decide (method request ∈ http_method_names)
         && bool_decide (method request ∈ [GET; HEAD]) then
        match user request with
        | None => Raise TypeError
        | Some u => Ok (user_self_profile_body request u db)
        end
      else Raise MethodNotAllowed
  end.

(** ** api/views.py: IngredientViewSet and TagViewSet *)

(** The two routes that the router registers for a view set. *)
Inductive Route := ListRoute | DetailRoute (pk : Z).

(** [self.action] *)
Inductive Action :=
| action_list
| action_retrieve
| action_create
| action_metadata.

#[global] Instance Action_eq_dec : EqDecision Action.
Proof. solve_decision. Defined.

(** [ViewSetMixin.initialize_request]: the action bound to the method on the
    route, [metadata] for OPTIONS, [None] for an unbound method.  The router
    binds [list] and [create] on the list route and [retrieve] on the detail
    route, the actions of its table that these view sets have; HEAD goes with
    GET. *)
Definition route_action (route : Route) (m : Method) : option Action :=
  match m, route with
  | OPTIONS, _ => Some action_metadata
  | (GET | HEAD), ListRoute => Some action_list
  | (GET | HEAD), DetailRoute _ => Some action_retrieve
  | POST, ListRoute => Some action_create
  | _, _ => None
  end.

Inductive CatalogBody (T : Type) :=
| Rows (rows : list T)
| Row (row : T)
| Plain (b : Body).
Arguments Rows {T} rows.
Arguments Row {T} row.
Arguments Plain {T} b.

Record CatalogResponse (T : Type) := mkCatalogResponse {
  catalog_status : Z;
  catalog_data : CatalogBody T
}.
Arguments mkCatalogResponse {T} _ _.
Arguments catalog_status {T} _.
Arguments catalog_data {T} _.

Definition catalog_respond {T} (r : result (CatalogResponse T))
  : CatalogResponse T :=
  match r with
  | Ok response => response
  | Raise e =>
      mkCatalogResponse (status_code (handle_exception e))
        (Plain (data (handle_exception e)))
  end.

Section ReadOnlyModelViewSet.

Context {T : Type}.
(** The primary key of a row, the table of the view set, [get_permissions],
    and the methods [create], [post] and [put] of the class. *)
Variable pk_of : T → Z.
Variable queryset : Store → list T.
Variable get_permissions : option Action → list Permission.
Variables create post put : result (CatalogResponse T).
(** [filter_queryset] with the filter backends, which are not among the
    source files ([api/filters.py], the settings); pagination is left
    out. *)
Variable filter_queryset : Request → list T → list T.

(** [GenericAPIView.get_object]: the queryset is filtered, then the
    method asserts that the URL carries the lookup key, which the list route
    does not, and looks the row up.  The permission classes in use inherit
    the object check that allows everything. *)
Definition GenericAPIView_get_object (request : Request) (route : Route)
  (db : Store) : result T :=
  let queryset := filter_queryset request (queryset db) in
  match route with
  | ListRoute => Raise AssertionError
  | DetailRoute pk => get_object_or_404 pk_of queryset pk
  end.

(** The exceptions that [SimpleMetadata.determine_actions] catches:
    [APIException] with its subclasses, [PermissionDenied] and [Http404]. *)
Definition determine_actions_catches (e : exn) : bool :=
  match e with
  | ValidationError _ | NotAuthenticated | PermissionDenied
  | MethodNotAllowed | Http404 => true
  | KeyError _ | ValueError | DoesNotExist | MultipleObjectsReturned
  | TypeError | IntegrityError | AssertionError => false
  end.

(** One round of the loop of [determine_actions]: the request is cloned
    with the method, the permissions are checked on the clone, and for PUT
    [get_object] is called.  A caught exception leaves the method out of the
    answer; any other exception leaves the loop and the view.  [self.action]
    stays [metadata] throughout. *)
Definition determine_actions_round (request : Request) (route : Route)
  (db : Store) (m : Method) : result (list Method) :=
  let request := with_method m request in
  let attempt :=
    _ ← check_permissions (get_permissions (Some action_metadata)) request;
    if bool_decide (m = PUT)
    then _ ← GenericAPIView_get_object request route db; Ok ()
    else Ok () in
  match attempt with
  | Ok _ => Ok [m]
  | Raise e => if determine_actions_catches e then Ok [] else Raise e
  end.

(** [SimpleMetadata.determine_actions]: the methods among PUT and POST that
    the sender may use.  Both are among [allowed_methods], as the class
    defines [put] and [post].  The loop runs over a set; the round of POST
    raises nothing, so the order of the two rounds does not show. *)
Definition determine_actions (request : Request) (route : Route)
  (db : Store) : result (list Method) :=
  put ← determine_actions_round request route db PUT;
  post ← determine_actions_round request route db POST;
  Ok (put ++ post).

(** [APIView.options] with the default metadata class: the answer is 200
    with the description of the view, once [determine_actions] has
    returned. *)
Definition options (request : Request) (route : Route) (db : Store)
  : result (CatalogResponse T) :=
  _ ← determine_actions request route db;
  Ok (mkCatalogResponse HTTP_200_OK (Plain Metadata)).

(** [APIView.dispatch] for a [ReadOnlyModelViewSet] that defines [create],
    [post] and [put]: the permissions are checked first, then the handler of
    the method runs.  POST on the list route is bound to [create]; elsewhere
    the attribute [post] of the class is found.  PATCH and DELETE have no
    handler. *)
Definition ReadOnlyModelViewSet (request : Request) (route : Route)
  (db : Store) : result (CatalogResponse T) :=
  match check_permissions
          (get_permissions (route_action route (method request))) request with
  | Raise e => Raise e
  | Ok _ =>
      match method request with
      | GET | HEAD =>
          match route with
          | ListRoute =>
              Ok (mkCatalogResponse HTTP_200_OK
                    (Rows (filter_queryset request (queryset db))))
          | DetailRoute pk =>
              row ← GenericAPIView_get_object request route db;
              Ok (mkCatalogResponse HTTP_200_OK (Row row))
          end
      | OPTIONS => options request route db
      | POST =>
          match route with
          | ListRoute => create
          | DetailRoute _ => post
          end
      | PUT => put
      | PATCH | DELETE => Raise MethodNotAllowed
      end
  end.

End ReadOnlyModelViewSet.

(** [Response(status=status.HTTP_405_METHOD_NOT_ALLOWED)], the body of
    [create], [post] and [put] in both view sets. *)
Definition refuse {T} : result (CatalogResponse T) :=
  Ok (mkCatalogResponse HTTP_405_METHOD_NOT_ALLOWED (Plain NoBody)).

(** [IngredientViewSet], with [permission_classes = (IsAdminOrReadOnly,)]. *)
Definition IngredientViewSet
  : (Request → list Ingredient → list Ingredient) → Request → Route → Store
    → result (CatalogResponse Ingredient) :=
  ReadOnlyModelViewSet ingredient_pk ingredients (λ _, [IsAdminOrReadOnly])
    refuse refuse refuse.

(** [TagViewSet.get_permissions] *)
Definition TagViewSet_get_permissions (action : option Action)
  : list Permission :=
  if bool_decide (action ∈ [Some action_list; Some action_retrieve])
  then [AllowAny]
  else [IsAuthenticated].

(** [TagViewSet] *)
Definition TagViewSet
  : (Request → list Tag → list Tag) → Request → Route → Store
    → result (CatalogResponse Tag) :=
  ReadOnlyModelViewSet tag_pk tags TagViewSet_get_permissions
    refuse refuse refuse.

(** * Properties *)

(** ** Favourites and shopping cart *)

Section Toggle.

Implicit Types (model : RelModel) (u : User) (pk : Z) (db : Store).

Lemma exists_true_length {A} (qs : list A) :
  exists_ qs = true ↔ (0 < length qs)%nat.
Proof. destruct qs; simpl; split; intros; try done; lia. Qed.

Lemma exists_false_length {A} (qs : list A) :
  exists_ qs = false ↔ length qs = 0%nat.
Proof. destruct qs; simpl; split; intros; try done; lia. Qed.

Lemma objects_with_objects model rows db :
  objects model (with_objects model rows db) = rows.
Proof. by destruct model. Qed.

Lemma with_objects_objects model db :
  with_objects model (objects model db) db = db.
Proof. by destruct model, db. Qed.

Lemma with_objects_twice model rows rows' db :
  with_objects model rows (with_objects model rows' db)
  = with_objects model rows db.
Proof. by destruct model. Qed.

Lemma toggle_action_authenticated model request u pk db :
  user request = Some u →
  toggle_action model request pk db =
    match method request with
    | POST => _add_to model u pk db
    | DELETE => _delete_from model u pk db
    | OPTIONS => (Ok (mkResponse HTTP_200_OK Metadata), db)
    | _ => (Raise MethodNotAllowed, db)
    end.
Proof.
  intros Hu.
  destruct model; unfold toggle_action, favorite, shopping_cart,
    post_delete_action, favorite_body, shopping_cart_body; simpl;
    rewrite Hu; simpl; by destruct (method request).
Qed.

Lemma filter_user_recipe_delete uid pk rows :
  filter_user_recipe uid pk (delete_user_recipe uid pk rows) = [].
Proof.
  unfold filter_user_recipe, delete_user_recipe.
  induction rows as [|r rows IH]; [done|].
  rewrite filter_cons.
  destruct (decide (¬ (ur_user r = uid ∧ ur_recipe r = pk))) as [Hr|Hr];
    [|done].
  rewrite filter_cons_False by done. done.
Qed.

Lemma elem_of_delete_user_recipe uid pk rows r :
  r ∈ delete_user_recipe uid pk rows ↔ r ∈ rows ∧ r ≠ mkUserRecipe uid pk.
Proof.
  unfold delete_user_recipe. rewrite list_elem_of_filter.
  destruct r as [a b]; simpl. split.
  - intros [Hne Hin]. split; [done|]. intros [= -> ->]. tauto.
  - intros [Hin Hne]. split; [|done]. intros [-> ->]. done.
Qed.

Lemma length_delete_user_recipe uid pk rows :
  (length (delete_user_recipe uid pk rows)
   + length (filter_user_recipe uid pk rows) = length rows)%nat.
Proof.
  unfold delete_user_recipe, filter_user_recipe.
  induction rows as [|r rows IH]; [done|].
  rewrite !filter_cons.
  destruct (decide (ur_user r = uid ∧ ur_recipe r = pk)) as [Hr|Hr].
  - rewrite decide_False by tauto. simpl. lia.
  - rewrite decide_True by done. simpl. lia.
Qed.

Lemma filter_user_recipe_app uid pk rows rows' :
  filter_user_recipe uid pk (rows ++ rows')
  = filter_user_recipe uid pk rows ++ filter_user_recipe uid pk rows'.
Proof. apply filter_app. Qed.

Lemma get_object_or_404_pk {A} (pk_of : A → Z) table pk row :
  get_object_or_404 pk_of table pk = Ok row → pk_of row = pk ∧ row ∈ table.
Proof.
  unfold get_object_or_404.
  destruct (filter _ table) as [|r [|r' l]] eqn:Hf; intros [=]; subst.
  assert (row ∈ filter (λ row, pk_of row = pk) table) as Hin
    by (rewrite Hf; apply list_elem_of_here).
  by apply list_elem_of_filter in Hin.
Qed.

End Toggle.

(** C4. For an authenticated user [u] and a recipe id [pk], with [n] the
    number of rows relating them in the favourites (or the cart): POST with
    [n > 0] answers 400 and leaves the store as it was; POST with [n = 0]
    and the recipe found answers 201 and appends exactly one row, changing no
    other table; DELETE with [n = 0] answers 400 and leaves the store as it
    was; DELETE with [n > 0] answers 204, after which no row relates them
    and every other row is kept. *)
Theorem toggle_relation (model : RelModel) (request : Request) (u : User)
  (pk : Z) (db : Store) :
  user request = Some u →
  let related db :=
    length (filter_user_recipe (user_pk u) pk (objects model db)) in
  (method request = POST →
     ((0 < related db)%nat →
        respond (toggle_action model request pk db)
        = (mkResponse HTTP_400_BAD_REQUEST (Errors "Рецепт уже добавлен!"),
           db))
     ∧ (related db = 0%nat →
        ∀ recipe, get_object_or_404 recipe_pk (recipes db) pk = Ok recipe →
        ∃ db',
          respond (toggle_action model request pk db)
          = (mkResponse HTTP_201_CREATED (RecipeShortData recipe), db')
          ∧ objects model db'
            = objects model db ++ [mkUserRecipe (user_pk u) pk]
          ∧ related db' = 1%nat
          ∧ db' = with_objects model (objects model db') db))
  ∧ (method request = DELETE →
     (related db = 0%nat →
        respond (toggle_action model request pk db)
        = (mkResponse HTTP_400_BAD_REQUEST (Errors "Рецепт не найден!"), db))
     ∧ ((0 < related db)%nat →
        ∃ db',
          respond (toggle_action model request pk db)
          = (mkResponse HTTP_204_NO_CONTENT NoBody, db')
          ∧ related db' = 0%nat
          ∧ (∀ r, r ∈ objects model db'
                  ↔ r ∈ objects model db ∧ r ≠ mkUserRecipe (user_pk u) pk)
          ∧ (length (objects model db') + related db
             = length (objects model db))%nat
          ∧ db' = with_objects model (objects model db') db)).
Proof.
  intros Hu related. split; intros Hm.
  - rewrite (toggle_action_authenticated _ _ _ _ _ Hu), Hm. unfold _add_to.
    split.
    + intros Hn. apply exists_true_length in Hn. by rewrite Hn.
    + intros Hn recipe Hget. apply exists_false_length in Hn as He.
      rewrite He, Hget.
      destruct (get_object_or_404_pk _ _ _ _ Hget) as [-> _].
      eexists. split; [reflexivity|].
      rewrite objects_with_objects. split; [done|].
      split; [|by rewrite ?objects_with_objects].
      unfold related. rewrite objects_with_objects, filter_user_recipe_app.
      rewrite length_app. fold (related db). rewrite Hn.
      unfold filter_user_recipe. rewrite filter_cons_True by done. done.
  - rewrite (toggle_action_authenticated _ _ _ _ _ Hu), Hm.
    unfold _delete_from. split.
    + intros Hn. apply exists_false_length in Hn. by rewrite Hn.
    + intros Hn. apply exists_true_length in Hn as He. rewrite He.
      eexists. split; [reflexivity|].
      unfold related. rewrite !objects_with_objects.
      rewrite filter_user_recipe_delete.
      split; [done|]. split; [apply elem_of_delete_user_recipe|].
      split; [apply length_delete_user_recipe|].
      by rewrite ?objects_with_objects.
Qed.

Lemma toggle_relation_witness :
  (∃ db',
     respond (toggle_action Favourite (mkRequest POST (Some bob) []) 11
                sample_db)
     = (mkResponse HTTP_201_CREATED (RecipeShortData omelette), db')
     ∧ objects Favourite db'
       = objects Favourite sample_db ++ [mkUserRecipe (user_pk bob) 11]
     ∧ length (filter_user_recipe (user_pk bob) 11 (objects Favourite db'))
       = 1%nat
     ∧ db' = with_objects Favourite (objects Favourite db') sample_db)
  ∧ (∃ db',
       respond (toggle_action ShoppingCart (mkRequest DELETE (Some bob) [])
                  10 sample_db)
       = (mkResponse HTTP_204_NO_CONTENT NoBody, db')
       ∧ length (filter_user_recipe (user_pk bob) 10
                   (objects ShoppingCart db')) = 0%nat
       ∧ (∀ r, r ∈ objects ShoppingCart db'
               ↔ r ∈ objects ShoppingCart sample_db
                 ∧ r ≠ mkUserRecipe (user_pk bob) 10)
       ∧ (length (objects ShoppingCart db')
          + length (filter_user_recipe (user_pk bob) 10
                      (objects ShoppingCart sample_db))
          = length (objects ShoppingCart sample_db))%nat
       ∧ db' = with_objects ShoppingCart (objects ShoppingCart db')
                 sample_db).
Proof.
  split.
  - destruct (toggle_relation Favourite (mkRequest POST (Some bob) [])
                bob 11 sample_db eq_refl) as [Hpost _].
    destruct (Hpost eq_refl) as [_ Habsent].
    exact (Habsent eq_refl omelette eq_refl).
  - destruct (toggle_relation ShoppingCart (mkRequest DELETE (Some bob) [])
                bob 10 sample_db eq_refl) as [_ Hdelete].
    destruct (Hdelete eq_refl) as [_ Hpresent].
    apply Hpresent. vm_compute. lia.
Defined.

(** ** Permissions of the recipe view set *)

Section RecipePermissions.

Implicit Types (request : Request) (db : Store) (d : RecipeData).

Lemma safe_method_has_permission request :
  method request ∈ SAFE_METHODS →
  check_permissions RecipeViewSet_permission_classes request = Ok ().
Proof.
  intros Hsafe. simpl. by rewrite (bool_decide_eq_true_2 _ Hsafe).
Qed.

Lemma safe_method_has_object_permission request obj :
  method request ∈ SAFE_METHODS →
  check_object_permissions RecipeViewSet_permission_classes request obj
  = Ok ().
Proof.
  intros Hsafe. simpl. rewrite (bool_decide_eq_true_2 _ Hsafe). simpl.
  by rewrite orb_true_r.
Qed.

Lemma anonymous_write_denied request :
  method request ∉ SAFE_METHODS → user request = None →
  check_permissions RecipeViewSet_permission_classes request
  = Raise NotAuthenticated.
Proof.
  intros Hwrite Hanon. simpl.
  rewrite (bool_decide_eq_false_2 _ Hwrite). unfold permission_denied.
  by rewrite Hanon.
Qed.

Lemma stranger_write_denied request u obj :
  method request ∉ SAFE_METHODS → user request = Some u →
  user_is_staff u = false → recipe_author obj ≠ user_pk u →
  check_permissions RecipeViewSet_permission_classes request = Ok ()
  ∧ check_object_permissions RecipeViewSet_permission_classes request obj
    = Raise PermissionDenied.
Proof.
  intros Hwrite Hu Hstaff Hauthor. simpl.
  rewrite (bool_decide_eq_false_2 _ Hwrite). unfold permission_denied.
  rewrite Hu. simpl. rewrite Hstaff.
  by rewrite (bool_decide_eq_false_2 _ Hauthor).
Qed.

(** The object-level check of the view set rests on the rule of [OR]:
    under the rule of the releases before 3.14 the second operand, which does
    not define an object-level check, lets every request through. *)
Lemma object_check_before_3_14 request obj :
  has_object_permission_before_3_14
    (OR IsAuthorOrReadOnly IsAdminOrReadOnly) request obj = true.
Proof. simpl. apply orb_true_r. Qed.

End RecipePermissions.

(** C3. On the recipe routes: a request with a safe method passes the
    permission check and the object-level check whoever sends it, so it is
    never answered with 401 or 403 and changes nothing; a request with any
    other method sent without an authenticated user is answered with 401
    (authentication required) and changes nothing; PUT, PATCH or DELETE on an
    existing recipe sent by an authenticated user who is neither staff nor the
    recipe's author is answered with 403 (forbidden) and changes nothing. *)
Theorem recipe_write_requires_author (fw : Framework) (request : Request) (pk : option Z)
  (d : RecipeData) (db : Store) :
  (method request ∈ SAFE_METHODS →
     check_permissions RecipeViewSet_permission_classes request = Ok ()
     ∧ (∀ obj, check_object_permissions RecipeViewSet_permission_classes
                 request obj = Ok ())
     ∧ (status_code (fst (respond (RecipeViewSet fw request pk d db)))
        ∉ [HTTP_401_UNAUTHORIZED; HTTP_403_FORBIDDEN])
     ∧ snd (respond (RecipeViewSet fw request pk d db)) = db)
  ∧ (method request ∉ SAFE_METHODS → user request = None →
     respond (RecipeViewSet fw request pk d db)
     = (mkResponse HTTP_401_UNAUTHORIZED
          (Errors "Authentication credentials were not provided."), db))
  ∧ (∀ u key recipe,
       method request ∈ [PUT; PATCH; DELETE] → pk = Some key →
       user request = Some u → user_is_staff u = false →
       get_object_or_404 recipe_pk (recipes db) key = Ok recipe →
       recipe_author recipe ≠ user_pk u →
       respond (RecipeViewSet fw request pk d db)
       = (mkResponse HTTP_403_FORBIDDEN
            (Errors "You do not have permission to perform this action."),
          db)).
Proof.
  split; [|split].
  - intros Hsafe.
    split; [by apply safe_method_has_permission|].
    split; [intros obj; by apply safe_method_has_object_permission|].
    unfold RecipeViewSet. rewrite safe_method_has_permission by done.
    assert (∀ key, RecipeViewSet_retrieve request key db
                   = match get_object_or_404 recipe_pk (recipes db) key with
                     | Ok obj =>
                         (Ok (mkResponse HTTP_200_OK (RecipeReadData obj)), db)
                     | Raise e => (Raise e, db)
                     end) as Hretrieve.
    { intros key. unfold RecipeViewSet_retrieve, get_object.
      destruct (get_object_or_404 _ _ key) as [obj|e]; [|done].
      unfold mbind, result_bind.
      by rewrite safe_method_has_object_permission. }
    assert (∀ key, (status_code
                     (fst (respond (RecipeViewSet_retrieve request key db)))
                   ∉ [HTTP_401_UNAUTHORIZED; HTTP_403_FORBIDDEN])
                   ∧ snd (respond (RecipeViewSet_retrieve request key db))
                     = db)
      as Hr.
    { intros key. rewrite Hretrieve. unfold get_object_or_404.
      destruct (filter _ (recipes db)) as [|? [|? ?]]; simpl;
        (split; [|done]); vm_compute; set_unfold; intros [?|[?|[]]]; done. }
    assert (HTTP_200_OK ∉ [HTTP_401_UNAUTHORIZED; HTTP_403_FORBIDDEN])
      as H200.
    { vm_compute; set_unfold; intros [?|[?|[]]]; done. }
    set_unfold in Hsafe.
    destruct Hsafe as [Hm|[Hm|[Hm|[]]]]; rewrite Hm; destruct pk as [key|];
      simpl; try apply Hr; by split.
  - intros Hwrite Hanon. unfold RecipeViewSet.
    by rewrite anonymous_write_denied.
  - intros u key recipe Hm -> Hu Hstaff Hget Hauthor.
    assert (method request ∉ SAFE_METHODS) as Hwrite.
    { set_unfold. set_unfold in Hm. intros [?|[?|[?|[]]]];
        destruct Hm as [?|[?|[?|[]]]]; congruence. }
    destruct (stranger_write_denied request u recipe Hwrite Hu Hstaff Hauthor)
      as [Hperm Hobj].
    unfold RecipeViewSet. rewrite Hperm.
    assert (get_object request key db = Raise PermissionDenied) as Hdenied.
    { unfold get_object. rewrite Hget. unfold mbind, result_bind.
      by rewrite Hobj. }
    unfold RecipeViewSet_update, RecipeViewSet_destroy. rewrite Hdenied.
    set_unfold in Hm. by destruct Hm as [->|[->|[->|[]]]].
Qed.

Lemma recipe_write_requires_author_witness :
  snd (respond (RecipeViewSet sample_framework (mkRequest GET None []) (Some 10) no_data
                  sample_db)) = sample_db
  ∧ respond (RecipeViewSet sample_framework (mkRequest POST None []) None no_data sample_db)
    = (mkResponse HTTP_401_UNAUTHORIZED
         (Errors "Authentication credentials were not provided."), sample_db)
  ∧ respond (RecipeViewSet sample_framework (mkRequest DELETE (Some bob) []) (Some 10) no_data
               sample_db)
    = (mkResponse HTTP_403_FORBIDDEN
         (Errors "You do not have permission to perform this action."),
       sample_db).
Proof.
  split; [|split].
  - destruct (recipe_write_requires_author sample_framework (mkRequest GET None []) (Some 10)
                no_data sample_db) as [Hsafe _].
    apply Hsafe. by apply (bool_decide_unpack _).
  - destruct (recipe_write_requires_author sample_framework (mkRequest POST None []) None
                no_data sample_db) as (_ & Hanon & _).
    apply Hanon; [by apply (bool_decide_unpack _)|done].
  - destruct (recipe_write_requires_author sample_framework (mkRequest DELETE (Some bob) [])
                (Some 10) no_data sample_db) as (_ & _ & Hstranger).
    apply (Hstranger bob 10 pancakes); try done.
    by apply (bool_decide_unpack _).
Defined.

(** ** Lookups by primary key *)

Section Lookups.

Context {A : Type} (pk_of : A → Z).
Implicit Types (table : list A) (pk : Z) (row : A).

Lemma filter_pk_absent table pk :
  pk ∉ pk_of <$> table → filter (λ row, pk_of row = pk) table = [].
Proof.
  intros Hnot. induction table as [|r table IH]; [done|].
  rewrite fmap_cons, not_elem_of_cons in Hnot. destruct Hnot as [Hne Hnot].
  rewrite filter_cons_False by congruence. by apply IH.
Qed.

Lemma filter_pk_unique table pk :
  NoDup (pk_of <$> table) →
  (length (filter (λ row, pk_of row = pk) table) ≤ 1)%nat.
Proof.
  induction table as [|r table IH]; [simpl; lia|].
  rewrite fmap_cons, NoDup_cons. intros [Hnot Hnd].
  rewrite filter_cons. case_decide as Hr.
  - subst pk. rewrite filter_pk_absent by done. simpl. lia.
  - by apply IH.
Qed.

Lemma filter_pk_present table pk :
  pk ∈ pk_of <$> table → filter (λ row, pk_of row = pk) table ≠ [].
Proof.
  intros Hin Hnil. apply list_elem_of_fmap in Hin as (row & -> & Hrow).
  assert (row ∈ filter (λ r, pk_of r = pk_of row) table) as Hf
    by (by apply list_elem_of_filter).
  rewrite Hnil in Hf. by apply not_elem_of_nil in Hf.
Qed.

Lemma get_object_or_404_found table pk :
  NoDup (pk_of <$> table) → pk ∈ pk_of <$> table →
  ∃ row, get_object_or_404 pk_of table pk = Ok row
         ∧ pk_of row = pk ∧ row ∈ table.
Proof.
  intros Hnd Hin. unfold get_object_or_404.
  pose proof (filter_pk_unique table pk Hnd) as Hlen.
  pose proof (filter_pk_present table pk Hin) as Hne.
  destruct (filter _ table) as [|row [|row' rows]] eqn:Hf;
    [done| |simpl in Hlen; lia].
  exists row. split; [done|].
  assert (row ∈ filter (λ r, pk_of r = pk) table) as Hrow
    by (rewrite Hf; apply list_elem_of_here).
  by apply list_elem_of_filter in Hrow.
Qed.

Lemma get_object_or_404_missing table pk :
  pk ∉ pk_of <$> table → get_object_or_404 pk_of table pk = Raise Http404.
Proof.
  intros Hnot. unfold get_object_or_404. by rewrite filter_pk_absent.
Qed.

Lemma get_object_or_404_raise table pk e :
  NoDup (pk_of <$> table) → get_object_or_404 pk_of table pk = Raise e →
  e = Http404 ∧ pk ∉ pk_of <$> table.
Proof.
  intros Hnd He.
  destruct (decide (pk ∈ pk_of <$> table)) as [Hin|Hnot].
  - destruct (get_object_or_404_found table pk Hnd Hin) as (row & Hrow & _).
    congruence.
  - rewrite get_object_or_404_missing in He by done. by injection He as <-.
Qed.

Lemma objects_get_pk table pk row :
  objects_get pk_of table pk = Ok row → pk_of row = pk ∧ row ∈ table.
Proof.
  unfold objects_get.
  destruct (filter _ table) as [|r [|r' l]] eqn:Hf; intros [=]; subst.
  assert (row ∈ filter (λ row, pk_of row = pk) table) as Hin
    by (rewrite Hf; apply list_elem_of_here).
  by apply list_elem_of_filter in Hin.
Qed.

Lemma objects_get_raise table pk e :
  NoDup (pk_of <$> table) → objects_get pk_of table pk = Raise e →
  e = DoesNotExist.
Proof.
  intros Hnd. unfold objects_get.
  pose proof (filter_pk_unique table pk Hnd) as Hlen.
  destruct (filter _ table) as [|row [|row' rows]];
    [by intros [= <-]|done|simpl in Hlen; lia].
Qed.

Lemma objects_get_get_object_or_404 table pk row :
  get_object_or_404 pk_of table pk = Ok row →
  objects_get pk_of table pk = Ok row.
Proof.
  unfold get_object_or_404, objects_get.
  by destruct (filter _ table) as [|r [|r' l]].
Qed.

End Lookups.

(** ** The field checks of the recipe serializer *)

Section FieldChecks.

Implicit Types (db : Store) (items : list IngredientItem).

Lemma instance_in_pk {A} (pk_of : A → Z) obj objs :
  instance_in pk_of obj objs = true ↔ pk_of obj ∈ pk_of <$> objs.
Proof. unfold instance_in. apply bool_decide_eq_true. Qed.

(** A loop that ends normally has seen pairwise different ingredients, all
    in the table and none in the accumulator, with positive amounts. *)
Lemma validate_ingredients_loop_Ok db items acc :
  validate_ingredients_loop db items acc = Ok () →
  NoDup (item_id <$> items)
  ∧ ∀ item, item ∈ items →
      (item_id item ∉ ingredient_pk <$> acc)
      ∧ 0 < item_amount item
      ∧ is_Ok (get_object_or_404 ingredient_pk (ingredients db)
                 (item_id item)) = true.
Proof.
  revert acc. induction items as [|item items IH]; intros acc Hloop.
  { split; [constructor|]. intros item Hin. by apply not_elem_of_nil in Hin. }
  simpl in Hloop.
  destruct (get_object_or_404 _ _ (item_id item)) as [ingredient|e] eqn:Hget;
    [|done].
  apply get_object_or_404_pk in Hget as Hpk. destruct Hpk as [Hpk _].
  simpl in Hloop.
  destruct (instance_in _ ingredient acc) eqn:Hin; [done|].
  case_bool_decide as Hamount; [done|].
  apply IH in Hloop as [Hnd Hall].
  assert (item_id item ∉ ingredient_pk <$> acc) as Hfresh.
  { rewrite <- Hpk. intros Hmem. apply instance_in_pk in Hmem. congruence. }
  split.
  - rewrite fmap_cons. apply NoDup_cons. split; [|done].
    intros Hmem. apply list_elem_of_fmap in Hmem as (item' & Heq & Hitem').
    destruct (Hall item' Hitem') as [Hnot _]. apply Hnot.
    rewrite fmap_app, elem_of_app. right. simpl. rewrite <- Heq, Hpk.
    apply list_elem_of_here.
  - intros item' Hitem'. apply elem_of_cons in Hitem' as [->|Hitem'].
    + rewrite Hget. split; [done|]. split; [lia|done].
    + destruct (Hall item' Hitem') as (Hnot & Hpos & Hok).
      split; [|done]. intros Hmem. apply Hnot.
      rewrite fmap_app, elem_of_app. by left.
Qed.

(** A loop that raises does so with one of its two messages, or passes on
    what the lookup of one of the items raised. *)
Lemma validate_ingredients_loop_Raise db items acc e :
  validate_ingredients_loop db items acc = Raise e →
  (∃ m, e = ValidationError (Msg m))
  ∨ (∃ item, item ∈ items
       ∧ get_object_or_404 ingredient_pk (ingredients db) (item_id item)
         = Raise e).
Proof.
  revert acc. induction items as [|item items IH]; intros acc Hloop; [done|].
  simpl in Hloop.
  destruct (get_object_or_404 _ _ (item_id item)) as [ingredient|e'] eqn:Hget.
  - simpl in Hloop. destruct (instance_in _ ingredient acc).
    { injection Hloop as <-. left. eauto. }
    case_bool_decide.
    { injection Hloop as <-. left. eauto. }
    apply IH in Hloop as [Hm|(item' & Hin & Hraise)]; [by left|].
    right. exists item'. split; [by apply elem_of_cons; right|done].
  - simpl in Hloop. injection Hloop as <-. right. exists item.
    split; [apply list_elem_of_here|done].
Qed.

Lemma validate_ingredients_Ok db items value :
  validate_ingredients db items = Ok value →
  value = items ∧ items ≠ [] ∧ NoDup (item_id <$> items)
  ∧ ∀ item, item ∈ items →
      0 < item_amount item
      ∧ is_Ok (get_object_or_404 ingredient_pk (ingredients db)
                 (item_id item)) = true.
Proof.
  destruct items as [|item items]; [done|].
  unfold validate_ingredients.
  destruct (validate_ingredients_loop db (item :: items) []) as [[]|e] eqn:Hl;
    [|done].
  intros [= <-]. apply validate_ingredients_loop_Ok in Hl as [Hnd Hall].
  split; [done|]. split; [done|]. split; [done|].
  intros item' Hin. by destruct (Hall item' Hin) as (_ & ? & ?).
Qed.

Lemma validate_ingredients_Raise db items e :
  validate_ingredients db items = Raise e →
  (∃ m, e = ValidationError (Msg m))
  ∨ (∃ item, item ∈ items
       ∧ get_object_or_404 ingredient_pk (ingredients db) (item_id item)
         = Raise e).
Proof.
  destruct items as [|item items]; [intros [= <-]; left; eauto|].
  unfold validate_ingredients.
  destruct (validate_ingredients_loop db (item :: items) []) as [[]|e'] eqn:Hl;
    [done|].
  intros [= <-]. by apply validate_ingredients_loop_Raise in Hl.
Qed.

Lemma validate_tags_loop_Ok (value acc : list Tag) :
  validate_tags_loop value acc = Ok () →
  NoDup (tag_pk <$> value)
  ∧ ∀ tag, tag ∈ value → tag_pk tag ∉ tag_pk <$> acc.
Proof.
  revert acc. induction value as [|tag value IH]; intros acc Hloop.
  { split; [constructor|]. intros tag Hin. by apply not_elem_of_nil in Hin. }
  simpl in Hloop. destruct (instance_in _ tag acc) eqn:Hin; [done|].
  apply IH in Hloop as [Hnd Hall].
  assert (tag_pk tag ∉ tag_pk <$> acc) as Hfresh.
  { intros Hmem. apply instance_in_pk in Hmem. congruence. }
  split.
  - rewrite fmap_cons. apply NoDup_cons. split; [|done].
    intros Hmem. apply list_elem_of_fmap in Hmem as (tag' & Heq & Htag').
    apply (Hall tag' Htag').
    rewrite fmap_app, elem_of_app. right. simpl. rewrite <- Heq.
    apply list_elem_of_here.
  - intros tag' Htag'. apply elem_of_cons in Htag' as [->|Htag']; [done|].
    intros Hmem. apply (Hall tag' Htag').
    rewrite fmap_app, elem_of_app. by left.
Qed.

Lemma validate_tags_loop_Raise (value acc : list Tag) e :
  validate_tags_loop value acc = Raise e → ∃ m, e = ValidationError (Msg m).
Proof.
  revert acc. induction value as [|tag value IH]; intros acc Hloop; [done|].
  simpl in Hloop. destruct (instance_in _ tag acc); [|by eapply IH].
  injection Hloop as <-. eauto.
Qed.

Lemma validate_tags_Ok (value v : list Tag) :
  validate_tags value = Ok v →
  v = value ∧ value ≠ [] ∧ NoDup (tag_pk <$> value).
Proof.
  destruct value as [|tag value]; [done|]. unfold validate_tags.
  destruct (validate_tags_loop (tag :: value) []) as [[]|e] eqn:Hl; [|done].
  intros [= <-]. apply validate_tags_loop_Ok in Hl as [Hnd _]. done.
Qed.

Lemma validate_tags_Raise (value : list Tag) e :
  validate_tags value = Raise e → ∃ m, e = ValidationError (Msg m).
Proof.
  destruct value as [|tag value]; [intros [= <-]; eauto|].
  unfold validate_tags.
  destruct (validate_tags_loop (tag :: value) []) as [[]|e'] eqn:Hl; [done|].
  intros [= <-]. by apply validate_tags_loop_Raise in Hl.
Qed.

Lemma tags_to_internal_value_Ok db pks value :
  tags_to_internal_value db pks = Ok value → tag_pk <$> value = pks.
Proof.
  revert value. induction pks as [|pk pks IH]; intros value.
  { by intros [= <-]. }
  simpl. destruct (objects_get tag_pk (tags db) pk) as [tag|e] eqn:Hget.
  - destruct (tags_to_internal_value db pks) as [more|e]; [|done].
    simpl. intros [= <-]. apply objects_get_pk in Hget as [Hpk _].
    rewrite fmap_cons, Hpk. f_equal. by apply IH.
  - by destruct e.
Qed.

Lemma tags_to_internal_value_Raise db pks e :
  NoDup (tag_pk <$> tags db) →
  tags_to_internal_value db pks = Raise e → ∃ m, e = ValidationError (Msg m).
Proof.
  intros Hnd. induction pks as [|pk pks IH]; [done|].
  simpl. destruct (objects_get tag_pk (tags db) pk) as [tag|e'] eqn:Hget.
  - destruct (tags_to_internal_value db pks) as [more|e']; [done|].
    simpl. intros [= <-]. by apply IH.
  - apply objects_get_raise in Hget as ->; [|done]. intros [= <-]. eauto.
Qed.

Lemma validate_cooking_time_Ok value v :
  validate_cooking_time value = Ok v → v = value ∧ 0 < value ≤ 600.
Proof.
  unfold validate_cooking_time. repeat case_bool_decide; try done.
  intros [= <-]. lia.
Qed.

Lemma validate_cooking_time_Raise value e :
  validate_cooking_time value = Raise e → ∃ m, e = ValidationError (Msg m).
Proof.
  unfold validate_cooking_time. repeat case_bool_decide; try done;
    intros [= <-]; eauto.
Qed.

End FieldChecks.

(** ** The serializer as a whole *)

Section Serializer.

Implicit Types (db : Store) (d : RecipeData) (v : ValidatedData).

Lemma collect_Ok {A} name (r : result (option A)) errs o errs' :
  collect name r errs = Ok (o, errs') →
  (r = Ok o ∧ errs' = errs)
  ∨ (∃ dt, r = Raise (ValidationError dt) ∧ o = None
           ∧ errs' = errs ++ [(name, detail_messages dt)]).
Proof.
  destruct r as [o'|[]]; simpl; intros [=]; subst; eauto.
Qed.

Lemma collect_Raise {A} name (r : result (option A)) errs e :
  collect name r errs = Raise e → r = Raise e ∧ ∀ dt, e ≠ ValidationError dt.
Proof.
  destruct r as [o'|[]]; simpl; intros [=]; subst; done.
Qed.

Lemma run_validators_Raise validators value e :
  run_validators validators value = Raise e → ∃ dt, e = ValidationError dt.
Proof.
  unfold run_validators. destruct (_ ≫= _); intros [=]; subst; eauto.
Qed.

Lemma CharField_Raise validators data e :
  CharField validators data = Raise e → ∃ dt, e = ValidationError dt.
Proof.
  unfold CharField. destruct (strip data); [intros [= <-]; eauto|].
  apply run_validators_Raise.
Qed.

Lemma run_field_with_Ok {A B} required partial (value : option A)
  (f : A → result B) o :
  run_field_with required partial value f = Ok o →
  (value = None ∧ partial = true ∧ o = None)
  ∨ (∃ x b, value = Some x ∧ f x = Ok b ∧ o = Some b).
Proof.
  destruct value as [x|]; simpl.
  - destruct (f x) as [b|e] eqn:Hf; simpl; intros [= <-]. right. eauto.
  - destruct partial; intros [= <-]. by left.
Qed.

Lemma run_field_with_Raise {A B} required partial (value : option A)
  (f : A → result B) e :
  run_field_with required partial value f = Raise e →
  (value = None ∧ partial = false ∧ e = ValidationError (Msg required))
  ∨ (∃ x, value = Some x ∧ f x = Raise e).
Proof.
  destruct value as [x|]; simpl.
  - destruct (f x) as [b|e'] eqn:Hf; simpl; intros [= <-]. right. eauto.
  - destruct partial; intros [= <-]. by left.
Qed.

Lemma run_field_text_Raise partial (value : option pystr) e :
  run_field partial value (CharField []) = Raise e →
  ∃ dt, e = ValidationError dt.
Proof.
  intros Hr. apply run_field_with_Raise in Hr as [(_ & _ & ->)|(x & _ & Hr)];
    [eauto|]. by eapply CharField_Raise.
Qed.

Lemma to_internal_value_Ok {fw : Framework} partial db d v :
  to_internal_value fw partial db d = Ok v →
  run_field partial (data_tags d) (tags_field db) = Ok (v_tags v)
  ∧ run_field partial (data_ingredients d) (validate_ingredients db)
    = Ok (v_ingredients v)
  ∧ run_field partial (data_cooking_time d) validate_cooking_time
    = Ok (v_cooking_time v)
  ∧ run_field partial (data_name d) (CharField []) = Ok (v_name v)
  ∧ run_file_field partial (data_image d) (image_field fw) = Ok (v_image v)
  ∧ run_field partial (data_text d) (CharField []) = Ok (v_text v)
  ∧ v_author v = None.
Proof.
  unfold to_internal_value.
  destruct (collect "tags" _ _) as [[o1 e1]|?] eqn:H1; [|done]. simpl.
  destruct (collect "ingredients" _ _) as [[o2 e2]|?] eqn:H2; [|done]. simpl.
  destruct (collect "name" _ _) as [[o3 e3]|?] eqn:H3; [|done]. simpl.
  destruct (collect "image" _ _) as [[o4 e4]|?] eqn:H4; [|done]. simpl.
  destruct (collect "text" _ _) as [[o5 e5]|?] eqn:H5; [|done]. simpl.
  destruct (collect "cooking_time" _ _) as [[o6 e6]|?] eqn:H6; [|done]. simpl.
  destruct e6 as [|? ?]; [|done]. intros [= <-]. simpl.
  apply collect_Ok in H6 as [[H6 <-]|(? & _ & _ & Habs)];
    [|by destruct e5].
  apply collect_Ok in H5 as [[H5 <-]|(? & _ & _ & Habs)];
    [|by destruct e4].
  apply collect_Ok in H4 as [[H4 <-]|(? & _ & _ & Habs)];
    [|by destruct e3].
  apply collect_Ok in H3 as [[H3 <-]|(? & _ & _ & Habs)];
    [|by destruct e2].
  apply collect_Ok in H2 as [[H2 <-]|(? & _ & _ & Habs)];
    [|by destruct e1].
  apply collect_Ok in H1 as [[H1 _]|(? & _ & _ & Habs)]; [|done].
  done.
Qed.

(** What leaves the loop of the serializer: the gathered validation
    errors, or an exception of another kind, raised by the tag field, by
    [validate_ingredients] or by the image field. *)
Lemma to_internal_value_Raise {fw : Framework} partial db d e :
  to_internal_value fw partial db d = Raise e →
  (∃ errs, e = ValidationError (Fields errs))
  ∨ ((∀ dt, e ≠ ValidationError dt)
     ∧ (run_field partial (data_tags d) (tags_field db) = Raise e
        ∨ run_field partial (data_ingredients d) (validate_ingredients db)
          = Raise e
        ∨ run_file_field partial (data_image d) (image_field fw)
          = Raise e)).
Proof.
  unfold to_internal_value.
  destruct (collect "tags" _ _) as [[o1 e1]|?] eqn:H1; simpl.
  2:{ intros [= <-]. apply collect_Raise in H1 as [? ?]. right. eauto. }
  destruct (collect "ingredients" _ _) as [[o2 e2]|?] eqn:H2; simpl.
  2:{ intros [= <-]. apply collect_Raise in H2 as [? ?]. right. eauto. }
  destruct (collect "name" _ _) as [[o3 e3]|?] eqn:H3; simpl.
  2:{ intros [= <-]. apply collect_Raise in H3 as [H3 Hno].
      apply run_field_text_Raise in H3 as [dt ->]. by destruct (Hno dt). }
  destruct (collect "image" _ _) as [[o4 e4]|?] eqn:H4; simpl.
  2:{ intros [= <-]. apply collect_Raise in H4 as [? ?]. right. eauto. }
  destruct (collect "text" _ _) as [[o5 e5]|?] eqn:H5; simpl.
  2:{ intros [= <-]. apply collect_Raise in H5 as [H5 Hno].
      apply run_field_text_Raise in H5 as [dt ->]. by destruct (Hno dt). }
  destruct (collect "cooking_time" _ _) as [[o6 e6]|?] eqn:H6; simpl.
  2:{ intros [= <-]. apply collect_Raise in H6 as [H6 Hno].
      destruct (data_cooking_time d) as [ct|]; simpl in H6.
      - destruct (validate_cooking_time ct) as [?|e'] eqn:Hct; [done|].
        simpl in H6. injection H6 as <-.
        apply validate_cooking_time_Raise in Hct as [m ->].
        by destruct (Hno (Msg m)).
      - destruct partial; [done|]. injection H6 as <-.
        by destruct (Hno (Msg "This field is required.")). }
  destruct e6; [done|]. intros [= <-]. left. eauto.
Qed.

(** A field that does not validate makes the serializer fail. *)
Lemma to_internal_value_fails {fw : Framework} partial db d :
  (∀ o, run_field partial (data_tags d) (tags_field db) ≠ Ok o)
  ∨ (∀ o, run_field partial (data_ingredients d) (validate_ingredients db)
          ≠ Ok o)
  ∨ (∀ o, run_field partial (data_cooking_time d) validate_cooking_time
          ≠ Ok o) →
  ∃ e, to_internal_value fw partial db d = Raise e.
Proof.
  intros Hbad.
  destruct (to_internal_value fw partial db d) as [v|e] eqn:Hv; [|eauto].
  apply to_internal_value_Ok in Hv as (Ht & Hi & Hc & _).
  destruct Hbad as [Hbad|[Hbad|Hbad]]; by edestruct Hbad.
Qed.

End Serializer.

(** ** Invalid bodies on the recipe routes *)

Section InvalidBodies.

Implicit Types (db : Store) (d : RecipeData) (request : Request).

Lemma run_field_Ok {A B} partial (value : option A) (f : A → result B) o :
  run_field partial value f = Ok o →
  (value = None ∧ partial = true ∧ o = None)
  ∨ (∃ x b, value = Some x ∧ f x = Ok b ∧ o = Some b).
Proof. apply run_field_with_Ok. Qed.

Lemma run_field_Raise {A B} partial (value : option A) (f : A → result B) e :
  run_field partial value f = Raise e →
  (value = None ∧ partial = false
   ∧ e = ValidationError (Msg "This field is required."))
  ∨ (∃ x, value = Some x ∧ f x = Raise e).
Proof. apply run_field_with_Raise. Qed.

Lemma tags_field_Ok db pks value :
  tags_field db pks = Ok value →
  tag_pk <$> value = pks ∧ pks ≠ [] ∧ NoDup pks.
Proof.
  unfold tags_field.
  destruct (tags_to_internal_value db pks) as [found|e] eqn:Hfound; [|done].
  simpl. intros Hv. apply validate_tags_Ok in Hv as (-> & Hne & Hnd).
  apply tags_to_internal_value_Ok in Hfound as <-.
  split; [done|]. split; [|done]. by destruct found.
Qed.

Lemma tags_field_Raise db pks e :
  NoDup (tag_pk <$> tags db) →
  tags_field db pks = Raise e → ∃ m, e = ValidationError (Msg m).
Proof.
  intros Hnd. unfold tags_field.
  destruct (tags_to_internal_value db pks) as [found|e'] eqn:Hfound; simpl.
  - apply validate_tags_Raise.
  - intros [= <-]. by eapply tags_to_internal_value_Raise.
Qed.

(** The recipe routes change nothing when the body does not validate. *)
Lemma invalid_body_changes_nothing {fw : Framework} request pk d db :
  method request ∈ [POST; PUT; PATCH] →
  (∃ e, to_internal_value fw (is_partial request) db d = Raise e) →
  snd (respond (RecipeViewSet fw request pk d db)) = db.
Proof.
  intros Hm [e He]. unfold RecipeViewSet, is_partial in *.
  destruct (check_permissions _ request); [|done].
  set_unfold in Hm. destruct Hm as [Hm|[Hm|[Hm|[]]]]; rewrite Hm in *;
    destruct pk as [key|]; simpl in *; try done.
  - unfold RecipeViewSet_create. by rewrite He.
  - unfold RecipeViewSet_update.
    destruct (get_object request key db); [|done]. by rewrite He.
  - unfold RecipeViewSet_update.
    destruct (get_object request key db); [|done]. by rewrite He.
Qed.

Lemma faulty_associations_fail {fw : Framework} partial db d :
  faulty_associations d → ∃ e, to_internal_value fw partial db d = Raise e.
Proof.
  intros Hbad. apply to_internal_value_fails.
  destruct Hbad as [Hi|[Ht|[(pks & Ht & Hdup)|(items & Hi & Hbad)]]].
  - right; left. rewrite Hi. by destruct partial.
  - left. rewrite Ht. by destruct partial.
  - left. rewrite Ht. intros o Ho.
    apply run_field_Ok in Ho as [[? _]|(x & b & [= <-] & Hf & _)]; [done|].
    apply tags_field_Ok in Hf as (_ & _ & Hnd). done.
  - right; left. rewrite Hi. intros o Ho.
    apply run_field_Ok in Ho as [[? _]|(x & b & [= <-] & Hf & _)]; [done|].
    apply validate_ingredients_Ok in Hf as (_ & _ & Hnd & Hall).
    destruct Hbad as [Hdup|(item & Hin & Hamount)]; [done|].
    destruct (Hall item Hin) as [Hpos _]. lia.
Qed.

End InvalidBodies.




(** An exception of the image field that is no validation error is the
    [ValueError] of a data URL that does not split in two or does not
    decode, when the framework's field raises validation errors only and the
    decoder [ValueError] only. *)
Lemma image_field_Raise (fw : Framework) (data : pystr) e :
  (∀ file e, ImageField_to_internal_value fw file = Raise e →
             ∃ dt, e = ValidationError dt) →
  (∀ imgstr e, b64decode fw imgstr = Raise e → e = ValueError) →
  image_field fw data = Raise e → (∀ dt, e ≠ ValidationError dt) →
  e = ValueError ∧ startswith (lit "data:image") data = true.
Proof.
  intros Himage Hdecode. unfold image_field, Base64ImageField_to_internal_value.
  destruct (startswith (lit "data:image") data).
  2:{ intros Hr Hno. apply Himage in Hr as [dt ->]. by destruct (Hno dt). }
  destruct (split (lit ";base64,") data) as [|format [|imgstr [|? ?]]];
    try (by intros [= <-]).
  destruct (b64decode fw imgstr) as [content|e'] eqn:Hb; simpl.
  - intros Hr Hno. apply Himage in Hr as [dt ->]. by destruct (Hno dt).
  - intros [= <-] _. by rewrite (Hdecode _ _ Hb).
Qed.



(** ** Replacing the associations of a recipe *)

Section Associations.

Implicit Types (db : Store) (r : Z) (through : list (Z * Z)).

Lemma filter_all {A} (P : A → Prop) `{∀ x, Decision (P x)} (l : list A) :
  (∀ x, x ∈ l → P x) → filter P l = l.
Proof.
  induction l as [|x l IH]; intros Hall; [done|].
  rewrite filter_cons_True by (apply Hall, list_elem_of_here).
  f_equal. apply IH. intros y Hy. apply Hall. by apply elem_of_cons; right.
Qed.

Lemma filter_none {A} (P : A → Prop) `{∀ x, Decision (P x)} (l : list A) :
  (∀ x, x ∈ l → ¬ P x) → filter P l = [].
Proof.
  induction l as [|x l IH]; intros Hall; [done|].
  rewrite filter_cons_False by (apply Hall, list_elem_of_here).
  apply IH. intros y Hy. apply Hall. by apply elem_of_cons; right.
Qed.

Lemma remove_dups_NoDup {A} `{EqDecision A} (l : list A) :
  NoDup l → remove_dups l = l.
Proof.
  induction 1 as [|x l Hnot Hnd IH]; [done|].
  simpl. destruct (decide_rel elem_of x l); [done|]. by rewrite IH.
Qed.

Lemma m2m_ids_clear r through : m2m_ids r (m2m_clear r through) = [].
Proof.
  unfold m2m_ids, m2m_clear. rewrite filter_none; [done|].
  intros row Hrow. apply list_elem_of_filter in Hrow as [Hne _]. done.
Qed.

Lemma m2m_set_loop_fresh objs new_objs :
  m2m_set_loop objs [] new_objs = ([], new_objs ++ objs).
Proof.
  revert new_objs. induction objs as [|t objs IH]; intros new_objs; simpl.
  - by rewrite app_nil_r.
  - rewrite IH. by rewrite <- app_assoc.
Qed.

(** [set] on a relation that was just cleared inserts every given id
    once. *)
Lemma m2m_set_clear r objs through :
  m2m_set r objs (m2m_clear r through)
  = m2m_clear r through ++ (pair r <$> remove_dups objs).
Proof.
  unfold m2m_set. rewrite m2m_ids_clear. simpl.
  rewrite m2m_set_loop_fresh. simpl.
  assert (m2m_remove r [] (m2m_clear r through) = m2m_clear r through) as ->.
  { unfold m2m_remove. apply filter_all. intros row _ [_ Hin].
    by apply not_elem_of_nil in Hin. }
  unfold m2m_add. rewrite m2m_ids_clear. f_equal. f_equal.
  apply filter_all. intros t _. apply not_elem_of_nil.
Qed.

Lemma filter_replaced_own r (ids : list Z) through :
  filter (λ row, row.1 = r) (m2m_clear r through ++ (pair r <$> ids))
  = pair r <$> ids.
Proof.
  rewrite filter_app. unfold m2m_clear.
  rewrite filter_none, filter_all; [done| |].
  - intros row Hrow. by apply list_elem_of_fmap in Hrow as (t & -> & _).
  - intros row Hrow. by apply list_elem_of_filter in Hrow as [Hne _].
Qed.

Lemma filter_replaced_others r (ids : list Z) through :
  filter (λ row, row.1 ≠ r) (m2m_clear r through ++ (pair r <$> ids))
  = filter (λ row, row.1 ≠ r) through.
Proof.
  rewrite filter_app. unfold m2m_clear.
  rewrite (filter_none _ (pair r <$> ids)).
  - rewrite app_nil_r. apply filter_all. intros row Hrow.
    by apply list_elem_of_filter in Hrow as [Hne _].
  - intros row Hrow. apply list_elem_of_fmap in Hrow as (t & -> & _).
    simpl. tauto.
Qed.

Lemma ingredient_rows_Ok db recipe items rows :
  ingredient_rows db recipe items = Ok rows →
  rows = (λ item, mkIngredientInRecipe (recipe_pk recipe) (item_id item)
                    (item_amount item)) <$> items.
Proof.
  revert rows. induction items as [|item items IH]; intros rows.
  { by intros [= <-]. }
  simpl.
  destruct (objects_get _ _ (item_id item)) as [ingredient|e] eqn:Hget;
    [|done].
  simpl. destruct (ingredient_rows db recipe items) as [more|e]; [|done].
  simpl. intros [= <-]. apply objects_get_pk in Hget as [Hpk _].
  rewrite Hpk. f_equal. by apply IH.
Qed.

Lemma save_recipe_tags instance db :
  recipe_tags (save instance db) = recipe_tags db.
Proof. unfold save. by case_bool_decide. Qed.

Lemma save_ingredient_in_recipe instance db :
  ingredient_in_recipe (save instance db) = ingredient_in_recipe db.
Proof. unfold save. by case_bool_decide. Qed.

Lemma and_with_pair (A B C D : Prop) : A ∧ B → C ∧ D → A ∧ B ∧ C ∧ D.
Proof. tauto. Qed.

(** [update] is atomic: when it raises, the database is what it was. *)
Lemma update_Raise {fw : Framework} instance v db e db' :
  update fw instance v db = (Raise e, db') → db' = db.
Proof.
  unfold update, atomic.
  destruct (update_body fw instance v db) as [[recipe|e'] db1];
    by intros [= ? <-].
Qed.

(** What the body wrote before it raised is undone. *)
Lemma update_rolls_back {fw : Framework} instance v db e db1 :
  update_body fw instance v db = (Raise e, db1) →
  update fw instance v db = (Raise e, db).
Proof. unfold update, atomic. by intros ->. Qed.

(** What a successful [update] leaves in the two association tables. *)
Lemma update_Ok {fw : Framework} instance v db recipe db' :
  update fw instance v db = (Ok recipe, db') →
  let pk := recipe_pk instance in
  ∃ tags items,
    v_tags v = Some tags ∧ v_ingredients v = Some items
    ∧ recipe_pk recipe = pk
    ∧ recipe_tags db'
      = m2m_clear pk (recipe_tags db)
        ++ (pair pk <$> remove_dups (tag_pk <$> tags))
    ∧ ingredient_in_recipe db'
      = filter (λ row, iir_recipe row ≠ pk) (ingredient_in_recipe db)
        ++ ((λ item, mkIngredientInRecipe pk (item_id item)
                       (item_amount item)) <$> items).
Proof.
  intros Hupdate pk. unfold update, update_body, atomic in Hupdate.
  destruct (v_tags v) as [tags|]; [|done].
  destruct (v_ingredients v) as [items|]; [|done]. simpl in Hupdate.
  exists tags, items. split; [done|]. split; [done|].
  unfold create_ingredients_amounts, atomic in Hupdate.
  match type of Hupdate with
  | context [ingredient_rows ?db1 ?inst items] =>
      destruct (ingredient_rows db1 inst items) as [rows|e] eqn:Hrows;
        [|done]
  end.
  apply ingredient_rows_Ok in Hrows. simpl in Hrows, Hupdate.
  injection Hupdate as <- <-. split; [done|].
  rewrite save_recipe_tags, save_ingredient_in_recipe. simpl.
  rewrite !save_recipe_tags, !save_ingredient_in_recipe.
  split; [by rewrite m2m_set_clear|]. by rewrite Hrows.
Qed.

Lemma handle_exception_not_200 e :
  status_code (handle_exception e) ≠ HTTP_200_OK.
Proof. destruct e as [[]| | | | | | | | | | |]; simpl; try done;
  by destruct (get_authenticate_header _). Qed.

End Associations.

(** C1. When a PUT or PATCH on a recipe is answered with 200, the body
    carried a tag list and an ingredient list, and afterwards the rows of the
    recipe in the tag through table are exactly one row per supplied tag id,
    its ingredient rows are exactly one row per supplied (ingredient, amount)
    entry, and the rows of every other recipe are what they were.  The
    update runs inside [transaction.atomic]: when the answer is not 200 the
    database is unchanged, and [update] itself, on whatever instance and
    validated data, leaves the database as it found it when it raises:
    what its body wrote before the exception is rolled back. *)
Theorem update_replaces_associations (fw : Framework) (request : Request)
  (pk : Z) (d : RecipeData) (db : Store) (response : Response)
  (db' : Store) :
  method request ∈ [PUT; PATCH] →
  respond (RecipeViewSet fw request (Some pk) d db) = (response, db') →
  (status_code response = HTTP_200_OK →
     ∃ pks items,
       data_tags d = Some pks ∧ data_ingredients d = Some items
       ∧ filter (λ row, row.1 = pk) (recipe_tags db') = pair pk <$> pks
       ∧ filter (λ row, iir_recipe row = pk) (ingredient_in_recipe db')
         = (λ item, mkIngredientInRecipe pk (item_id item)
                      (item_amount item)) <$> items
       ∧ filter (λ row, row.1 ≠ pk) (recipe_tags db')
         = filter (λ row, row.1 ≠ pk) (recipe_tags db)
       ∧ filter (λ row, iir_recipe row ≠ pk) (ingredient_in_recipe db')
         = filter (λ row, iir_recipe row ≠ pk) (ingredient_in_recipe db))
  ∧ (status_code response ≠ HTTP_200_OK → db' = db)
  ∧ (∀ instance v e db1,
       update fw instance v db = (Raise e, db1) → db1 = db)
  ∧ (∀ instance v e db1,
       update_body fw instance v db = (Raise e, db1) →
       update fw instance v db = (Raise e, db)).
Proof.
  intros Hm Hresp.
  apply and_with_pair;
    [|split; intros instance v e db1;
        [apply update_Raise|apply update_rolls_back]].
  assert (∀ e, (handle_exception e, db) = (response, db') →
            (status_code response = HTTP_200_OK →
               ∃ pks items,
                 data_tags d = Some pks ∧ data_ingredients d = Some items
                 ∧ filter (λ row, row.1 = pk) (recipe_tags db')
                   = pair pk <$> pks
                 ∧ filter (λ row, iir_recipe row = pk)
                     (ingredient_in_recipe db')
                   = (λ item, mkIngredientInRecipe pk (item_id item)
                                (item_amount item)) <$> items
                 ∧ filter (λ row, row.1 ≠ pk) (recipe_tags db')
                   = filter (λ row, row.1 ≠ pk) (recipe_tags db)
                 ∧ filter (λ row, iir_recipe row ≠ pk)
                     (ingredient_in_recipe db')
                   = filter (λ row, iir_recipe row ≠ pk)
                       (ingredient_in_recipe db))
            ∧ (status_code response ≠ HTTP_200_OK → db' = db)) as Hraise.
  { intros e [= <- <-]. split; [|done].
    intros H200. by apply handle_exception_not_200 in H200. }
  unfold RecipeViewSet in Hresp.
  destruct (check_permissions _ request) as [[]|e]; [|by apply (Hraise e)].
  assert (∃ partial,
            respond (RecipeViewSet_update fw partial request pk d db)
            = (response, db')) as [partial Hupdate].
  { set_unfold in Hm. destruct Hm as [Hm|[Hm|[]]]; rewrite Hm in Hresp; eauto. }
  clear Hresp. unfold RecipeViewSet_update, get_object in Hupdate.
  destruct (get_object_or_404 recipe_pk (recipes db) pk) as [instance|e]
    eqn:Hget; [|by apply (Hraise e)].
  apply get_object_or_404_pk in Hget as [Hpk _].
  unfold mbind, result_bind in Hupdate.
  destruct (check_object_permissions _ request instance) as [[]|e];
    [|by apply (Hraise e)].
  destruct (to_internal_value fw partial db d) as [v|e] eqn:Hv;
    [|by apply (Hraise e)].
  destruct (update fw instance v db) as [[recipe|e] db1] eqn:Hu.
  2:{ apply update_Raise in Hu as ->. by apply (Hraise e). }
  simpl in Hupdate. injection Hupdate as <- <-. split; [|done]. intros _.
  apply update_Ok in Hu as (tags & items & Htags & Hitems & _ & Hrt & Hiir).
  rewrite Hpk in Hrt, Hiir.
  apply to_internal_value_Ok in Hv as (Ht & Hi & _).
  rewrite Htags in Ht. rewrite Hitems in Hi.
  apply run_field_Ok in Ht as [(_ & _ & ?)|(pks & b & Hdt & Hf & [= <-])];
    [done|].
  apply run_field_Ok in Hi as [(_ & _ & ?)|(its & b & Hdi & Hf' & [= <-])];
    [done|].
  apply tags_field_Ok in Hf as (Hpks & _ & Hnd).
  apply validate_ingredients_Ok in Hf' as (-> & _).
  exists pks, its. split; [done|]. split; [done|].
  rewrite Hpks, (remove_dups_NoDup pks Hnd) in Hrt. rewrite Hrt, Hiir.
  split; [apply filter_replaced_own|].
  split; [|split; [apply filter_replaced_others|]].
  - rewrite filter_app, filter_none, filter_all; [done| |].
    + intros row Hrow. by apply list_elem_of_fmap in Hrow as (t & -> & _).
    + intros row Hrow. by apply list_elem_of_filter in Hrow as [Hne _].
  - rewrite filter_app.
    rewrite (filter_none _ (_ <$> its)).
    + rewrite app_nil_r. apply filter_all. intros row Hrow.
      by apply list_elem_of_filter in Hrow as [Hne _].
    + intros row Hrow. apply list_elem_of_fmap in Hrow as (t & -> & _).
      simpl. tauto.
Qed.

Lemma update_replaces_associations_witness :
  (∃ response db',
     respond (RecipeViewSet sample_framework (mkRequest PUT (Some alice) [])
                (Some 10) crepes_data sample_db) = (response, db')
     ∧ status_code response = HTTP_200_OK
     ∧ filter (λ row, row.1 = 10) (recipe_tags db') = [(10, 1); (10, 2)]
     ∧ filter (λ row, iir_recipe row = 10) (ingredient_in_recipe db')
       = [mkIngredientInRecipe 10 1 4; mkIngredientInRecipe 10 3 150]
     ∧ filter (λ row, row.1 ≠ 10) (recipe_tags db')
       = filter (λ row, row.1 ≠ 10) (recipe_tags sample_db)
     ∧ filter (λ row, iir_recipe row ≠ 10) (ingredient_in_recipe db')
       = filter (λ row, iir_recipe row ≠ 10)
           (ingredient_in_recipe sample_db))
  ∧ (∃ db1,
       update_body sample_framework pancakes stale_validated_data
         sample_db = (Raise DoesNotExist, db1)
       ∧ recipe_tags db1 = [(11, 1); (11, 2); (10, 2)]
       ∧ ingredient_in_recipe db1
         = [mkIngredientInRecipe 11 1 3; mkIngredientInRecipe 11 3 50])
  ∧ update sample_framework pancakes stale_validated_data sample_db
    = (Raise DoesNotExist, sample_db).
Proof.
  destruct (respond (RecipeViewSet sample_framework
                       (mkRequest PUT (Some alice) []) (Some 10)
                       crepes_data sample_db)) as [response db'] eqn:Hresp.
  assert (status_code response = HTTP_200_OK) as H200.
  { vm_compute in Hresp. by injection Hresp as <- _. }
  destruct (update_replaces_associations sample_framework
              (mkRequest PUT (Some alice) []) 10 crepes_data sample_db
              response db') as (Hok & _ & _ & Hback);
    [by apply (bool_decide_unpack _)|done|].
  split; [|split].
  - exists response, db'. split; [done|]. split; [done|].
    destruct (Hok H200) as (pks & items & [= <-] & [= <-] & Hrest).
    exact Hrest.
  - eexists. split; [by vm_compute|]. done.
  - eapply Hback. by vm_compute.
Defined.

(** C8.  Removing from the favourites or from the cart does not resolve
    the recipe id: for recipe id 999, which no recipe has, DELETE is answered
    with 400 and the message of [_delete_from], while POST, which goes
    through [get_object_or_404], is answered with 404. *)
Theorem delete_of_missing_recipe_answers_400 :
  get_object_or_404 recipe_pk (recipes sample_db) 999 = Raise Http404
  ∧ respond (favorite (mkRequest DELETE (Some bob) []) 999 sample_db)
    = (mkResponse HTTP_400_BAD_REQUEST (Errors "Рецепт не найден!"),
       sample_db)
  ∧ respond (shopping_cart (mkRequest DELETE (Some bob) []) 999 sample_db)
    = (mkResponse HTTP_400_BAD_REQUEST (Errors "Рецепт не найден!"),
       sample_db)
  ∧ respond (favorite (mkRequest POST (Some bob) []) 999 sample_db)
    = (mkResponse HTTP_404_NOT_FOUND (Errors "Not found."), sample_db)
  ∧ respond (shopping_cart (mkRequest POST (Some bob) []) 999 sample_db)
    = (mkResponse HTTP_404_NOT_FOUND (Errors "Not found."), sample_db).
Proof. repeat split; reflexivity. Qed.

(** The same for every store whose relation rows point at existing
    recipes. *)
Lemma missing_recipe_add_404_delete_400 (model : RelModel) (u : User)
  (pk : Z) (db : Store) :
  (∀ row, row ∈ objects model db → ur_recipe row ∈ recipe_pk <$> recipes db) →
  pk ∉ recipe_pk <$> recipes db →
  _add_to model u pk db = (Raise Http404, db)
  ∧ _delete_from model u pk db
    = (Ok (mkResponse HTTP_400_BAD_REQUEST (Errors "Рецепт не найден!")), db).
Proof.
  intros Hfk Hmissing.
  assert (filter_user_recipe (user_pk u) pk (objects model db) = []) as Hnone.
  { apply filter_none. intros row Hrow [_ Hpk]. apply Hmissing.
    rewrite <- Hpk. by apply Hfk. }
  unfold _add_to, _delete_from. rewrite Hnone. simpl.
  by rewrite get_object_or_404_missing.
Qed.

(** ** Subscriptions *)

Section Subscriptions.

Implicit Types (db : Store) (request : Request).

Lemma filter_subscribe_deleted uid a rows :
  filter_subscribe uid a
    (filter (λ s, ¬ (sub_user s = uid ∧ sub_author s = a)) rows) = [].
Proof.
  apply filter_none. intros s Hs. by apply list_elem_of_filter in Hs as [? _].
Qed.

Lemma length_filter_subscribe_deleted uid a rows :
  (length (filter (λ s, ¬ (sub_user s = uid ∧ sub_author s = a)) rows)
   + length (filter_subscribe uid a rows) = length rows)%nat.
Proof.
  unfold filter_subscribe. induction rows as [|s rows IH]; [done|].
  rewrite !filter_cons.
  destruct (decide (sub_user s = uid ∧ sub_author s = a)) as [Hs|Hs].
  - rewrite decide_False by tauto. simpl. lia.
  - rewrite decide_True by done. simpl. lia.
Qed.

End Subscriptions.

(** C7. For a request of an authenticated user [u] on [subscribe] with the
    id [pk] of an existing user [author], and [n] the number of subscription
    rows from [u] to [author]: POST with [author] being [u] raises a
    validation error (400) whatever the store holds; POST with [n > 0]
    raises a validation error; DELETE with [n = 0] raises a validation error;
    none of these changes the store.  POST to another user with [n = 0] is
    answered with 201 and appends exactly one row; DELETE with [n = 1] is
    answered with 204 and removes that row and no other. *)
Theorem subscribe_toggle (request : Request) (u author : User) (pk : Z)
  (db : Store) :
  user request = Some u →
  get_object_or_404 user_pk (users db) pk = Ok author →
  let related db :=
    length (filter_subscribe (user_pk u) (user_pk author) (subscribes db)) in
  (method request = POST →
     (user_pk author = user_pk u →
        respond (subscribe request pk db)
        = (mkResponse HTTP_400_BAD_REQUEST
             (ErrorList ["Нельзя подписаться на самого себя."]), db))
     ∧ (user_pk author ≠ user_pk u → (0 < related db)%nat →
        respond (subscribe request pk db)
        = (mkResponse HTTP_400_BAD_REQUEST
             (ErrorList ["Вы уже подписаны на этого автора."]), db))
     ∧ (user_pk author ≠ user_pk u → related db = 0%nat →
        ∃ db',
          respond (subscribe request pk db)
          = (mkResponse HTTP_201_CREATED (UserData author), db')
          ∧ subscribes db'
            = subscribes db ++ [mkSubscribe (user_pk u) (user_pk author)]
          ∧ related db' = 1%nat
          ∧ db' = with_subscribes (subscribes db') db))
  ∧ (method request = DELETE →
     (related db = 0%nat →
        respond (subscribe request pk db)
        = (mkResponse HTTP_400_BAD_REQUEST
             (ErrorList ["Подписка не была оформлена, либо удалена."]), db))
     ∧ (related db = 1%nat →
        ∃ db',
          respond (subscribe request pk db)
          = (mkResponse HTTP_204_NO_CONTENT (Text "Вы успешно отписались."),
             db')
          ∧ related db' = 0%nat
          ∧ (∀ s, s ∈ subscribes db'
                  ↔ s ∈ subscribes db
                    ∧ s ≠ mkSubscribe (user_pk u) (user_pk author))
          ∧ (length (subscribes db') + 1 = length (subscribes db))%nat
          ∧ db' = with_subscribes (subscribes db') db)).
Proof.
  intros Hu Hauthor related. unfold subscribe. rewrite Hu, Hauthor.
  split; intros ->; simpl.
  - split; [|split].
    + intros Hself. by rewrite bool_decide_eq_true_2.
    + intros Hother Hn. rewrite bool_decide_eq_false_2 by done.
      apply exists_true_length in Hn. by rewrite Hn.
    + intros Hother Hn. rewrite bool_decide_eq_false_2 by done.
      apply exists_false_length in Hn as He. rewrite He.
      eexists. split; [reflexivity|]. simpl. split; [done|]. split; [|done].
      unfold related. simpl. unfold filter_subscribe.
      rewrite filter_app, length_app. fold (filter_subscribe (user_pk u)
        (user_pk author) (subscribes db)). fold (related db). rewrite Hn.
      by rewrite filter_cons_True.
  - split.
    + intros Hn. apply exists_false_length in Hn. by rewrite Hn.
    + intros Hn. unfold related in Hn.
      assert (exists_ (filter_subscribe (user_pk u) (user_pk author)
                         (subscribes db)) = true) as He
        by (apply exists_true_length; lia).
      rewrite He. simpl. unfold delete_subscription.
      destruct (filter_subscribe _ _ (subscribes db)) as [|s [|s' l]] eqn:Hf;
        [done| |done].
      eexists. split; [reflexivity|]. unfold related. simpl.
      rewrite filter_subscribe_deleted. split; [done|]. split; [|split].
      * intros s0. rewrite list_elem_of_filter. destruct s0 as [x y]. simpl.
        split.
        -- intros [Hne Hin]. split; [done|]. intros [= -> ->]. tauto.
        -- intros [Hin Hne]. split; [|done]. intros [-> ->]. done.
      * pose proof (length_filter_subscribe_deleted (user_pk u)
                      (user_pk author) (subscribes db)) as Hlen.
        rewrite Hf in Hlen. simpl in Hlen. lia.
      * done.
Qed.

Lemma subscribe_toggle_witness :
  respond (subscribe (mkRequest POST (Some bob) []) 2 sample_db)
  = (mkResponse HTTP_400_BAD_REQUEST
       (ErrorList ["Нельзя подписаться на самого себя."]), sample_db)
  ∧ (∃ db',
       respond (subscribe (mkRequest POST (Some bob) []) 1 sample_db)
       = (mkResponse HTTP_201_CREATED (UserData alice), db')
       ∧ subscribes db'
         = subscribes sample_db
           ++ [mkSubscribe (user_pk bob) (user_pk alice)]
       ∧ length (filter_subscribe (user_pk bob) (user_pk alice)
                   (subscribes db')) = 1%nat
       ∧ db' = with_subscribes (subscribes db') sample_db)
  ∧ respond (subscribe (mkRequest POST (Some bob) []) 1 following_db)
    = (mkResponse HTTP_400_BAD_REQUEST
         (ErrorList ["Вы уже подписаны на этого автора."]), following_db)
  ∧ respond (subscribe (mkRequest DELETE (Some bob) []) 1 sample_db)
    = (mkResponse HTTP_400_BAD_REQUEST
         (ErrorList ["Подписка не была оформлена, либо удалена."]),
       sample_db)
  ∧ ∃ db',
      respond (subscribe (mkRequest DELETE (Some bob) []) 1 following_db)
      = (mkResponse HTTP_204_NO_CONTENT (Text "Вы успешно отписались."),
         db')
      ∧ length (filter_subscribe (user_pk bob) (user_pk alice)
                  (subscribes db')) = 0%nat
      ∧ (∀ s, s ∈ subscribes db'
              ↔ s ∈ subscribes following_db
                ∧ s ≠ mkSubscribe (user_pk bob) (user_pk alice))
      ∧ (length (subscribes db') + 1 = length (subscribes following_db))%nat
      ∧ db' = with_subscribes (subscribes db') following_db.
Proof.
  split; [|split; [|split; [|split]]].
  - destruct (subscribe_toggle (mkRequest POST (Some bob) []) bob bob 2
                sample_db eq_refl eq_refl) as [Hpost _].
    destruct (Hpost eq_refl) as [Hself _]. by apply Hself.
  - destruct (subscribe_toggle (mkRequest POST (Some bob) []) bob alice 1
                sample_db eq_refl eq_refl) as [Hpost _].
    destruct (Hpost eq_refl) as (_ & _ & Hnew). by apply Hnew.
  - destruct (subscribe_toggle (mkRequest POST (Some bob) []) bob alice 1
                following_db eq_refl eq_refl) as [Hpost _].
    destruct (Hpost eq_refl) as (_ & Htwice & _).
    apply Htwice; [done|]. vm_compute. lia.
  - destruct (subscribe_toggle (mkRequest DELETE (Some bob) []) bob alice 1
                sample_db eq_refl eq_refl) as [_ Hdelete].
    destruct (Hdelete eq_refl) as [Habsent _]. by apply Habsent.
  - destruct (subscribe_toggle (mkRequest DELETE (Some bob) []) bob alice 1
                following_db eq_refl eq_refl) as [_ Hdelete].
    destruct (Hdelete eq_refl) as [_ Hpresent]. by apply Hpresent.
Defined.

(** ** The shopping list *)

Section Grouping.

Context {K : Type} `{EqDecision K}.
Implicit Types (key k : K) (amount total : Z) (groups rows : list (K * Z)).

Lemma group_add_keys key amount groups :
  fst <$> group_add key amount groups
  = if decide (key ∈ fst <$> groups) then fst <$> groups
    else (fst <$> groups) ++ [key].
Proof.
  induction groups as [|[k total] groups IH].
  { by rewrite decide_False by apply not_elem_of_nil. }
  cbn [group_add]. destruct (decide (k = key)) as [->|Hne].
  - rewrite !fmap_cons. by rewrite decide_True by apply list_elem_of_here.
  - rewrite !fmap_cons, IH. cbn [fst].
    destruct (decide (key ∈ fst <$> groups)) as [Hin|Hnot].
    + by rewrite decide_True by (by apply elem_of_cons; right).
    + rewrite decide_False; [done|].
      rewrite not_elem_of_cons. split; [congruence|done].
Qed.

Lemma group_total_cons key k amount rows :
  group_total key ((k, amount) :: rows)
  = (if decide (k = key) then amount else 0) + group_total key rows.
Proof.
  unfold group_total. rewrite filter_cons. simpl.
  by destruct (decide (k = key)).
Qed.

Lemma group_add_total key k amount groups :
  group_total key (group_add k amount groups)
  = group_total key groups + (if decide (k = key) then amount else 0).
Proof.
  induction groups as [|[k' total] groups IH]; simpl.
  { rewrite group_total_cons. unfold group_total. simpl. lia. }
  destruct (decide (k' = k)) as [->|Hne].
  - rewrite !group_total_cons. destruct (decide (k = key)); lia.
  - rewrite !group_total_cons, IH. lia.
Qed.

Lemma foldl_group_add_keys rows groups :
  (NoDup (fst <$> groups) →
   NoDup (fst <$> foldl (λ gs row, group_add row.1 row.2 gs) groups rows))
  ∧ ∀ key,
      key ∈ fst <$> foldl (λ gs row, group_add row.1 row.2 gs) groups rows
      ↔ key ∈ fst <$> groups ∨ key ∈ fst <$> rows.
Proof.
  revert groups. induction rows as [|[k amount] rows IH]; intros groups.
  { simpl. split; [done|]. intros key. rewrite elem_of_nil. tauto. }
  simpl. destruct (IH (group_add k amount groups)) as [IHnd IHin].
  pose proof (group_add_keys k amount groups) as Hkeys.
  split.
  - intros Hnd. apply IHnd. rewrite Hkeys.
    destruct (decide (k ∈ fst <$> groups)) as [Hin|Hnot]; [done|].
    apply NoDup_app. split; [done|]. split; [|apply NoDup_singleton].
    intros x Hx Hx'. apply list_elem_of_singleton in Hx' as ->. done.
  - intros key. rewrite IHin, Hkeys, elem_of_cons.
    destruct (decide (k ∈ fst <$> groups)) as [Hin|Hnot].
    + split; [tauto|]. intros [?|[->|?]]; tauto.
    + rewrite elem_of_app, list_elem_of_singleton. tauto.
Qed.

Lemma foldl_group_add_total key rows groups :
  group_total key (foldl (λ gs row, group_add row.1 row.2 gs) groups rows)
  = group_total key groups + group_total key rows.
Proof.
  revert groups. induction rows as [|[k amount] rows IH]; intros groups.
  { unfold group_total at 3. simpl. lia. }
  simpl. rewrite IH, group_add_total, group_total_cons. lia.
Qed.

Lemma group_total_absent key groups :
  key ∉ fst <$> groups → group_total key groups = 0.
Proof.
  intros Hnot. unfold group_total. rewrite filter_none; [done|].
  intros row Hrow Hkey. apply Hnot. apply list_elem_of_fmap. eauto.
Qed.

Lemma group_total_unique key total groups :
  NoDup (fst <$> groups) → (key, total) ∈ groups →
  group_total key groups = total.
Proof.
  induction groups as [|[k t] groups IH]; intros Hnd Hin.
  { by apply elem_of_nil in Hin. }
  rewrite fmap_cons in Hnd. apply NoDup_cons in Hnd as [Hnot Hnd].
  rewrite group_total_cons. apply elem_of_cons in Hin as [[= <- <-]|Hin].
  - rewrite decide_True by done. rewrite group_total_absent by done. lia.
  - rewrite decide_False.
    + rewrite IH by done. lia.
    + intros ->. apply Hnot. apply list_elem_of_fmap. by exists (key, total).
Qed.

(** The groups of [annotate_sum]: one per key of the rows, each with the sum
    of the amounts of its rows. *)
Lemma annotate_sum_groups rows :
  NoDup (fst <$> annotate_sum rows)
  ∧ (∀ key, key ∈ fst <$> annotate_sum rows ↔ key ∈ fst <$> rows)
  ∧ ∀ key total,
      (key, total) ∈ annotate_sum rows → total = group_total key rows.
Proof.
  unfold annotate_sum.
  destruct (foldl_group_add_keys rows []) as [Hnd Hin].
  specialize (Hnd (NoDup_nil_2)).
  split; [done|]. split.
  - intros key. rewrite Hin. simpl. rewrite elem_of_nil. tauto.
  - intros key total Hmem.
    rewrite <- (group_total_unique key total _ Hnd Hmem).
    rewrite foldl_group_add_total. unfold group_total at 1. simpl. lia.
Qed.

End Grouping.

(** *** The query and the specification's reading *)

Lemma bind_to_nil {A B} (l : list A) : l ≫= (λ _, @nil B) = [].
Proof. induction l as [|x l IH]; [done|]. by rewrite bind_cons, IH. Qed.

Section Binds.

Context {A B C : Type}.

Lemma bind_filter (P : A → Prop) `{∀ x, Decision (P x)} (f : A → list B)
  (l : list A) :
  filter P l ≫= f = l ≫= (λ x, if decide (P x) then f x else []).
Proof.
  induction l as [|x l IH]; [done|].
  rewrite filter_cons, bind_cons.
  destruct (decide (P x)); [rewrite bind_cons|]; by rewrite IH.
Qed.

Lemma fmap_bind (g : B → C) (f : A → list B) (l : list A) :
  g <$> (l ≫= f) = l ≫= (λ x, g <$> f x).
Proof.
  induction l as [|x l IH]; [done|].
  by rewrite !bind_cons, fmap_app, IH.
Qed.

Lemma filter_bind (P : B → Prop) `{∀ y, Decision (P y)} (f : A → list B)
  (l : list A) :
  filter P (l ≫= f) = l ≫= (λ x, filter P (f x)).
Proof.
  induction l as [|x l IH]; [done|].
  by rewrite !bind_cons, filter_app, IH.
Qed.

Lemma bind_app_Permutation (f g : A → list B) (l : list A) :
  l ≫= (λ x, f x ++ g x) ≡ₚ (l ≫= f) ++ (l ≫= g).
Proof.
  induction l as [|x l IH]; [done|].
  rewrite !bind_cons, IH. rewrite <- !app_assoc. apply Permutation_app_head.
  rewrite !app_assoc. apply Permutation_app_tail. apply Permutation_app_comm.
Qed.

End Binds.

Lemma bind_comm {A B C} (f : A → B → list C) (l : list A) (m : list B) :
  l ≫= (λ x, m ≫= (λ y, f x y)) ≡ₚ m ≫= (λ y, l ≫= (λ x, f x y)).
Proof.
  induction l as [|x l IH].
  { rewrite (list_bind_ext _ (λ _, []) m m); [by rewrite bind_to_nil|..];
      done. }
  rewrite bind_cons, IH.
  rewrite <- (bind_app_Permutation (λ y, f x y) (λ y, l ≫= (λ x, f x y)) m).
  apply reflexive_eq. apply list_bind_ext; [|done]. intros y.
  by rewrite bind_cons.
Qed.


(** The amounts under a key in the rows of the query are, up to their
    order, the amounts that the specification speaks of. *)
Lemma cart_rows_carted_amounts (u : User) (db : Store) (name unit : pystr) :
  snd <$> filter (λ row, row.1 = (name, unit)) (cart_ingredient_rows u db)
  ≡ₚ carted_amounts u db name unit.
Proof.
  unfold cart_ingredient_rows, carted_amounts, user_shopping_cart.
  set (G := λ row : IngredientInRecipe,
         ingredients db
         ≫= (λ i, if decide (ingredient_pk i = iir_ingredient row
                             ∧ ingredient_name i = name
                             ∧ ingredient_measurement_unit i = unit)
                  then [iir_amount row] else [])).
  transitivity
    (ingredient_in_recipe db
     ≫= (λ row, shopping_carts db
                ≫= (λ cart, if decide (ur_user cart = user_pk u
                                       ∧ iir_recipe row = ur_recipe cart)
                            then G row else []))).
  - rewrite filter_bind, fmap_bind.
    erewrite list_bind_ext; [reflexivity| |done]. intros row.
    rewrite filter_bind, fmap_bind, bind_filter.
    apply list_bind_ext; [|done]. intros cart.
    destruct (decide (ur_recipe cart = iir_recipe row
                      ∧ ur_user cart = user_pk u)) as [[Hr Hu]|Hno].
    + rewrite decide_True by done.
      rewrite filter_bind, fmap_bind, bind_filter. unfold G.
      apply list_bind_ext; [|done]. intros i.
      destruct (decide (ingredient_pk i = iir_ingredient row)) as [Hi|Hi].
      * cbn [filter list_filter fmap list_fmap fst].
        destruct (decide ((ingredient_name i, ingredient_measurement_unit i)
                          = (name, unit))) as [[= Hn Hm]|Hkey].
        -- by rewrite decide_True.
        -- rewrite decide_False; [done|]. intros (_ & Hn & Hm).
           apply Hkey. by rewrite Hn, Hm.
      * rewrite decide_False by (by intros (? & _)). done.
    + rewrite decide_False; [done|]. intros [? ?]. by apply Hno.
  - rewrite bind_comm. rewrite bind_filter.
    erewrite (list_bind_ext _ _ (shopping_carts db)); [reflexivity| |done].
    intros cart. cbv beta.
    destruct (decide (ur_user cart = user_pk u)) as [Hu|Hu].
    + rewrite bind_filter. apply list_bind_ext; [|done]. intros row.
      destruct (decide (iir_recipe row = ur_recipe cart)) as [Hr|Hr].
      * rewrite decide_True by done. unfold G. by rewrite bind_filter.
      * rewrite decide_False by (by intros [_ ?]). done.
    + erewrite list_bind_ext; [apply bind_to_nil| |done]. intros row.
      rewrite decide_False by (by intros [? _]). done.
Qed.

Lemma foldr_add_Permutation (l m : list Z) :
  l ≡ₚ m → foldr Z.add 0 l = foldr Z.add 0 m.
Proof. induction 1; simpl; lia. Qed.

(** The groups of the user's list, whatever their order. *)
Lemma shopping_groups_carted_amounts
  (query_order : list (pystr * pystr * Z) → list (pystr * pystr * Z))
  (u : User) (db : Store) :
  (∀ groups, query_order groups ≡ₚ groups) →
  NoDup (fst <$> shopping_groups query_order u db)
  ∧ ∀ name unit total,
      (name, unit, total) ∈ shopping_groups query_order u db
      ↔ carted_amounts u db name unit ≠ []
        ∧ total = foldr Z.add 0 (carted_amounts u db name unit).
Proof.
  intros Hperm. unfold shopping_groups.
  destruct (annotate_sum_groups (cart_ingredient_rows u db))
    as (Hnd & Hkeys & Htotal).
  split; [by rewrite Hperm|].
  intros name unit total. rewrite Hperm.
  pose proof (cart_rows_carted_amounts u db name unit) as Hrows.
  assert (group_total (name, unit) (cart_ingredient_rows u db)
          = foldr Z.add 0 (carted_amounts u db name unit)) as Hsum
    by (unfold group_total; by apply foldr_add_Permutation).
  assert ((name, unit) ∈ (cart_ingredient_rows u db).*1
          ↔ carted_amounts u db name unit ≠ []) as Hsome.
  { split.
    - intros Hin Hnil. rewrite Hnil in Hrows.
      apply Permutation_nil_r, fmap_nil_inv in Hrows.
      apply list_elem_of_fmap in Hin as (row & Hkey & Hin).
      assert (row ∈ filter (λ row, row.1 = (name, unit))
                      (cart_ingredient_rows u db)) as Hf
        by by apply list_elem_of_filter.
      rewrite Hrows in Hf. by apply elem_of_nil in Hf.
    - intros Hne.
      destruct (filter (λ row, row.1 = (name, unit))
                  (cart_ingredient_rows u db)) as [|row l] eqn:Hf.
      { by apply Permutation_nil_l in Hrows. }
      assert (row ∈ filter (λ row, row.1 = (name, unit))
                      (cart_ingredient_rows u db)) as Hin
        by (rewrite Hf; apply list_elem_of_here).
      apply list_elem_of_filter in Hin as [<- Hin].
      by apply list_elem_of_fmap_2. }
  split.
  - intros Hin. split.
    + apply Hsome, Hkeys. by apply (list_elem_of_fmap_2 fst) in Hin.
    + rewrite <- Hsum. by apply Htotal.
  - intros [Hne ->]. apply Hsome, Hkeys in Hne.
    apply list_elem_of_fmap in Hne as ([key total] & Hkey & Hin).
    simpl in Hkey. subst key.
    rewrite <- Hsum. by rewrite <- (Htotal _ _ Hin).
Qed.



(** ** [recipes_limit] *)

Section RecipesLimit.

Variable unicode_decimal : N → option Z.

Lemma elem_of_lstrip c s : c ∈ s → isspace c = false → c ∈ lstrip s.
Proof.
  intros Hin Hc. induction s as [|x s IH]; [done|].
  simpl. destruct (isspace x) eqn:Hx; [|done].
  apply elem_of_cons in Hin as [->|Hin]; [congruence|by apply IH].
Qed.

Lemma elem_of_strip c s : c ∈ s → isspace c = false → c ∈ strip s.
Proof.
  intros Hin Hc. unfold strip. apply elem_of_reverse.
  apply elem_of_lstrip; [|done]. apply elem_of_reverse.
  by apply elem_of_lstrip.
Qed.

Lemma parse_digits_rejects c s acc after_digit :
  c ∈ s → c ≠ 95%N → digit_value unicode_decimal c = None →
  parse_digits unicode_decimal s acc after_digit = None.
Proof.
  intros Hin Hc Hd. revert acc after_digit.
  induction s as [|x s IH]; intros acc after_digit.
  { by apply elem_of_nil in Hin. }
  simpl. apply elem_of_cons in Hin as [<-|Hin].
  - rewrite (proj2 (N.eqb_neq c 95) Hc). by rewrite Hd.
  - destruct (x =? 95)%N.
    + destruct after_digit; [by apply IH|done].
    + destruct (digit_value unicode_decimal x); [by apply IH|done].
Qed.

(** A character that is no white space, sign, underscore or digit makes
    [int] raise. *)
Lemma int_rejects c s :
  c ∈ s → isspace c = false → c ∉ [43; 45; 95]%N →
  digit_value unicode_decimal c = None →
  int unicode_decimal s = Raise ValueError.
Proof.
  intros Hin Hspace Hc Hd.
  rewrite !not_elem_of_cons in Hc. destruct Hc as (H43 & H45 & H95 & _).
  apply elem_of_strip in Hin; [|done]. unfold int.
  destruct (strip s) as [|x rest]; [by apply elem_of_nil in Hin|].
  assert (∀ body sign, c ∈ body →
            match parse_digits unicode_decimal body 0 false with
            | Some n => Ok (sign * n)
            | None => Raise ValueError
            end = Raise ValueError) as Hbody.
  { intros body sign Hb. by rewrite (parse_digits_rejects c body). }
  destruct (x =? 45)%N eqn:Hx45.
  { apply N.eqb_eq in Hx45 as ->. apply Hbody.
    by apply elem_of_cons in Hin as [?|?]. }
  destruct (x =? 43)%N eqn:Hx43.
  { apply N.eqb_eq in Hx43 as ->. apply Hbody.
    by apply elem_of_cons in Hin as [?|?]. }
  by apply Hbody.
Qed.

(** What is wrong with a limit: [int] refuses it, or reads a number that the
    slice refuses.  Either way [get_recipes] raises for every author, and
    what it raises is no API exception. *)
Lemma get_recipes_refused request db :
  let limit := query_get "recipes_limit" (query_params request) in
  truthy limit = true →
  (∀ n, int unicode_decimal (default [] limit) = Ok n → n < 0 ∨ 2 ^ 63 ≤ n) →
  ∃ e, (∀ obj, SubscriptionSerializer_get_recipes unicode_decimal request
                 obj db = Raise e)
       ∧ handle_exception e
         = mkResponse HTTP_500_INTERNAL_SERVER_ERROR NoBody.
Proof.
  intros limit Htruthy Hbad. unfold SubscriptionSerializer_get_recipes.
  fold limit. rewrite Htruthy.
  destruct (int unicode_decimal (default [] limit)) as [n|e] eqn:Hint.
  - unfold queryset_slice. cbn [mbind result_bind].
    destruct (Hbad n eq_refl) as [Hneg|Hbig].
    + exists ValueError. split; [|done]. intros obj.
      by rewrite bool_decide_eq_true_2.
    + exists IntegrityError. split; [|done]. intros obj.
      rewrite bool_decide_eq_false_2 by lia.
      by rewrite bool_decide_eq_true_2.
  - exists ValueError. split; [|done]. intros obj. cbn [mbind result_bind].
    unfold int in Hint. destruct (strip _) as [|c rest];
      repeat case_match; by simplify_eq.
Qed.

Lemma SubscriptionSerializer_data_Ok request authors db
  (preview : User → list Recipe) :
  (∀ a, SubscriptionSerializer_get_recipes unicode_decimal request a db
        = Ok (preview a)) →
  SubscriptionSerializer_data unicode_decimal request authors db
  = Ok ((λ a, (a, preview a,
               length (filter (λ r, recipe_author r = user_pk a)
                         (recipes db)))) <$> authors).
Proof.
  intros Hget. induction authors as [|a authors IH]; [done|].
  cbn [SubscriptionSerializer_data]. rewrite Hget, IH. done.
Qed.

Lemma SubscriptionSerializer_data_Raise request authors db e :
  (∀ a, SubscriptionSerializer_get_recipes unicode_decimal request a db
        = Raise e) →
  authors ≠ [] →
  SubscriptionSerializer_data unicode_decimal request authors db = Raise e.
Proof.
  intros Hget Hne. destruct authors as [|a authors]; [done|].
  cbn [SubscriptionSerializer_data]. by rewrite Hget.
Qed.

(** A GET of an authenticated user reaches the serializer with the page of
    the paginator. *)
Lemma subscriptions_page paginate_queryset request u page db :
  method request = GET → user request = Some u →
  paginate_queryset request (following u db) = Ok page →
  subscriptions unicode_decimal paginate_queryset request db
  = match SubscriptionSerializer_data unicode_decimal request page db with
    | Raise e => (Raise e, db)
    | Ok rendered =>
        (Ok (mkResponse HTTP_200_OK (SubscriptionList rendered)), db)
    end.
Proof.
  intros Hm Hu Hpage. unfold subscriptions, check_permissions.
  cbn [has_permission]. rewrite Hu, Hm, Hpage. done.
Qed.

(** The list when the limit is wrong: a server error as soon as the page
    holds an author, the empty list otherwise. *)
Lemma subscriptions_refused paginate_queryset request u page db :
  let limit := query_get "recipes_limit" (query_params request) in
  method request = GET → user request = Some u →
  paginate_queryset request (following u db) = Ok page →
  truthy limit = true →
  (∀ n, int unicode_decimal (default [] limit) = Ok n → n < 0 ∨ 2 ^ 63 ≤ n) →
  (page ≠ [] →
   respond (subscriptions unicode_decimal paginate_queryset request db)
   = (mkResponse HTTP_500_INTERNAL_SERVER_ERROR NoBody, db))
  ∧ (page = [] →
     respond (subscriptions unicode_decimal paginate_queryset request db)
     = (mkResponse HTTP_200_OK (SubscriptionList []), db)).
Proof.
  intros limit Hm Hu Hpage Htruthy Hbad.
  rewrite (subscriptions_page _ _ u page) by done.
  destruct (get_recipes_refused request db Htruthy Hbad) as (e & Hget & He).
  split.
  - intros Hne.
    rewrite (SubscriptionSerializer_data_Raise request page db e) by done.
    simpl. by rewrite He.
  - by intros ->.
Qed.

End RecipesLimit.

(** C10 as stated does not hold: Bob follows nobody, and his list of
    subscriptions with [recipes_limit=two], a value that is not empty and that
    [int] refuses, is answered with 200 and the empty list.  [get_recipes] is
    called for the listed authors only. *)
Lemma bad_limit_answered_200 :
  let request := mkRequest GET (Some bob) [("recipes_limit", lit "two")] in
  query_get "recipes_limit" (query_params request) = Some (lit "two")
  ∧ lit "two" ≠ []
  ∧ int (λ _, None) (lit "two") = Raise ValueError
  ∧ following bob sample_db = []
  ∧ respond (subscriptions (λ _, None) whole_list request sample_db)
    = (mkResponse HTTP_200_OK (SubscriptionList []), sample_db).
Proof. done. Qed.



(** ** The username and e-mail patterns *)

(** The validator looks at the start of the value only: a value that begins
    with a permitted character passes, whatever follows. *)
Lemma RegexValidator_prefix (unicode_alnum : N → bool) message c rest :
  username_class unicode_alnum c = true →
  RegexValidator unicode_alnum message (c :: rest) = [].
Proof.
  intros Hc. unfold RegexValidator, regex_search. simpl. by rewrite Hc.
Qed.

(** A value that begins with a character outside the class is refused. *)
Lemma RegexValidator_first (unicode_alnum : N → bool) message c rest :
  username_class unicode_alnum c = false →
  RegexValidator unicode_alnum message (c :: rest) = [message].
Proof.
  intros Hc. unfold RegexValidator, regex_search. simpl. by rewrite Hc.
Qed.

(** C9.  The exclamation mark is outside the permitted set, yet the
    username [ab!] passes the field: the pattern has no end anchor and
    [search] matches the prefix [ab].  In the same way the pattern check of
    the e-mail field passes [a!b@example.com], whose fate is then left to the
    framework's [EmailValidator]. *)
Theorem username_with_forbidden_character_accepted
  (unicode_alnum : N → bool) (EmailValidator : pystr → bool) :
  username_class unicode_alnum 33 = false
  ∧ 33%N ∈ lit "ab!"
  ∧ regex_search unicode_alnum (lit "ab!") = Some (lit "ab")
  ∧ UserSerializer_username unicode_alnum sample_db (lit "ab!")
    = Ok (lit "ab!")
  ∧ UserSerializer_email unicode_alnum EmailValidator
      (lit "a!b@example.com")
    = if EmailValidator (lit "a!b@example.com")
      then Ok (lit "a!b@example.com")
      else Raise (ValidationError (Msgs ["Enter a valid email address."])).
Proof.
  split; [reflexivity|]. split; [by apply (bool_decide_unpack _)|].
  split; [reflexivity|]. split; [reflexivity|].
  unfold UserSerializer_email, EmailField, run_validators.
  change (strip (lit "a!b@example.com")) with (lit "a!b@example.com").
  change (lit "a!b@example.com")
    with (97%N :: lit "!b@example.com") at 1 2.
  cbn [app mbind list_bind].
  by destruct (EmailValidator _).
Qed.

(** ** Worked examples *)

Example lit_cyrillic : lit "Дата" = [1044; 1072; 1090; 1072]%N.
Proof. reflexivity. Qed.

Example strip_spaces : strip (lit "  two words ") = lit "two words".
Proof. reflexivity. Qed.

Example get_full_name_bob : get_full_name bob = lit "Bob Baker".
Proof. reflexivity. Qed.

Example format_date_padded : format_date (mkDate 2024 5 7) = lit "2024-05-07".
Proof. reflexivity. Qed.

Example int_plain : int (λ _, None) (lit "42") = Ok 42.
Proof. reflexivity. Qed.

Example int_spaces_sign_underscore :
  int (λ _, None) (lit " -1_000 ") = Ok (-1000).
Proof. reflexivity. Qed.

Example int_word : int (λ _, None) (lit "ten") = Raise ValueError.
Proof. reflexivity. Qed.

Example int_decimal_point : int (λ _, None) (lit "2.5") = Raise ValueError.
Proof. reflexivity. Qed.

Example int_double_underscore :
  int (λ _, None) (lit "1__0") = Raise ValueError.
Proof. reflexivity. Qed.

Example get_recipes_limit_one :
  SubscriptionSerializer_get_recipes (λ _, None)
    (mkRequest GET (Some bob) [("recipes_limit", lit "1")]) alice sample_db
  = Ok [pancakes].
Proof. reflexivity. Qed.

Example get_recipes_negative_limit :
  SubscriptionSerializer_get_recipes (λ _, None)
    (mkRequest GET (Some bob) [("recipes_limit", lit "-1")]) alice sample_db
  = Raise ValueError.
Proof. reflexivity. Qed.

Example subscriptions_bad_limit :
  respond (subscriptions (λ _, None) whole_list
             (mkRequest GET (Some bob) [("recipes_limit", lit "two")])
             following_db)
  = (mkResponse HTTP_500_INTERNAL_SERVER_ERROR NoBody, following_db).
Proof. reflexivity. Qed.

Example subscriptions_nobody_followed :
  respond (subscriptions (λ _, None) whole_list
             (mkRequest GET (Some bob) [("recipes_limit", lit "two")])
             sample_db)
  = (mkResponse HTTP_200_OK (SubscriptionList []), sample_db).
Proof. reflexivity. Qed.

Example annotate_sum_merges :
  annotate_sum [(1, 2); (2, 100); (1, 3)] = [(1, 5); (2, 100)].
Proof. reflexivity. Qed.

Example m2m_set_keeps_and_replaces :
  m2m_set 10 [2; 3] [(10, 1); (10, 2); (11, 1)]
  = [(10, 2); (11, 1); (10, 3)].
Proof. reflexivity. Qed.

Example validate_ingredients_duplicate :
  validate_ingredients sample_db [mkItem 1 2; mkItem 1 3]
  = Raise (ValidationError (Msg "Ингридиенты не могут повторяться!")).
Proof. reflexivity. Qed.

Example validate_ingredients_amount :
  validate_ingredients sample_db [mkItem 1 0]
  = Raise (ValidationError
             (Msg "Количество ингредиента должно быть больше 0!")).
Proof. reflexivity. Qed.

Example validate_ingredients_unknown_before_amount :
  validate_ingredients sample_db [mkItem 999 0] = Raise Http404.
Proof. reflexivity. Qed.

Example create_collects_field_errors :
  respond (RecipeViewSet sample_framework (mkRequest POST (Some alice) []) None
             (mkRecipeData (Some []) (Some []) (Some (lit "Tea")) None
                (Some (lit "Boil.")) (Some 0)) sample_db)
  = (mkResponse HTTP_400_BAD_REQUEST
       (FieldErrors
          [("tags", ["Нужно выбрать хотя бы один тег!"]);
           ("ingredients", ["Нужен хотя бы один ингредиент!"]);
           ("image", ["No file was submitted."]);
           ("cooking_time",
            ["Время приготовления должно быть больше нуля."])]),
     sample_db).
Proof. reflexivity. Qed.

Example create_stores_recipe :
  let '(response, db) :=
    respond (RecipeViewSet sample_framework (mkRequest POST (Some bob) [])
               None crepes_data sample_db) in
  status_code response = HTTP_201_CREATED
  ∧ recipe_pk <$> recipes db = [10; 11; 12]
  ∧ recipe_image <$> recipes db
    = [lit "recipes/p.png"; lit "recipes/o.png"; lit "recipes/temp.png"]
  ∧ filter (λ row, row.1 = 12) (recipe_tags db) = [(12, 1); (12, 2)]
  ∧ filter (λ row, iir_recipe row = 12) (ingredient_in_recipe db)
    = [mkIngredientInRecipe 12 1 4; mkIngredientInRecipe 12 3 150].
Proof. vm_compute. done. Qed.

Example patch_without_tags_is_rolled_back :
  respond (RecipeViewSet sample_framework (mkRequest PATCH (Some alice) []) (Some 10)
             (mkRecipeData None None (Some (lit "Blini")) None None None)
             sample_db)
  = (mkResponse HTTP_500_INTERNAL_SERVER_ERROR NoBody, sample_db).
Proof. reflexivity. Qed.

(** Two identical tags and an image that begins as a data URL but has no
    payload: the tag error is gathered, then the image field raises. *)
Example repeated_tag_and_broken_image :
  respond (RecipeViewSet sample_framework (mkRequest POST (Some alice) [])
             None
             (mkRecipeData (Some [1; 1]) (Some [mkItem 1 2])
                (Some (lit "Crepes")) (Some (lit "data:image/png"))
                (Some (lit "Whisk, rest, fry.")) (Some 30)) sample_db)
  = (mkResponse HTTP_500_INTERNAL_SERVER_ERROR NoBody, sample_db).
Proof. reflexivity. Qed.

(** A string that is no data URL is no file. *)
Example image_path_is_refused :
  respond (RecipeViewSet sample_framework (mkRequest POST (Some alice) [])
             None
             (mkRecipeData (Some [1]) (Some [mkItem 1 2])
                (Some (lit " Crepes ")) (Some (lit "recipes/c.png"))
                (Some (lit "Whisk, rest, fry.")) (Some 30)) sample_db)
  = (mkResponse HTTP_400_BAD_REQUEST
       (FieldErrors [("image", ["The submitted data was not a file."])]),
     sample_db).
Proof. reflexivity. Qed.

Example staff_may_delete :
  status_code
    (fst (respond (RecipeViewSet sample_framework (mkRequest DELETE (Some carol) [])
                     (Some 10) no_data sample_db)))
  = HTTP_204_NO_CONTENT.
Proof. reflexivity. Qed.

(** The example of the specification: the cart holds the recipe with 2 eggs
    and 100 g of flour, and the list has one line for each. *)
Example shopping_list_of_the_specification :
  shopping_line <$> shopping_groups first_seen bob pancakes_only_db
  = [lit "- eggs (pcs) - 2"; lit "- flour (g) - 100"].
Proof. reflexivity. Qed.

Example shopping_list_text :
  shopping_list first_seen (mkDate 2024 5 7) bob sample_db
  = lit "Список покупок для: Bob Baker" ++ newline
    ++ lit "Дата: 2024-05-07" ++ newline ++ newline
    ++ lit "- eggs (pcs) - 5" ++ newline
    ++ lit "- flour (g) - 100" ++ newline
    ++ lit "- milk (ml) - 50" ++ newline ++ newline
    ++ lit "Foodgram (2024)".
Proof. reflexivity. Qed.

Example username_starting_with_bang :
  UserSerializer_username (λ _, false) sample_db (lit "!ab")
  = Raise (ValidationError
             (Msgs ["Имя пользователя содержит недопустимые символы"])).
Proof. reflexivity. Qed.

Example username_taken :
  UserSerializer_username (λ _, false) sample_db (lit "alice")
  = Raise (ValidationError (Msgs ["Это имя пользователя уже занято"])).
Proof. reflexivity. Qed.

(** * Further properties of the code *)

(** ** Creating a recipe *)

Section Creating.

Implicit Types (db : Store) (d : RecipeData) (request : Request).

Lemma next_pk_bound (rows : list Recipe) row :
  row ∈ rows → recipe_pk row < next_pk rows.
Proof.
  unfold next_pk. induction rows as [|r rows IH]; intros Hin.
  { by apply elem_of_nil in Hin. }
  rewrite fmap_cons. simpl.
  apply elem_of_cons in Hin as [->|Hin]; [lia|]. specialize (IH Hin). lia.
Qed.

Lemma next_pk_fresh (rows : list Recipe) :
  next_pk rows ∉ recipe_pk <$> rows.
Proof.
  intros Hin. apply list_elem_of_fmap in Hin as (row & Heq & Hrow).
  apply next_pk_bound in Hrow. lia.
Qed.

(** [create] is atomic. *)
Lemma create_Raise {fw : Framework} v db e db' :
  create fw v db = (Raise e, db') → db' = db.
Proof.
  unfold create, atomic. destruct (pop "tags" _); [|by intros [= _ <-]].
  destruct (pop "ingredients" _); [|by intros [= _ <-]].
  destruct (Recipe_objects_create fw v db) as [[recipe|?] db1];
    [|by intros [= _ <-]].
  destruct (create_ingredients_amounts _ _ _) as [[[]|?] ?];
    by intros [= ? <-].
Qed.

(** What [set] leaves for a recipe that had no row. *)
Lemma m2m_set_fresh r objs through :
  m2m_ids r through = [] →
  m2m_set r objs through = through ++ (pair r <$> remove_dups objs).
Proof.
  intros Hfresh. unfold m2m_set. rewrite Hfresh. simpl.
  rewrite m2m_set_loop_fresh. simpl.
  assert (m2m_remove r [] through = through) as ->.
  { unfold m2m_remove. apply filter_all. intros row _ [_ Hin].
    by apply not_elem_of_nil in Hin. }
  unfold m2m_add. rewrite Hfresh. f_equal. f_equal.
  apply filter_all. intros t _. apply not_elem_of_nil.
Qed.

Lemma create_Ok {fw : Framework} v db recipe db' :
  create fw v db = (Ok recipe, db') →
  ∃ chosen items author cooking_time,
    v_tags v = Some chosen ∧ v_ingredients v = Some items
    ∧ v_author v = Some author ∧ v_cooking_time v = Some cooking_time
    ∧ recipe = mkRecipe (next_pk (recipes db)) (user_pk author)
                 (default [] (v_name v))
                 (from_option (storage_save fw) [] (v_image v))
                 (default [] (v_text v)) cooking_time
    ∧ db' = mkStore (users db) (subscribes db) (tags db) (ingredients db)
              (recipes db ++ [recipe])
              (m2m_set (recipe_pk recipe) (tag_pk <$> chosen) (recipe_tags db))
              (ingredient_in_recipe db
               ++ ((λ item, mkIngredientInRecipe (recipe_pk recipe)
                              (item_id item) (item_amount item)) <$> items))
              (favourites db) (shopping_carts db).
Proof.
  unfold create, atomic. destruct (v_tags v) as [chosen|]; [|done].
  destruct (v_ingredients v) as [items|]; [|done]. simpl.
  unfold Recipe_objects_create.
  destruct (v_author v) as [author|]; [|done].
  destruct (v_cooking_time v) as [cooking_time|]; [|done].
  unfold create_ingredients_amounts, atomic.
  match goal with
  | |- context [ingredient_rows ?db1 ?r items] =>
      destruct (ingredient_rows db1 r items) as [rows|e] eqn:Hrows; [|done]
  end.
  apply ingredient_rows_Ok in Hrows. intros [= <- <-].
  exists chosen, items, author, cooking_time. by rewrite Hrows.
Qed.

End Creating.

(** X1.  A POST on the recipe list that is answered with 201 has stored one
    new recipe: its primary key was not in use, its author is the requester,
    its tag rows are one per supplied tag id and its ingredient rows one per
    supplied entry; every row that was in the database is still there and no
    other table has changed. *)
Theorem create_stores_what_was_sent (fw : Framework) (request : Request) (d : RecipeData)
  (db : Store) (response : Response) (db' : Store) :
  references_ok db → method request = POST →
  respond (RecipeViewSet fw request None d db) = (response, db') →
  status_code response = HTTP_201_CREATED →
  ∃ u pks items recipe,
    user request = Some u ∧ data_tags d = Some pks
    ∧ data_ingredients d = Some items
    ∧ data response = RecipeReadData recipe
    ∧ (recipe_pk recipe ∉ recipe_pk <$> recipes db)
    ∧ recipe_author recipe = user_pk u
    ∧ Some (recipe_cooking_time recipe) = data_cooking_time d
    ∧ recipes db' = recipes db ++ [recipe]
    ∧ recipe_tags db' = recipe_tags db ++ (pair (recipe_pk recipe) <$> pks)
    ∧ ingredient_in_recipe db'
      = ingredient_in_recipe db
        ++ ((λ item, mkIngredientInRecipe (recipe_pk recipe) (item_id item)
                       (item_amount item)) <$> items)
    ∧ db' = with_ingredient_in_recipe (ingredient_in_recipe db')
              (with_recipe_tags (recipe_tags db')
                 (with_recipes (recipes db') db)).
Proof.
  intros (Hrt & _) Hm Hresp H201. unfold RecipeViewSet in Hresp.
  destruct (check_permissions _ request) as [[]|e].
  2:{ injection Hresp as <- _.
      by destruct e as [[]| | | | | | | | | | |]. }
  rewrite Hm in Hresp. unfold RecipeViewSet_create in Hresp.
  destruct (to_internal_value fw false db d) as [v|e] eqn:Hv.
  2:{ injection Hresp as <- _.
      by destruct e as [[]| | | | | | | | | | |]. }
  destruct (user request) as [u|]; [|by injection Hresp as <- _].
  destruct (create fw (with_author u v) db) as [[recipe|e] db1] eqn:Hc.
  2:{ injection Hresp as <- _.
      by destruct e as [[]| | | | | | | | | | |]. }
  injection Hresp as <- <-.
  apply create_Ok in Hc
    as (tags & items & author & ct & Ht & Hi & [= <-] & Hct & Hrecipe & ->).
  simpl in Ht, Hi, Hct.
  apply to_internal_value_Ok in Hv as (Hft & Hfi & Hfc & _).
  rewrite Ht in Hft. rewrite Hi in Hfi. rewrite Hct in Hfc.
  apply run_field_Ok in Hft as [(_ & _ & ?)|(pks & b & Hdt & Hf & [= <-])];
    [done|].
  apply run_field_Ok in Hfi as [(_ & _ & ?)|(its & b & Hdi & Hf' & [= <-])];
    [done|].
  apply run_field_Ok in Hfc as [(_ & _ & ?)|(c & b & Hdc & Hfc & [= <-])];
    [done|].
  apply validate_cooking_time_Ok in Hfc as [-> _].
  apply tags_field_Ok in Hf as (Hpks & _ & Hnd).
  apply validate_ingredients_Ok in Hf' as (-> & _).
  assert (recipe_pk recipe = next_pk (recipes db)) as Hpk by by subst.
  assert (m2m_ids (recipe_pk recipe) (recipe_tags db) = []) as Hfresh.
  { unfold m2m_ids. rewrite filter_none; [done|]. intros row Hrow Heq.
    rewrite Forall_forall in Hrt. apply Hrt in Hrow.
    rewrite Heq, Hpk in Hrow. by apply next_pk_fresh in Hrow. }
  exists u, pks, its, recipe.
  split; [done|]. split; [done|]. split; [done|]. split; [done|].
  split; [rewrite Hpk; apply next_pk_fresh|].
  split; [by subst|]. split; [by subst|]. simpl.
  rewrite m2m_set_fresh by done. rewrite Hpks, (remove_dups_NoDup pks Hnd).
  done.
Qed.

Lemma create_stores_what_was_sent_witness :
  ∃ response db',
    respond (RecipeViewSet sample_framework (mkRequest POST (Some bob) []) None crepes_data
               sample_db) = (response, db')
    ∧ ∃ u pks items recipe,
        Some bob = Some u ∧ data_tags crepes_data = Some pks
        ∧ data_ingredients crepes_data = Some items
        ∧ data response = RecipeReadData recipe
        ∧ (recipe_pk recipe ∉ recipe_pk <$> recipes sample_db)
        ∧ recipe_author recipe = user_pk u
        ∧ Some (recipe_cooking_time recipe) = data_cooking_time crepes_data
        ∧ recipes db' = recipes sample_db ++ [recipe]
        ∧ recipe_tags db'
          = recipe_tags sample_db ++ (pair (recipe_pk recipe) <$> pks)
        ∧ ingredient_in_recipe db'
          = ingredient_in_recipe sample_db
            ++ ((λ item, mkIngredientInRecipe (recipe_pk recipe)
                           (item_id item) (item_amount item)) <$> items)
        ∧ db' = with_ingredient_in_recipe (ingredient_in_recipe db')
                  (with_recipe_tags (recipe_tags db')
                     (with_recipes (recipes db') sample_db)).
Proof.
  destruct (respond (RecipeViewSet sample_framework (mkRequest POST (Some bob) []) None
                       crepes_data sample_db)) as [response db'] eqn:Hresp.
  exists response, db'. split; [done|].
  apply (create_stores_what_was_sent sample_framework (mkRequest POST (Some bob) [])
           crepes_data sample_db response db').
  - by apply (bool_decide_unpack _).
  - done.
  - done.
  - vm_compute in Hresp. by injection Hresp as <- _.
Defined.

(** ** All or nothing *)

Lemma handle_exception_status e : 400 ≤ status_code (handle_exception e).
Proof.
  destruct e as [[]| | | | | | | | | | |]; simpl;
    try (by vm_compute); by destruct (get_authenticate_header _).
Qed.

(** A request on the recipe routes that fails leaves the database alone. *)
Lemma failed_request_keeps_database {fw : Framework} (request : Request) (pk : option Z)
  (d : RecipeData) (db : Store) :
  400 ≤ status_code (fst (respond (RecipeViewSet fw request pk d db))) →
  snd (respond (RecipeViewSet fw request pk d db)) = db.
Proof.
  unfold RecipeViewSet.
  destruct (check_permissions _ request) as [[]|e]; [|done].
  assert (∀ partial key,
            400 ≤ status_code
                    (fst (respond (RecipeViewSet_update fw partial request key d
                                     db))) →
            snd (respond (RecipeViewSet_update fw partial request key d db))
            = db) as Hupdate.
  { intros partial key. unfold RecipeViewSet_update.
    destruct (get_object request key db) as [instance|e]; [|done].
    destruct (to_internal_value fw partial db d) as [v|e]; [|done].
    destruct (update fw instance v db) as [[recipe|e] db1] eqn:Hu.
    - simpl. by vm_compute.
    - apply update_Raise in Hu as ->. done. }
  assert (∀ key,
            snd (respond (RecipeViewSet_retrieve request key db)) = db)
    as Hretrieve.
  { intros key. unfold RecipeViewSet_retrieve.
    by destruct (get_object request key db). }
  destruct (method request), pk as [key|]; lazy beta iota;
    try apply Hupdate; try (intros _; apply Hretrieve);
    try (intros _; reflexivity).
  - unfold RecipeViewSet_create.
    destruct (to_internal_value fw false db d) as [v|e]; [|done].
    destruct (user request) as [u|]; [|done].
    destruct (create fw (with_author u v) db) as [[recipe|e] db1] eqn:Hc.
    + simpl. by vm_compute.
    + apply create_Raise in Hc as ->. done.
  - unfold RecipeViewSet_destroy.
    destruct (get_object request key db) as [instance|e]; [|done].
    simpl. by vm_compute.
Qed.

(** X2.  The recipe routes change the database only when they answer with
    success: whenever the status is 400 or above, whatever the method, the
    requester and the body, the database is what it was.  (Creation and
    update run inside [transaction.atomic].) *)
Theorem recipe_routes_all_or_nothing (fw : Framework) (request : Request) (pk : option Z)
  (d : RecipeData) (db : Store) :
  400 ≤ status_code (fst (respond (RecipeViewSet fw request pk d db))) →
  snd (respond (RecipeViewSet fw request pk d db)) = db.
Proof. apply failed_request_keeps_database. Qed.

Lemma recipe_routes_all_or_nothing_witness :
  snd (respond (RecipeViewSet sample_framework (mkRequest PATCH (Some alice) []) (Some 10)
                  (mkRecipeData None None (Some (lit "Blini")) None None
                     None) sample_db)) = sample_db.
Proof.
  apply (recipe_routes_all_or_nothing sample_framework). by vm_compute.
Defined.

(** ** Who may write *)

(** X3.  The author of a recipe and every staff user pass both permission
    checks of the recipe routes for every method: their requests are never
    refused for lack of permission. *)
Theorem author_and_staff_may_write (request : Request) (u : User)
  (obj : Recipe) :
  user request = Some u →
  recipe_author obj = user_pk u ∨ user_is_staff u = true →
  check_permissions RecipeViewSet_permission_classes request = Ok ()
  ∧ check_object_permissions RecipeViewSet_permission_classes request obj
    = Ok ().
Proof.
  intros Hu Hwho.
  unfold RecipeViewSet_permission_classes, check_permissions,
    check_object_permissions.
  cbn [has_permission has_object_permission]. rewrite Hu.
  cbn [is_authenticated is_staff author_is_user].
  destruct (bool_decide (method request ∈ SAFE_METHODS));
    destruct Hwho as [Hauthor|Hstaff];
    rewrite ?(bool_decide_eq_true_2 _ Hauthor), ?Hstaff; simpl;
    by rewrite ?orb_true_r.
Qed.

Lemma author_and_staff_may_write_witness :
  (check_permissions RecipeViewSet_permission_classes
     (mkRequest DELETE (Some carol) []) = Ok ()
   ∧ check_object_permissions RecipeViewSet_permission_classes
       (mkRequest DELETE (Some carol) []) pancakes = Ok ())
  ∧ check_permissions RecipeViewSet_permission_classes
      (mkRequest PUT (Some alice) []) = Ok ()
  ∧ check_object_permissions RecipeViewSet_permission_classes
      (mkRequest PUT (Some alice) []) pancakes = Ok ().
Proof.
  split.
  - apply (author_and_staff_may_write _ carol); [done|by right].
  - apply (author_and_staff_may_write _ alice); [done|by left].
Defined.

(** ** What the serializer accepts *)

Section Acceptance.

Implicit Types (db : Store) (d : RecipeData) (v : ValidatedData).

Lemma tags_to_internal_value_known db pks found :
  tags_to_internal_value db pks = Ok found → pks ⊆ tag_pk <$> tags db.
Proof.
  revert found. induction pks as [|pk pks IH]; intros found Hfound x Hx.
  { by apply elem_of_nil in Hx. }
  simpl in Hfound.
  destruct (objects_get tag_pk (tags db) pk) as [tag|e] eqn:Hget;
    [|by destruct e].
  destruct (tags_to_internal_value db pks) as [more|?] eqn:Hmore; [|done].
  apply elem_of_cons in Hx as [->|Hx]; [|by eapply IH].
  apply objects_get_pk in Hget as [<- Hin].
  apply list_elem_of_fmap. eauto.
Qed.

Lemma run_field_with_required {A B} required (value : option A)
  (f : A → result B) o :
  run_field_with required false value f = Ok o →
  ∃ x b, value = Some x ∧ f x = Ok b ∧ o = Some b.
Proof.
  intros Hr. by apply run_field_with_Ok in Hr as [(_ & ? & _)|?].
Qed.

Lemma CharField_Ok validators data value :
  CharField validators data = Ok value → value = strip data ∧ value ≠ [].
Proof.
  unfold CharField, run_validators.
  destruct (strip data) as [|c rest]; [done|].
  destruct (_ ≫= _); intros [= <-]. done.
Qed.

End Acceptance.

(** X4.  What the serializer demands on create and on PUT.  Whenever it
    accepts a body, every key is present, the tag list and the ingredient
    list are non-empty, name no id twice and name only rows of the database,
    every amount is positive and the cooking time lies in (0, 600]; name and
    text are not blank and are passed on without surrounding white space; and
    the image field has accepted the image and passes on its file. *)
Theorem validation_accepts_only (fw : Framework) (db : Store)
  (d : RecipeData) (v : ValidatedData) :
  to_internal_value fw false db d = Ok v →
  acceptable_body db d
  ∧ (∃ name, data_name d = Some name ∧ strip name ≠ []
             ∧ v_name v = Some (strip name))
  ∧ (∃ text, data_text d = Some text ∧ strip text ≠ []
             ∧ v_text v = Some (strip text))
  ∧ (∃ data file, data_image d = Some data
                  ∧ image_field fw data = Ok file
                  ∧ v_image v = Some file).
Proof.
  intros Hv.
  apply to_internal_value_Ok in Hv as (Ht & Hi & Hc & Hn & Him & Htx & _).
  apply run_field_with_required in Ht as (pks & value & Hdt & Hft & _).
  apply run_field_with_required in Hi as (items & its & Hdi & Hfi & _).
  apply run_field_with_required in Hc as (ct & ct' & Hdc & Hfc & _).
  apply run_field_with_required in Hn as (n & n' & Hdn & Hfn & Hvn).
  apply run_field_with_required in Him as (im & im' & Hdim & Hfim & Hvim).
  apply run_field_with_required in Htx as (tx & tx' & Hdtx & Hftx & Hvtx).
  apply CharField_Ok in Hfn as [-> Hn]. apply CharField_Ok in Hftx as [-> Htx].
  split.
  2:{ split; [by exists n|]. split; [by exists tx|]. by exists im, im'. }
  exists pks, items, ct.
  split; [done|]. split; [done|]. split; [done|].
  split; [by rewrite Hdn|]. split; [by rewrite Hdim|].
  split; [by rewrite Hdtx|].
  unfold tags_field in Hft.
  destruct (tags_to_internal_value db pks) as [found|?] eqn:Hfound;
    [|done].
  simpl in Hft. apply validate_tags_Ok in Hft as (-> & Hne & Hnd).
  assert (tag_pk <$> found = pks) as Hpks
    by by apply tags_to_internal_value_Ok in Hfound.
  split; [intros ->; by destruct found|]. split; [by rewrite <- Hpks|].
  split.
  { by eapply tags_to_internal_value_known. }
  apply validate_ingredients_Ok in Hfi as (_ & Hne' & Hnd' & Hall).
  split; [done|]. split; [done|]. split.
  { intros x Hx. apply list_elem_of_fmap in Hx as (item & -> & Hin).
    destruct (Hall item Hin) as [_ Hok].
    destruct (get_object_or_404 _ _ (item_id item)) as [row|?] eqn:Hget;
      [|done].
    apply get_object_or_404_pk in Hget as [<- Hrow].
    apply list_elem_of_fmap. eauto. }
  split.
  { apply Forall_forall. intros item Hin. by destruct (Hall item Hin). }
  by apply validate_cooking_time_Ok in Hfc as [_ ?].
Qed.

Lemma validation_accepts_only_witness :
  acceptable_body sample_db crepes_data
  ∧ (∃ name, data_name crepes_data = Some name ∧ strip name ≠ []
             ∧ Some (lit "Crepes") = Some (strip name))
  ∧ (∃ text, data_text crepes_data = Some text ∧ strip text ≠ []
             ∧ Some (lit "Whisk, rest, fry.") = Some (strip text))
  ∧ (∃ data file, data_image crepes_data = Some data
                  ∧ image_field sample_framework data = Ok file
                  ∧ Some (File (lit "temp.png") (lit "aGk=")) = Some file).
Proof.
  apply (validation_accepts_only sample_framework sample_db crepes_data
           (mkValidated (Some [breakfast; dinner])
              (Some [mkItem 1 4; mkItem 3 150]) (Some (lit "Crepes"))
              (Some (File (lit "temp.png") (lit "aGk=")))
              (Some (lit "Whisk, rest, fry.")) (Some 30) None)).
  reflexivity.
Defined.

(** ** Updating a recipe *)

Section Updating.

Implicit Types (db : Store) (d : RecipeData) (v : ValidatedData).

Lemma save_recipes_known instance db :
  recipe_pk instance ∈ recipe_pk <$> recipes db →
  save instance db
  = with_recipes
      ((λ row, if bool_decide (recipe_pk row = recipe_pk instance)
               then instance else row) <$> recipes db) db.
Proof. intros Hin. unfold save. by rewrite bool_decide_eq_true_2. Qed.

Lemma replace_keeps_pks instance (rows : list Recipe) :
  recipe_pk <$> ((λ row, if bool_decide (recipe_pk row = recipe_pk instance)
                         then instance else row) <$> rows)
  = recipe_pk <$> rows.
Proof.
  induction rows as [|row rows IH]; [done|].
  rewrite !fmap_cons, IH. f_equal. by case_bool_decide.
Qed.

Lemma replace_twice instance (rows : list Recipe) :
  (λ row, if bool_decide (recipe_pk row = recipe_pk instance)
          then instance else row)
  <$> ((λ row, if bool_decide (recipe_pk row = recipe_pk instance)
               then instance else row) <$> rows)
  = (λ row, if bool_decide (recipe_pk row = recipe_pk instance)
            then instance else row) <$> rows.
Proof.
  induction rows as [|row rows IH]; [done|].
  rewrite !fmap_cons, IH. f_equal.
  destruct (bool_decide (recipe_pk row = recipe_pk instance)) eqn:Hrow.
  - by rewrite bool_decide_eq_true_2.
  - by rewrite Hrow.
Qed.

Lemma save_twice instance db :
  recipe_pk instance ∈ recipe_pk <$> recipes db →
  save instance (save instance db) = save instance db.
Proof.
  intros Hin. rewrite (save_recipes_known instance db Hin).
  unfold save. simpl.
  rewrite bool_decide_eq_true_2 by (by rewrite replace_keeps_pks).
  by rewrite replace_twice.
Qed.

Lemma save_commutes instance rt iir db :
  save instance (with_ingredient_in_recipe iir (with_recipe_tags rt db))
  = with_ingredient_in_recipe iir (with_recipe_tags rt (save instance db)).
Proof. unfold save. simpl. by case_bool_decide. Qed.

(** The recipe table after a successful [update] of a stored recipe. *)
Lemma update_Ok_recipes {fw : Framework} instance v db recipe db' :
  update fw instance v db = (Ok recipe, db') →
  recipe_pk instance ∈ recipe_pk <$> recipes db →
  recipe
  = mkRecipe (recipe_pk instance)
      (from_option user_pk (recipe_author instance) (v_author v))
      (default (recipe_name instance) (v_name v))
      (from_option (storage_save fw) (recipe_image instance) (v_image v))
      (default (recipe_text instance) (v_text v))
      (default (recipe_cooking_time instance) (v_cooking_time v))
  ∧ recipes db'
    = (λ row, if bool_decide (recipe_pk row = recipe_pk instance)
              then recipe else row) <$> recipes db
  ∧ users db' = users db ∧ subscribes db' = subscribes db
  ∧ tags db' = tags db ∧ ingredients db' = ingredients db
  ∧ favourites db' = favourites db ∧ shopping_carts db' = shopping_carts db.
Proof.
  intros Hupdate Hin. unfold update, update_body, atomic in Hupdate.
  destruct (v_tags v) as [chosen|]; [|done].
  destruct (v_ingredients v) as [items|]; [|done].
  unfold pop, ModelSerializer_update in Hupdate.
  cbv beta iota zeta in Hupdate.
  set (inst := mkRecipe (recipe_pk instance) _ _ _ _ _) in *.
  unfold create_ingredients_amounts, atomic in Hupdate.
  match type of Hupdate with
  | context [ingredient_rows ?db1 ?r items] =>
      destruct (ingredient_rows db1 r items) as [rows|e] eqn:Hrows; [|done]
  end.
  clear Hrows. cbv beta iota zeta in Hupdate.
  injection Hupdate as <- <-. split; [done|].
  assert (recipe_pk inst ∈ recipe_pk <$> recipes db) as Hin' by done.
  match goal with
  | |- context [save inst (with_ingredient_in_recipe ?iir
                             (with_ingredient_in_recipe ?iir0
                                (with_recipe_tags ?rt2
                                   (with_recipe_tags ?rt1 (save inst db)))))]
    => change (with_ingredient_in_recipe iir
                 (with_ingredient_in_recipe iir0
                    (with_recipe_tags rt2
                       (with_recipe_tags rt1 (save inst db)))))
         with (with_ingredient_in_recipe iir
                 (with_recipe_tags rt2 (save inst db)))
  end.
  rewrite save_commutes, save_twice by done.
  rewrite (save_recipes_known inst db Hin'). done.
Qed.

End Updating.

Lemma run_field_text_Ok partial (value : option pystr) o :
  run_field partial value (CharField []) = Ok o → o = strip <$> value.
Proof.
  intros Hr. apply run_field_Ok in Hr as [(-> & _ & ->)|(x & b & -> & Hf & ->)];
    [done|]. by apply CharField_Ok in Hf as [-> _].
Qed.

(** X5.  A PUT or PATCH that is answered with 200 rewrites one row of the
    recipe table and no other: the row keeps its primary key and its author,
    and takes the supplied cooking time, the supplied name and text without
    their surrounding white space, and as image the name under which the
    storage keeps the file that the image field made of the supplied string,
    each where the body carries it (a PATCH may leave them out); users, tags,
    ingredients, subscriptions, favourites and carts are untouched. *)
Theorem update_keeps_identity (fw : Framework) (request : Request) (pk : Z)
  (d : RecipeData) (db : Store) (response : Response) (db' : Store) :
  method request ∈ [PUT; PATCH] →
  respond (RecipeViewSet fw request (Some pk) d db) = (response, db') →
  status_code response = HTTP_200_OK →
  ∃ old recipe,
    get_object_or_404 recipe_pk (recipes db) pk = Ok old
    ∧ data response = RecipeReadData recipe
    ∧ recipe_pk recipe = pk
    ∧ recipe_author recipe = recipe_author old
    ∧ recipe_cooking_time recipe
      = default (recipe_cooking_time old) (data_cooking_time d)
    ∧ recipe_name recipe = default (recipe_name old) (strip <$> data_name d)
    ∧ match data_image d with
      | None => recipe_image recipe = recipe_image old
      | Some data =>
          ∃ file, image_field fw data = Ok file
                  ∧ recipe_image recipe = storage_save fw file
      end
    ∧ recipe_text recipe = default (recipe_text old) (strip <$> data_text d)
    ∧ recipes db'
      = (λ row, if bool_decide (recipe_pk row = pk) then recipe else row)
        <$> recipes db
    ∧ users db' = users db ∧ subscribes db' = subscribes db
    ∧ tags db' = tags db ∧ ingredients db' = ingredients db
    ∧ favourites db' = favourites db ∧ shopping_carts db' = shopping_carts db.
Proof.
  intros Hm Hresp H200. unfold RecipeViewSet in Hresp.
  destruct (check_permissions _ request) as [[]|e].
  2:{ injection Hresp as <- _. by apply handle_exception_not_200 in H200. }
  assert (∃ partial,
            respond (RecipeViewSet_update fw partial request pk d db)
            = (response, db')) as [partial Hupdate].
  { set_unfold in Hm. destruct Hm as [Hm|[Hm|[]]]; rewrite Hm in Hresp; eauto. }
  clear Hresp. unfold RecipeViewSet_update, get_object in Hupdate.
  destruct (get_object_or_404 recipe_pk (recipes db) pk) as [old|e] eqn:Hget.
  2:{ injection Hupdate as <- _. by apply handle_exception_not_200 in H200. }
  apply get_object_or_404_pk in Hget as Hold. destruct Hold as [Hpk Hin].
  unfold mbind, result_bind in Hupdate.
  destruct (check_object_permissions _ request old) as [[]|e].
  2:{ injection Hupdate as <- _. by apply handle_exception_not_200 in H200. }
  destruct (to_internal_value fw partial db d) as [v|e] eqn:Hv.
  2:{ injection Hupdate as <- _. by apply handle_exception_not_200 in H200. }
  destruct (update fw old v db) as [[recipe|e] db1] eqn:Hu.
  2:{ injection Hupdate as <- _. by apply handle_exception_not_200 in H200. }
  injection Hupdate as <- <-.
  apply update_Ok in Hu as Hassoc.
  destruct Hassoc as (chosen & items & Hvt & Hvi & _).
  apply update_Ok_recipes in Hu as (Hrecipe & Hrecipes & Hrest);
    [|apply list_elem_of_fmap; eauto].
  apply to_internal_value_Ok in Hv as (_ & _ & Hc & Hn & Him & Htx & Ha).
  apply run_field_text_Ok in Hn, Htx.
  rewrite Ha, Hn, Htx in Hrecipe. cbn [from_option] in Hrecipe.
  exists old, recipe. split; [done|]. split; [done|].
  rewrite Hpk in Hrecipe, Hrecipes.
  split; [by subst recipe|]. split; [by subst recipe|].
  split.
  { apply run_field_Ok in Hc
      as [(Hnone & _ & Hvc)|(ct & ct' & Hsome & Hval & Hvc)].
    - rewrite Hnone. rewrite Hvc in Hrecipe. by subst recipe.
    - apply validate_cooking_time_Ok in Hval as [-> _].
      rewrite Hsome. rewrite Hvc in Hrecipe. by subst recipe. }
  split; [by subst recipe|]. split.
  { apply run_field_with_Ok in Him
      as [(Hnone & _ & Hvim)|(data & file & Hsome & Hval & Hvim)].
    - rewrite Hnone. rewrite Hvim in Hrecipe. by subst recipe.
    - rewrite Hsome. exists file. split; [done|].
      rewrite Hvim in Hrecipe. by subst recipe. }
  split; [by subst recipe|]. done.
Qed.

Lemma update_keeps_identity_witness :
  ∃ response db' old recipe,
    respond (RecipeViewSet sample_framework (mkRequest PUT (Some alice) [])
               (Some 10) crepes_data sample_db) = (response, db')
    ∧ get_object_or_404 recipe_pk (recipes sample_db) 10 = Ok old
    ∧ data response = RecipeReadData recipe
    ∧ recipe_pk recipe = 10
    ∧ recipe_author recipe = recipe_author old
    ∧ recipe_cooking_time recipe
      = default (recipe_cooking_time old) (data_cooking_time crepes_data)
    ∧ recipe_name recipe
      = default (recipe_name old) (strip <$> data_name crepes_data)
    ∧ match data_image crepes_data with
      | None => recipe_image recipe = recipe_image old
      | Some data =>
          ∃ file, image_field sample_framework data = Ok file
                  ∧ recipe_image recipe = storage_save sample_framework file
      end
    ∧ recipe_text recipe
      = default (recipe_text old) (strip <$> data_text crepes_data)
    ∧ recipes db'
      = (λ row, if bool_decide (recipe_pk row = 10) then recipe else row)
        <$> recipes sample_db
    ∧ users db' = users sample_db ∧ subscribes db' = subscribes sample_db
    ∧ tags db' = tags sample_db ∧ ingredients db' = ingredients sample_db
    ∧ favourites db' = favourites sample_db
    ∧ shopping_carts db' = shopping_carts sample_db.
Proof.
  destruct (respond (RecipeViewSet sample_framework
                       (mkRequest PUT (Some alice) []) (Some 10)
                       crepes_data sample_db)) as [response db'] eqn:Hresp.
  destruct (update_keeps_identity sample_framework
              (mkRequest PUT (Some alice) []) 10
              crepes_data sample_db response db') as (old & recipe & Hrest).
  - by apply (bool_decide_unpack _).
  - done.
  - vm_compute in Hresp. by injection Hresp as <- _.
  - exists response, db', old, recipe. split; [done|]. exact Hrest.
Defined.

(** ** Invariants of the recipe routes *)

Section RecipeInvariants.

Implicit Types (db : Store) (d : RecipeData) (request : Request).

Lemma NoDup_fmap_filter {A} (pk_of : A → Z) (P : A → Prop)
  `{∀ x, Decision (P x)} (rows : list A) :
  NoDup (pk_of <$> rows) → NoDup (pk_of <$> filter P rows).
Proof.
  induction rows as [|row rows IH]; [done|].
  rewrite fmap_cons, NoDup_cons. intros [Hnot Hnd].
  rewrite filter_cons. case_decide; [|by apply IH].
  rewrite fmap_cons. apply NoDup_cons. split; [|by apply IH].
  intros Hin. apply Hnot. apply list_elem_of_fmap in Hin as (x & -> & Hx).
  apply list_elem_of_filter in Hx as [_ Hx]. apply list_elem_of_fmap. eauto.
Qed.

(** A row that [set] leaves in the through table was there before or
    belongs to the recipe. *)
Lemma m2m_set_rows r objs through row :
  row ∈ m2m_set r objs through → row ∈ through ∨ row.1 = r.
Proof.
  unfold m2m_set.
  destruct (m2m_set_loop objs (remove_dups (m2m_ids r through)) [])
    as [old_ids new_objs].
  unfold m2m_add, m2m_remove. rewrite elem_of_app. intros [Hin|Hin].
  - apply list_elem_of_filter in Hin as [_ Hin]. by left.
  - apply list_elem_of_fmap in Hin as (t & -> & _). by right.
Qed.

End RecipeInvariants.

(** X6.  No request on the recipe routes breaks the uniqueness of primary
    keys: creation takes a key above all keys in use, update rewrites a row
    under its own key, deletion only removes a row. *)
Theorem recipe_routes_keep_keys_unique (fw : Framework) (request : Request) (pk : option Z)
  (d : RecipeData) (db : Store) :
  pk_unique db →
  pk_unique (snd (respond (RecipeViewSet fw request pk d db))).
Proof.
  intros Hunique.
  destruct (respond (RecipeViewSet fw request pk d db)) as [response db'] eqn:Hr.
  simpl.
  destruct (decide (400 ≤ status_code response)) as [Hfail|Hok].
  { pose proof (failed_request_keeps_database (fw := fw) request pk d db)
      as Hsame.
    rewrite Hr in Hsame. simpl in Hsame. by rewrite Hsame. }
  unfold RecipeViewSet in Hr.
  destruct (check_permissions _ request) as [[]|e].
  2:{ injection Hr as <- <-. done. }
  assert (∀ partial key,
            respond (RecipeViewSet_update fw partial request key d db)
            = (response, db') → pk_unique db') as Hupdate.
  { intros partial key Hu. unfold RecipeViewSet_update, get_object in Hu.
    destruct (get_object_or_404 recipe_pk (recipes db) key) as [old|e] eqn:Hg;
      [|by injection Hu as <- <-].
    apply get_object_or_404_pk in Hg as [_ Hin].
    unfold mbind, result_bind in Hu.
    destruct (check_object_permissions _ request old) as [[]|e];
      [|by injection Hu as <- <-].
    destruct (to_internal_value fw partial db d) as [v|e];
      [|by injection Hu as <- <-].
    destruct (update fw old v db) as [[recipe|e] db1] eqn:Hupd.
    2:{ apply update_Raise in Hupd as ->. by injection Hu as <- <-. }
    injection Hu as <- <-.
    apply update_Ok_recipes in Hupd
      as (Hrecipe & Hrecipes & Hu' & _ & Ht & Hi & _);
      [|apply list_elem_of_fmap; eauto].
    destruct Hunique as (H1 & H2 & H3 & H4).
    unfold pk_unique. rewrite Hu', Ht, Hi, Hrecipes.
    split; [done|]. split; [done|]. split; [done|].
    assert (recipe_pk recipe = recipe_pk old) as Hpk by by subst recipe.
    rewrite <- Hpk. by rewrite replace_keeps_pks. }
  destruct (method request), pk as [key|]; simpl in Hr;
    try (by injection Hr as <- <-); try (by eapply Hupdate).
  - unfold RecipeViewSet_retrieve in Hr.
    destruct (get_object request key db); by injection Hr as <- <-.
  - unfold RecipeViewSet_retrieve in Hr.
    destruct (get_object request key db); by injection Hr as <- <-.
  - unfold RecipeViewSet_create in Hr.
    destruct (to_internal_value fw false db d) as [v|e];
      [|by injection Hr as <- <-].
    destruct (user request) as [u|]; [|by injection Hr as <- <-].
    destruct (create fw (with_author u v) db) as [[recipe|e] db1] eqn:Hc.
    2:{ apply create_Raise in Hc as ->. by injection Hr as <- <-. }
    injection Hr as <- <-.
    apply create_Ok in Hc as (chosen & items & a & ct & _ & _ & _ & _ & Hrec
                              & ->).
    destruct Hunique as (H1 & H2 & H3 & H4).
    split; [done|]. split; [done|]. split; [done|]. simpl.
    rewrite fmap_app. apply NoDup_app. split; [done|].
    split; [|apply NoDup_singleton].
    intros x Hx Hx'. simpl in Hx'. apply list_elem_of_singleton in Hx'.
    subst x recipe. simpl in Hx. by apply next_pk_fresh in Hx.
  - unfold RecipeViewSet_destroy in Hr.
    destruct (get_object request key db) as [instance|e];
      [|by injection Hr as <- <-].
    injection Hr as <- <-.
    destruct Hunique as (H1 & H2 & H3 & H4).
    split; [done|]. split; [done|]. split; [done|]. simpl.
    by apply NoDup_fmap_filter.
Qed.

Lemma recipe_routes_keep_keys_unique_witness :
  pk_unique (snd (respond (RecipeViewSet sample_framework (mkRequest POST (Some bob) []) None
                             crepes_data sample_db))).
Proof.
  apply (recipe_routes_keep_keys_unique sample_framework). by apply (bool_decide_unpack _).
Defined.

(** X7.  Creation and update keep the association tables consistent: when
    every tag row, ingredient row, favourite and cart row names a stored
    recipe before a GET, POST, PUT or PATCH on the recipe routes, the same
    holds afterwards. *)
Theorem recipe_writes_keep_references (fw : Framework) (request : Request) (pk : option Z)
  (d : RecipeData) (db : Store) :
  method request ≠ DELETE → references_ok db →
  references_ok (snd (respond (RecipeViewSet fw request pk d db))).
Proof.
  intros Hm Href.
  destruct (respond (RecipeViewSet fw request pk d db)) as [response db'] eqn:Hr.
  simpl.
  destruct (decide (400 ≤ status_code response)) as [Hfail|Hok].
  { pose proof (failed_request_keeps_database (fw := fw) request pk d db)
      as Hsame.
    rewrite Hr in Hsame. simpl in Hsame. by rewrite Hsame. }
  unfold RecipeViewSet in Hr.
  destruct (check_permissions _ request) as [[]|e].
  2:{ injection Hr as <- <-. done. }
  assert (∀ partial key,
            respond (RecipeViewSet_update fw partial request key d db)
            = (response, db') → references_ok db') as Hupdate.
  { intros partial key Hu. unfold RecipeViewSet_update, get_object in Hu.
    destruct (get_object_or_404 recipe_pk (recipes db) key) as [old|e] eqn:Hg;
      [|by injection Hu as <- <-].
    apply get_object_or_404_pk in Hg as [_ Hin].
    unfold mbind, result_bind in Hu.
    destruct (check_object_permissions _ request old) as [[]|e];
      [|by injection Hu as <- <-].
    destruct (to_internal_value fw partial db d) as [v|e];
      [|by injection Hu as <- <-].
    destruct (update fw old v db) as [[recipe|e] db1] eqn:Hupd.
    2:{ apply update_Raise in Hupd as ->. by injection Hu as <- <-. }
    injection Hu as <- <-.
    apply update_Ok in Hupd as Hassoc.
    destruct Hassoc as (chosen & items & _ & _ & _ & Hrt & Hiir).
    apply update_Ok_recipes in Hupd
      as (Hrecipe & Hrecipes & _ & _ & _ & _ & Hfav & Hcart);
      [|apply list_elem_of_fmap; eauto].
    assert (recipe_pk <$> recipes db1 = recipe_pk <$> recipes db) as Hpks.
    { rewrite Hrecipes.
      assert (recipe_pk recipe = recipe_pk old) as Hpk by by subst recipe.
      rewrite <- Hpk. by rewrite replace_keeps_pks. }
    assert (recipe_pk old ∈ recipe_pk <$> recipes db) as Hold
      by (apply list_elem_of_fmap; eauto).
    destruct Href as (H1 & H2 & H3 & H4).
    unfold references_ok. rewrite Hpks, Hrt, Hiir, Hfav, Hcart.
    split; [|split; [|done]].
    - apply Forall_app. split.
      + unfold m2m_clear. rewrite Forall_forall in H1.
        apply Forall_forall. intros row Hrow.
        apply list_elem_of_filter in Hrow as [_ Hrow]. by apply H1.
      + apply Forall_forall. intros row Hrow.
        by apply list_elem_of_fmap in Hrow as (t & -> & _).
    - apply Forall_app. split.
      + rewrite Forall_forall in H2. apply Forall_forall. intros row Hrow.
        apply list_elem_of_filter in Hrow as [_ Hrow]. by apply H2.
      + apply Forall_forall. intros row Hrow.
        by apply list_elem_of_fmap in Hrow as (t & -> & _). }
  destruct (method request), pk as [key|]; simpl in Hr; try done;
    try (by injection Hr as <- <-); try (by eapply Hupdate).
  - unfold RecipeViewSet_retrieve in Hr.
    destruct (get_object request key db); by injection Hr as <- <-.
  - unfold RecipeViewSet_retrieve in Hr.
    destruct (get_object request key db); by injection Hr as <- <-.
  - unfold RecipeViewSet_create in Hr.
    destruct (to_internal_value fw false db d) as [v|e];
      [|by injection Hr as <- <-].
    destruct (user request) as [u|]; [|by injection Hr as <- <-].
    destruct (create fw (with_author u v) db) as [[recipe|e] db1] eqn:Hc.
    2:{ apply create_Raise in Hc as ->. by injection Hr as <- <-. }
    injection Hr as <- <-.
    apply create_Ok in Hc as (chosen & items & a & ct & _ & _ & _ & _ & _
                              & ->).
    destruct Href as (H1 & H2 & H3 & H4).
    assert (∀ x, x ∈ recipe_pk <$> recipes db →
              x ∈ recipe_pk <$> (recipes db ++ [recipe])) as Hmono.
    { intros x Hx. rewrite fmap_app, elem_of_app. by left. }
    assert (recipe_pk recipe ∈ recipe_pk <$> (recipes db ++ [recipe]))
      as Hnew.
    { rewrite fmap_app, elem_of_app. right. apply list_elem_of_here. }
    unfold references_ok. simpl.
    split; [|split; [|split]].
    + apply Forall_forall. intros row Hrow.
      apply m2m_set_rows in Hrow as [Hrow| ->]; [|done].
      rewrite Forall_forall in H1. by apply Hmono, H1.
    + apply Forall_app. split.
      * eapply Forall_impl; [exact H2|]. intros row. apply Hmono.
      * apply Forall_forall. intros row Hrow.
        by apply list_elem_of_fmap in Hrow as (t & -> & _).
    + eapply Forall_impl; [exact H3|]. intros row. apply Hmono.
    + eapply Forall_impl; [exact H4|]. intros row. apply Hmono.
Qed.

Lemma recipe_writes_keep_references_witness :
  references_ok
    (snd (respond (RecipeViewSet sample_framework (mkRequest PUT (Some alice) []) (Some 10)
                     crepes_data sample_db))).
Proof.
  apply (recipe_writes_keep_references sample_framework); [done|].
  by apply (bool_decide_unpack _).
Defined.

(** ** Favourites and cart: invariants, round trip, flags *)

Section ToggleMore.

Implicit Types (model : RelModel) (db : Store) (request : Request).

Lemma not_success_raise e db :
  status_code (fst (respond (Raise e, db)))
  ∉ [HTTP_201_CREATED; HTTP_204_NO_CONTENT].
Proof.
  simpl. pose proof (handle_exception_status e) as Hs.
  set_unfold. unfold HTTP_201_CREATED, HTTP_204_NO_CONTENT. lia.
Qed.

Lemma toggle_action_cases model request pk db :
  (∃ response,
     toggle_action model request pk db = (response, db)
     ∧ status_code (fst (respond (response, db)))
       ∉ [HTTP_201_CREATED; HTTP_204_NO_CONTENT])
  ∨ (∃ u recipe,
       user request = Some u ∧ method request = POST
       ∧ filter_user_recipe (user_pk u) pk (objects model db) = []
       ∧ get_object_or_404 recipe_pk (recipes db) pk = Ok recipe
       ∧ toggle_action model request pk db
         = (Ok (mkResponse HTTP_201_CREATED (RecipeShortData recipe)),
            with_objects model
              (objects model db ++ [mkUserRecipe (user_pk u) pk]) db))
  ∨ (∃ u,
       user request = Some u ∧ method request = DELETE
       ∧ filter_user_recipe (user_pk u) pk (objects model db) ≠ []
       ∧ toggle_action model request pk db
         = (Ok (mkResponse HTTP_204_NO_CONTENT NoBody),
            with_objects model
              (delete_user_recipe (user_pk u) pk (objects model db)) db)).
Proof.
  assert (∀ s b, s ∈ [HTTP_200_OK; HTTP_400_BAD_REQUEST] →
            status_code (fst (respond (Ok (mkResponse s b), db)))
            ∉ [HTTP_201_CREATED; HTTP_204_NO_CONTENT]) as Hok.
  { intros s b Hs. simpl. set_unfold.
    unfold HTTP_200_OK, HTTP_400_BAD_REQUEST, HTTP_201_CREATED,
      HTTP_204_NO_CONTENT in *. lia. }
  destruct (user request) as [u|] eqn:Hu.
  2:{ left. destruct model; unfold toggle_action, favorite, shopping_cart,
        post_delete_action; simpl; rewrite Hu; simpl; eexists;
        (split; [reflexivity|apply not_success_raise]). }
  rewrite (toggle_action_authenticated model request u pk db Hu).
  destruct (method request) eqn:Hm;
    try (left; eexists; split; [reflexivity|];
         (apply not_success_raise || (apply Hok; set_solver)); fail).
  - unfold _add_to.
    destruct (filter_user_recipe (user_pk u) pk (objects model db))
      as [|row rows] eqn:Hf.
    2:{ left. eexists. split; [reflexivity|]. apply Hok. set_solver. }
    simpl.
    destruct (get_object_or_404 recipe_pk (recipes db) pk) as [recipe|e]
      eqn:Hget.
    2:{ left. eexists. split; [reflexivity|]. apply not_success_raise. }
    right; left. exists u, recipe.
    apply get_object_or_404_pk in Hget as Hpk. destruct Hpk as [-> _].
    done.
  - unfold _delete_from.
    destruct (filter_user_recipe (user_pk u) pk (objects model db))
      as [|row rows] eqn:Hf.
    { left. eexists. split; [reflexivity|]. apply Hok. set_solver. }
    right; right. exists u. by rewrite Hf.
Qed.

End ToggleMore.

(** X8.  Whatever the request, a favourite or cart action changes no table
    but its own, never stores a second row for a (user, recipe) pair, and
    never stores a row for a recipe that does not exist. *)
Theorem toggle_keeps_relation_sound (model : RelModel) (request : Request)
  (pk : Z) (db : Store) :
  NoDup (objects model db) →
  Forall (λ row, ur_recipe row ∈ recipe_pk <$> recipes db)
    (objects model db) →
  let db' := snd (respond (toggle_action model request pk db)) in
  NoDup (objects model db')
  ∧ Forall (λ row, ur_recipe row ∈ recipe_pk <$> recipes db')
      (objects model db')
  ∧ db' = with_objects model (objects model db') db.
Proof.
  intros Hnd Hfk.
  destruct (toggle_action_cases model request pk db)
    as [(response & -> & _)|[(u & recipe & _ & _ & Hnone & Hget & ->)
                            |(u & _ & _ & _ & ->)]]; simpl.
  - destruct response; simpl; by rewrite with_objects_objects.
  - rewrite objects_with_objects. split; [|split; [|done]].
    + apply NoDup_app. split; [done|]. split; [|apply NoDup_singleton].
      intros row Hrow Hrow'. apply list_elem_of_singleton in Hrow' as ->.
      assert (mkUserRecipe (user_pk u) pk
              ∈ filter_user_recipe (user_pk u) pk (objects model db)) as Hin
        by (by apply list_elem_of_filter).
      rewrite Hnone in Hin. by apply elem_of_nil in Hin.
    + assert (recipes (with_objects model
                         (objects model db ++ [mkUserRecipe (user_pk u) pk])
                         db) = recipes db) as -> by by destruct model.
      apply Forall_app. split; [done|]. apply Forall_singleton. simpl.
      apply get_object_or_404_pk in Hget as [<- Hin].
      apply list_elem_of_fmap. eauto.
  - rewrite objects_with_objects. split; [|split; [|done]].
    + unfold delete_user_recipe. by apply NoDup_filter.
    + assert (recipes (with_objects model
                         (delete_user_recipe (user_pk u) pk
                            (objects model db)) db) = recipes db) as ->
        by by destruct model.
      unfold delete_user_recipe. rewrite Forall_forall in Hfk.
      apply Forall_forall. intros row Hrow.
      apply list_elem_of_filter in Hrow as [_ Hrow]. by apply Hfk.
Qed.

Lemma toggle_keeps_relation_sound_witness :
  let db' :=
    snd (respond (toggle_action Favourite (mkRequest POST (Some bob) []) 11
                    sample_db)) in
  NoDup (objects Favourite db')
  ∧ Forall (λ row, ur_recipe row ∈ recipe_pk <$> recipes db')
      (objects Favourite db')
  ∧ db' = with_objects Favourite (objects Favourite db') sample_db.
Proof.
  apply toggle_keeps_relation_sound; by apply (bool_decide_unpack _).
Defined.

(** X9.  Adding and then removing is a round trip: when a POST by a user
    is answered with 201, the DELETE of the same user on the same recipe is
    answered with 204 and leaves the database exactly as it was before the
    POST. *)
Theorem toggle_add_then_remove (model : RelModel) (request : Request)
  (pk : Z) (db : Store) :
  method request = POST →
  status_code (fst (respond (toggle_action model request pk db)))
  = HTTP_201_CREATED →
  let db1 := snd (respond (toggle_action model request pk db)) in
  respond (toggle_action model (with_method DELETE request) pk db1)
  = (mkResponse HTTP_204_NO_CONTENT NoBody, db).
Proof.
  intros Hm H201.
  destruct (toggle_action_cases model request pk db)
    as [(response & Hr & Hno)|[(u & recipe & Hu & _ & Hnone & Hget & Hr)
                              |(u & _ & Hd & _)]]; [| |congruence].
  { exfalso. rewrite Hr in H201. apply Hno. rewrite H201.
    apply list_elem_of_here. }
  rewrite Hr. simpl.
  rewrite (toggle_action_authenticated model (with_method DELETE request) u
             pk _ Hu). simpl.
  unfold _delete_from. rewrite objects_with_objects.
  rewrite filter_user_recipe_app, Hnone. simpl.
  unfold filter_user_recipe at 1. rewrite filter_cons_True by done. simpl.
  f_equal. rewrite with_objects_twice.
  assert (delete_user_recipe (user_pk u) pk
            (objects model db ++ [mkUserRecipe (user_pk u) pk])
          = objects model db) as ->.
  { unfold delete_user_recipe. rewrite filter_app.
    rewrite (filter_none _ [_]).
    - rewrite app_nil_r. apply filter_all. intros row Hrow Hmatch.
      assert (row ∈ filter_user_recipe (user_pk u) pk (objects model db))
        as Hin by (by apply list_elem_of_filter).
      rewrite Hnone in Hin. by apply elem_of_nil in Hin.
    - intros row Hrow. apply list_elem_of_singleton in Hrow as ->.
      simpl. tauto. }
  apply with_objects_objects.
Qed.

Lemma toggle_add_then_remove_witness :
  respond (toggle_action Favourite
             (with_method DELETE (mkRequest POST (Some bob) [])) 11
             (snd (respond (toggle_action Favourite
                              (mkRequest POST (Some bob) []) 11 sample_db))))
  = (mkResponse HTTP_204_NO_CONTENT NoBody, sample_db).
Proof.
  by apply (toggle_add_then_remove Favourite (mkRequest POST (Some bob) [])
              11 sample_db).
Defined.

Lemma relation_flag_authenticated (model : RelModel) (request : Request)
  (u : User) (obj : Recipe) (db : Store) :
  user request = Some u →
  relation_flag model request obj db
  = exists_ (filter_user_recipe (user_pk u) (recipe_pk obj)
               (objects model db)).
Proof.
  intros Hu. destruct model; simpl;
    unfold get_is_favorited, get_is_in_shopping_cart; by rewrite Hu.
Qed.

(** X10.  The flags [is_favorited] and [is_in_shopping_cart] of the read
    serializer follow the actions: they are false for an anonymous reader;
    for the sender of a POST answered with 201 the flag of the recipe was
    false and is true afterwards; for the sender of a DELETE answered with
    204 it was true and is false afterwards; after any other answer it is
    what it was. *)
Theorem relation_flag_follows_toggle (model : RelModel) (request : Request)
  (obj : Recipe) (db : Store) :
  let response := fst (respond (toggle_action model request (recipe_pk obj)
                                  db)) in
  let db' := snd (respond (toggle_action model request (recipe_pk obj) db)) in
  (user request = None → relation_flag model request obj db = false)
  ∧ (status_code response = HTTP_201_CREATED →
     relation_flag model request obj db = false
     ∧ relation_flag model request obj db' = true)
  ∧ (status_code response = HTTP_204_NO_CONTENT →
     relation_flag model request obj db = true
     ∧ relation_flag model request obj db' = false)
  ∧ (status_code response ∉ [HTTP_201_CREATED; HTTP_204_NO_CONTENT] →
     relation_flag model request obj db'
     = relation_flag model request obj db).
Proof.
  intros response db'. subst response db'.
  split.
  { intros Hanon. destruct model; simpl;
      unfold get_is_favorited, get_is_in_shopping_cart; by rewrite Hanon. }
  destruct (toggle_action_cases model request (recipe_pk obj) db)
    as [(response & -> & Hno)|[(u & recipe & Hu & _ & Hnone & Hget & ->)
                              |(u & Hu & _ & Hsome & ->)]].
  - assert (snd (respond (response, db)) = db) as -> by by destruct response.
    split; [|split; [|done]]; intros Hs; exfalso; apply Hno; rewrite Hs;
      set_solver.
  - simpl. rewrite !(relation_flag_authenticated model request u) by done.
    rewrite objects_with_objects, filter_user_recipe_app, Hnone. simpl.
    unfold filter_user_recipe. rewrite filter_cons_True by done.
    split; [done|]. split; [by vm_compute|].
    intros Hno. exfalso. apply Hno. apply list_elem_of_here.
  - simpl. rewrite !(relation_flag_authenticated model request u) by done.
    rewrite objects_with_objects, filter_user_recipe_delete.
    destruct (filter_user_recipe (user_pk u) (recipe_pk obj)
                (objects model db)) as [|row rows]; [done|].
    split; [by vm_compute|]. split; [done|].
    intros Hno. exfalso. apply Hno. set_solver.
Qed.

Lemma relation_flag_follows_toggle_witness :
  get_is_favorited (mkRequest POST None []) omelette sample_db = false
  ∧ get_is_favorited (mkRequest POST (Some bob) []) omelette sample_db = false
  ∧ get_is_favorited (mkRequest POST (Some bob) []) omelette
      (snd (respond (favorite (mkRequest POST (Some bob) []) 11 sample_db)))
    = true
  ∧ get_is_in_shopping_cart (mkRequest DELETE (Some bob) []) omelette
      sample_db = true
  ∧ get_is_in_shopping_cart (mkRequest DELETE (Some bob) []) omelette
      (snd (respond (shopping_cart (mkRequest DELETE (Some bob) []) 11
                       sample_db))) = false.
Proof.
  split.
  { destruct (relation_flag_follows_toggle Favourite (mkRequest POST None [])
                omelette sample_db) as [Hanon _]. by apply Hanon. }
  destruct (relation_flag_follows_toggle Favourite
              (mkRequest POST (Some bob) []) omelette sample_db)
    as (_ & Hadd & _).
  destruct (relation_flag_follows_toggle ShoppingCart
              (mkRequest DELETE (Some bob) []) omelette sample_db)
    as (_ & _ & Hdel & _).
  destruct Hadd as [H1 H2]; [done|]. destruct Hdel as [H3 H4]; [done|].
  done.
Defined.

(** ** Subscriptions *)

(** The ways a request on [subscribe] ends. *)
Lemma subscribe_cases (request : Request) (pk : Z) (db : Store) :
  (∃ response,
     respond (subscribe request pk db) = (response, db)
     ∧ status_code response ∉ [HTTP_201_CREATED; HTTP_204_NO_CONTENT])
  ∨ (∃ u author,
       user request = Some u ∧ method request = POST
       ∧ get_object_or_404 user_pk (users db) pk = Ok author
       ∧ user_pk u ≠ user_pk author
       ∧ filter_subscribe (user_pk u) (user_pk author) (subscribes db) = []
       ∧ respond (subscribe request pk db)
         = (mkResponse HTTP_201_CREATED (UserData author),
            with_subscribes
              (subscribes db ++ [mkSubscribe (user_pk u) (user_pk author)])
              db))
  ∨ (∃ u author row,
       user request = Some u ∧ method request = DELETE
       ∧ get_object_or_404 user_pk (users db) pk = Ok author
       ∧ filter_subscribe (user_pk u) (user_pk author) (subscribes db)
         = [row]
       ∧ respond (subscribe request pk db)
         = (mkResponse HTTP_204_NO_CONTENT (Text "Вы успешно отписались."),
            with_subscribes
              (filter (λ s, ¬ (sub_user s = user_pk u
                               ∧ sub_author s = user_pk author))
                 (subscribes db)) db)).
Proof.
  unfold subscribe.
  destruct (user request) as [u|] eqn:Hu.
  2:{ left. eexists. split; [done|]. by apply (bool_decide_unpack _). }
  destruct (get_object_or_404 user_pk (users db) pk) as [author|e] eqn:Hget.
  2:{ left. eexists. split; [done|]. simpl.
      destruct e; try (by apply (bool_decide_unpack _)).
      destruct d; by apply (bool_decide_unpack _). }
  case_bool_decide as Hpost.
  - case_bool_decide as Hself.
    { left. eexists. split; [done|]. by apply (bool_decide_unpack _). }
    destruct (filter_subscribe (user_pk u) (user_pk author) (subscribes db))
      as [|row rows] eqn:Hf.
    + right. left. by exists u, author.
    + left. eexists. split; [done|]. by apply (bool_decide_unpack _).
  - case_bool_decide as Hdelete.
    2:{ left. eexists. split; [done|]. by apply (bool_decide_unpack _). }
    unfold delete_subscription.
    destruct (filter_subscribe (user_pk u) (user_pk author) (subscribes db))
      as [|row [|row' rows]] eqn:Hf.
    + left. eexists. split; [done|]. by apply (bool_decide_unpack _).
    + right. right. by exists u, author, row.
    + left. eexists. split; [done|]. by apply (bool_decide_unpack _).
Qed.

Lemma with_subscribes_subscribes db : with_subscribes (subscribes db) db = db.
Proof. by destruct db. Qed.

Lemma filter_subscribe_none uid a rows :
  filter_subscribe uid a rows = [] →
  filter (λ s, ¬ (sub_user s = uid ∧ sub_author s = a)) rows = rows.
Proof.
  unfold filter_subscribe. intros Hnone. apply filter_all.
  intros s Hs Hmatch.
  assert (s ∈ filter (λ s, sub_user s = uid ∧ sub_author s = a) rows) as Hin
    by by apply list_elem_of_filter.
  rewrite Hnone in Hin. by apply elem_of_nil in Hin.
Qed.

(** X11.  Whatever the request, [subscribe] changes no table but
    [Subscribe], and it keeps the constraints of that table: no (user,
    author) pair occurs twice and no row subscribes a user to themselves.
    The check of the view comes before the insert, so the unique constraint
    of the model is never what refuses a request. *)
Theorem subscribe_keeps_table_sound (request : Request) (pk : Z)
  (db : Store) :
  subscribes_ok db →
  let db' := snd (respond (subscribe request pk db)) in
  subscribes_ok db' ∧ db' = with_subscribes (subscribes db') db.
Proof.
  intros [Hnodup Hself] db'. subst db'.
  destruct (subscribe_cases request pk db)
    as [(response & -> & _)|[(u & author & _ & _ & _ & Hne & Hnone & ->)
                            |(u & author & row & _ & _ & _ & _ & ->)]];
    simpl.
  - split; [done|]. by rewrite with_subscribes_subscribes.
  - split; [|done]. split; simpl.
    + apply NoDup_app. split; [done|]. split; [|apply NoDup_singleton].
      intros s Hs Hnew. apply list_elem_of_singleton in Hnew. subst s.
      assert (mkSubscribe (user_pk u) (user_pk author)
                ∈ filter_subscribe (user_pk u) (user_pk author)
                    (subscribes db)) as Hin
        by by apply list_elem_of_filter.
      rewrite Hnone in Hin. by apply elem_of_nil in Hin.
    + apply Forall_app. split; [done|]. by apply Forall_singleton.
  - split; [|done]. split; simpl.
    + by apply NoDup_filter.
    + apply Forall_forall. intros s Hs.
      apply list_elem_of_filter in Hs as [_ Hs].
      by apply (proj1 (Forall_forall _ _) Hself).
Qed.

Lemma subscribe_keeps_table_sound_witness :
  subscribes_ok
    (snd (respond (subscribe (mkRequest POST (Some bob) []) 1 sample_db)))
  ∧ snd (respond (subscribe (mkRequest POST (Some bob) []) 1 sample_db))
    = with_subscribes
        (subscribes
           (snd (respond (subscribe (mkRequest POST (Some bob) []) 1
                            sample_db)))) sample_db.
Proof.
  apply (subscribe_keeps_table_sound (mkRequest POST (Some bob) []) 1
           sample_db).
  by apply (bool_decide_unpack _).
Defined.

(** X12.  Subscribing and then unsubscribing is a round trip: when a POST
    is answered with 201, the DELETE of the same user on the same author is
    answered with 204 and leaves the database as it was before the POST. *)
Theorem subscribe_then_unsubscribe (request : Request) (pk : Z)
  (db : Store) :
  method request = POST →
  status_code (fst (respond (subscribe request pk db))) = HTTP_201_CREATED →
  respond (subscribe (with_method DELETE request) pk
             (snd (respond (subscribe request pk db))))
  = (mkResponse HTTP_204_NO_CONTENT (Text "Вы успешно отписались."), db).
Proof.
  intros Hm H201.
  destruct (subscribe_cases request pk db)
    as [(response & Hr & Hno)|[(u & author & Hu & _ & Hget & Hne & Hnone & Hr)
                              |(u & author & row & _ & Hd & _)]].
  - exfalso. rewrite Hr in H201. simpl in H201. apply Hno. rewrite H201.
    apply list_elem_of_here.
  - rewrite Hr. cbn [snd]. unfold subscribe, with_method. cbn [user method].
    rewrite Hu. cbn [users with_subscribes]. rewrite Hget.
    rewrite bool_decide_eq_false_2 by done.
    rewrite bool_decide_eq_true_2 by done.
    unfold delete_subscription. cbn [subscribes with_subscribes].
    unfold filter_subscribe in *. rewrite !filter_app, Hnone.
    rewrite (filter_subscribe_none _ _ _ Hnone).
    cbn [filter list_filter app].
    rewrite decide_True by done.
    rewrite decide_False by (intros Hn; by apply Hn).
    cbn [exists_ negb app respond]. rewrite app_nil_r.
    f_equal. by destruct db.
  - congruence.
Qed.

Lemma subscribe_then_unsubscribe_witness :
  respond (subscribe (mkRequest DELETE (Some bob) []) 1
             (snd (respond (subscribe (mkRequest POST (Some bob) []) 1
                              sample_db))))
  = (mkResponse HTTP_204_NO_CONTENT (Text "Вы успешно отписались."),
     sample_db).
Proof.
  by apply (subscribe_then_unsubscribe (mkRequest POST (Some bob) []) 1
              sample_db).
Defined.

Lemma following_filter_subscribe uid a rows :
  filter (λ s, sub_user s = uid) (filter (λ s, sub_author s = a) rows)
  = filter_subscribe uid a rows.
Proof.
  unfold filter_subscribe. induction rows as [|s rows IH]; [done|].
  rewrite !filter_cons.
  destruct (decide (sub_author s = a)) as [Ha|Ha].
  - rewrite filter_cons.
    destruct (decide (sub_user s = uid)) as [Hu|Hu].
    + rewrite decide_True by done. by rewrite IH.
    + rewrite decide_False by (intros [? ?]; done). done.
  - rewrite decide_False by (intros [? ?]; done). done.
Qed.

(** X13.  [is_subscribed] in the two user serializers.  With a request in
    the context they agree; without one [CustomUserSerializer] answers false
    and [SubscriptionSerializer] raises [KeyError].  The flag follows the
    view: for the sender of a POST answered with 201 it was false for the
    author and is true afterwards, for the sender of a DELETE answered with
    204 it was true and is false afterwards. *)
Theorem is_subscribed_follows_subscribe (request : Request) (author : User)
  (db : Store) :
  let response := fst (respond (subscribe request (user_pk author) db)) in
  let db' := snd (respond (subscribe request (user_pk author) db)) in
  let flag := CustomUserSerializer_get_is_subscribed (Some request) author in
  get_object_or_404 user_pk (users db) (user_pk author) = Ok author →
  (∀ db0, SubscriptionSerializer_get_is_subscribed (Some request) author db0
          = Ok (flag db0))
  ∧ CustomUserSerializer_get_is_subscribed None author db = false
  ∧ SubscriptionSerializer_get_is_subscribed None author db
    = Raise (KeyError "request")
  ∧ (status_code response = HTTP_201_CREATED →
     flag db = false ∧ flag db' = true)
  ∧ (status_code response = HTTP_204_NO_CONTENT →
     flag db = true ∧ flag db' = false).
Proof.
  intros response db' flag Hauthor. subst response db' flag.
  split.
  { intros db0. simpl. destruct (user request) as [u|]; [|done].
    by rewrite following_filter_subscribe. }
  split; [done|]. split; [done|].
  destruct (subscribe_cases request (user_pk author) db)
    as [(response & -> & Hno)|[(u & a & Hu & _ & Hget & _ & Hnone & ->)
                              |(u & a & row & Hu & _ & Hget & Hrow & ->)]].
  - split; intros Hs; exfalso; apply Hno; simpl in Hs; rewrite Hs;
      set_solver.
  - rewrite Hauthor in Hget. injection Hget as <-.
    simpl. rewrite Hu. unfold filter_subscribe in *.
    rewrite filter_app, Hnone. simpl.
    rewrite filter_cons_True by done.
    split; [done|]. intros Hs. by vm_compute in Hs.
  - rewrite Hauthor in Hget. injection Hget as <-.
    simpl. rewrite Hu. rewrite filter_subscribe_deleted, Hrow.
    split; [intros Hs; by vm_compute in Hs|done].
Qed.

Lemma is_subscribed_follows_subscribe_witness :
  CustomUserSerializer_get_is_subscribed
    (Some (mkRequest POST (Some bob) [])) alice sample_db = false
  ∧ CustomUserSerializer_get_is_subscribed
      (Some (mkRequest POST (Some bob) [])) alice
      (snd (respond (subscribe (mkRequest POST (Some bob) []) 1 sample_db)))
    = true
  ∧ SubscriptionSerializer_get_is_subscribed
      (Some (mkRequest POST (Some bob) [])) alice following_db = Ok true.
Proof.
  destruct (is_subscribed_follows_subscribe (mkRequest POST (Some bob) [])
              alice sample_db) as (Hagree & _ & _ & Hadd & _); [done|].
  destruct Hadd as [H1 H2]; [done|].
  split; [exact H1|]. split; [exact H2|].
  rewrite Hagree. reflexivity.
Defined.

Lemma filter_subscribe_unique uid a rows :
  NoDup rows → (length (filter_subscribe uid a rows) ≤ 1)%nat.
Proof.
  unfold filter_subscribe. induction rows as [|s rows IH]; [simpl; lia|].
  rewrite NoDup_cons. intros [Hnot Hnd]. rewrite filter_cons.
  case_decide as Hs; [|by apply IH].
  assert (filter (λ s, sub_user s = uid ∧ sub_author s = a) rows = [])
    as ->; [|simpl; lia].
  apply filter_none. intros s' Hs' [Hu Ha]. apply Hnot.
  destruct Hs as [Hu' Ha']. destruct s, s'. simpl in *. by subst.
Qed.

(** [int] raises nothing but [ValueError]. *)
Lemma int_Raise (unicode_decimal : N → option Z) (s : pystr) (e : exn) :
  int unicode_decimal s = Raise e → e = ValueError.
Proof.
  unfold int. destruct (match strip s with [] => _ | _ => _ end) as [sign body].
  destruct (parse_digits _ _ _ _); by intros [= <-].
Qed.

(** With unique user keys and unique rows of [Subscribe], the view answers
    a key that is an integer with 201, 204, 400, 401 or 404. *)
Lemma subscribe_status (request : Request) (pk : Z) (db : Store) :
  pk_unique db → NoDup (subscribes db) →
  method request ∈ [POST; DELETE] →
  let status := status_code (fst (respond (subscribe request pk db))) in
  (status = HTTP_401_UNAUTHORIZED ↔ user request = None)
  ∧ (status = HTTP_404_NOT_FOUND
     ↔ user request ≠ None ∧ pk ∉ user_pk <$> users db)
  ∧ status ∈ [HTTP_201_CREATED; HTTP_204_NO_CONTENT; HTTP_400_BAD_REQUEST;
              HTTP_401_UNAUTHORIZED; HTTP_404_NOT_FOUND].
Proof.
  intros (Husers & _) Hnodup Hmethod status. subst status.
  unfold subscribe.
  destruct (user request) as [u|] eqn:Hu.
  2:{ simpl. split; [done|]. split; [|by apply (bool_decide_unpack _)].
      split; [done|]. by intros [? _]. }
  destruct (get_object_or_404 user_pk (users db) pk) as [author|e] eqn:Hget.
  2:{ apply get_object_or_404_raise in Hget as [-> Hnot]; [|done].
      simpl. split; [done|]. split; [done|].
      by apply (bool_decide_unpack _). }
  assert (pk ∈ user_pk <$> users db) as Hin.
  { apply get_object_or_404_pk in Hget as [<- Hrow].
    by apply list_elem_of_fmap_2. }
  assert (∀ response : Response,
            status_code response ∈ [HTTP_201_CREATED; HTTP_204_NO_CONTENT;
                                    HTTP_400_BAD_REQUEST] →
            (status_code response = HTTP_401_UNAUTHORIZED ↔ Some u = None)
            ∧ (status_code response = HTTP_404_NOT_FOUND
               ↔ Some u ≠ None ∧ pk ∉ user_pk <$> users db)
            ∧ status_code response
              ∈ [HTTP_201_CREATED; HTTP_204_NO_CONTENT; HTTP_400_BAD_REQUEST;
                 HTTP_401_UNAUTHORIZED; HTTP_404_NOT_FOUND]) as Hfine.
  { intros response Hs. split; [|split].
    - split; [|done]. intros H401. rewrite H401 in Hs.
      by apply (bool_decide_pack _) in Hs.
    - split; [|by intros [_ ?]]. intros H404. rewrite H404 in Hs.
      by apply (bool_decide_pack _) in Hs.
    - rewrite !elem_of_cons in Hs. rewrite !elem_of_cons.
      tauto. }
  pose proof (filter_subscribe_unique (user_pk u) (user_pk author) _ Hnodup)
    as Hlen.
  case_bool_decide as Hpost.
  - case_bool_decide as Hself;
      [apply Hfine; by apply (bool_decide_unpack _)|].
    destruct (exists_ _); apply Hfine; by apply (bool_decide_unpack _).
  - case_bool_decide as Hdelete.
    2:{ exfalso. rewrite !elem_of_cons in Hmethod.
        destruct Hmethod as [?|[?|Hnil]]; [done..|].
        by apply elem_of_nil in Hnil. }
    unfold delete_subscription.
    destruct (filter_subscribe (user_pk u) (user_pk author) (subscribes db))
      as [|row [|row' rows]];
      [apply Hfine; by apply (bool_decide_unpack _)..|].
    simpl in Hlen. lia.
Qed.



Lemma filter_author_user uid a rows :
  filter (λ s, sub_author s = a ∧ sub_user s = uid) rows
  = filter_subscribe uid a rows.
Proof. unfold filter_subscribe. apply list_filter_iff. tauto. Qed.

(** X15.  [SubscribeSerializer.validate] and the POST branch of the view
    draw the same line, in a different order and with other messages: for an
    authenticated sender and an existing author, [validate] returns the data
    exactly when the view answers 201, and raises a validation error exactly
    when the view answers 400. *)
Theorem validate_agrees_with_view {A} (request : Request) (u author : User)
  (db : Store) (data : A) :
  user request = Some u → method request = POST →
  get_object_or_404 user_pk (users db) (user_pk author) = Ok author →
  let status :=
    status_code (fst (respond (subscribe request (user_pk author) db))) in
  (SubscribeSerializer_validate request author db data = Ok data
   ↔ status = HTTP_201_CREATED)
  ∧ ((∃ d, SubscribeSerializer_validate request author db data
           = Raise (ValidationError d))
     ↔ status = HTTP_400_BAD_REQUEST).
Proof.
  intros Hu Hm Hget status. subst status.
  unfold SubscribeSerializer_validate, subscribe.
  rewrite Hu, Hget, filter_author_user.
  rewrite (bool_decide_eq_true_2 (method request = POST)) by done.
  destruct (exists_ _), (bool_decide (user_pk u = user_pk author)); simpl;
    (split; [split; intros; done || (by eexists)
            |split; [intros [d Hd]; done || (by eexists)
                    |intros; done || (by eexists)]]).
Qed.

Lemma validate_agrees_with_view_witness :
  (SubscribeSerializer_validate (mkRequest POST (Some bob) []) alice
     following_db () = Ok ()
   ↔ status_code (fst (respond (subscribe (mkRequest POST (Some bob) []) 1
                                  following_db))) = HTTP_201_CREATED)
  ∧ ((∃ d, SubscribeSerializer_validate (mkRequest POST (Some bob) []) alice
             following_db () = Raise (ValidationError d))
     ↔ status_code (fst (respond (subscribe (mkRequest POST (Some bob) []) 1
                                    following_db))) = HTTP_400_BAD_REQUEST).
Proof.
  by apply (validate_agrees_with_view (mkRequest POST (Some bob) []) bob alice
              following_db ()).
Defined.

(** ** The list of subscriptions *)

#[global] Instance id_le_total : Total id_le.
Proof. intros a b. unfold id_le. lia. Qed.

#[global] Instance id_le_trans : Transitive id_le.
Proof. intros a b c. unfold id_le. lia. Qed.

Lemma fmap_fst_fst {A B C} (f : A → B) (g : A → C) (l : list A) :
  ((λ a, (a, f a, g a)) <$> l).*1.*1 = l.
Proof. induction l as [|a l IH]; [done|]. by rewrite !fmap_cons, IH. Qed.

(** The users listed are the followed ones, each as often as the user table
    holds it, in the order of their keys. *)
Lemma following_followed (u : User) (db : Store) :
  following u db
  ≡ₚ filter (λ a, mkSubscribe (user_pk u) (user_pk a) ∈ subscribes db)
       (users db)
  ∧ Sorted id_le (following u db).
Proof.
  unfold following, order_by_id. split; [|apply Sorted_merge_sort; apply _].
  rewrite merge_sort_Permutation.
  erewrite list_filter_iff; [done|]. intros a. simpl.
  rewrite list_elem_of_fmap. split.
  - intros (s & Ha & Hs). apply list_elem_of_filter in Hs as [Hu Hs].
    destruct s as [su sa]. simpl in *. by subst.
  - intros Hs. exists (mkSubscribe (user_pk u) (user_pk a)).
    split; [done|]. by apply list_elem_of_filter.
Qed.

Section Subscriptions.

Variable unicode_decimal : N → option Z.
Variable paginate_queryset : Request → list User → result (list User).



End Subscriptions.



(** ** The shopping list counts every row once *)

Lemma group_add_sum {K} `{EqDecision K} (key : K) (amount : Z)
  (groups : list (K * Z)) :
  foldr Z.add 0 (snd <$> group_add key amount groups)
  = foldr Z.add 0 (snd <$> groups) + amount.
Proof.
  induction groups as [|[k total] groups IH]; [simpl; lia|].
  cbn [group_add]. case_decide; rewrite !fmap_cons; cbn [foldr snd]; [lia|].
  rewrite IH. lia.
Qed.

Lemma annotate_sum_sum {K} `{EqDecision K} (rows : list (K * Z)) :
  foldr Z.add 0 (snd <$> annotate_sum rows) = foldr Z.add 0 (snd <$> rows).
Proof.
  unfold annotate_sum.
  assert (∀ groups,
            foldr Z.add 0
              (snd <$> foldl (λ groups row, group_add row.1 row.2 groups)
                         groups rows)
            = foldr Z.add 0 (snd <$> groups)
              + foldr Z.add 0 (snd <$> rows)) as Hgen.
  { induction rows as [|[key amount] rows IH]; intros groups;
      [simpl; lia|].
    cbn [foldl]. rewrite IH, group_add_sum, fmap_cons. cbn [foldr snd].
    lia. }
  rewrite Hgen. simpl. lia.
Qed.

Lemma filter_cart_unique uid r (carts : list UserRecipe) :
  NoDup carts →
  filter (λ cart, ur_recipe cart = r ∧ ur_user cart = uid) carts
  = if decide (mkUserRecipe uid r ∈ carts) then [mkUserRecipe uid r] else [].
Proof.
  induction carts as [|c carts IH]; [done|].
  rewrite NoDup_cons. intros [Hnot Hnd]. rewrite filter_cons, IH by done.
  destruct (decide (ur_recipe c = r ∧ ur_user c = uid)) as [[Hr Hu]|Hc].
  - assert (c = mkUserRecipe uid r) as -> by (destruct c; simpl in *; congruence).
    rewrite decide_False by done.
    rewrite decide_True by apply list_elem_of_here. done.
  - destruct (decide (mkUserRecipe uid r ∈ carts)) as [Hin|Hout].
    + rewrite decide_True by (by apply list_elem_of_further). done.
    + rewrite decide_False; [done|].
      intros [Heq|Hin]%elem_of_cons; [|done]. subst c. by apply Hc.
Qed.

(** X18.  When no cart row occurs twice, ingredient keys are unique and
    every ingredient row names an ingredient of the table, the rows under the
    shopping list are the ingredient rows of the recipes in the user's cart,
    one for one and in their order, each with the name and unit of its
    ingredient; and the amounts on the list add up to the amounts of those
    rows, in whatever order the database returns the groups. *)
Theorem cart_rows_counted_once
  (query_order : list (pystr * pystr * Z) → list (pystr * pystr * Z))
  (u : User) (db : Store) :
  let carted :=
    filter (λ row, mkUserRecipe (user_pk u) (iir_recipe row)
                   ∈ shopping_carts db) (ingredient_in_recipe db) in
  (∀ groups, query_order groups ≡ₚ groups) →
  NoDup (shopping_carts db) →
  NoDup (ingredient_pk <$> ingredients db) →
  Forall (λ row, iir_ingredient row ∈ ingredient_pk <$> ingredients db)
    (ingredient_in_recipe db) →
  Forall2 (λ row out,
             ∃ i, i ∈ ingredients db
                  ∧ ingredient_pk i = iir_ingredient row
                  ∧ out = (ingredient_name i, ingredient_measurement_unit i,
                           iir_amount row))
    carted (cart_ingredient_rows u db)
  ∧ foldr Z.add 0 (snd <$> shopping_groups query_order u db)
    = foldr Z.add 0 (iir_amount <$> carted).
Proof.
  intros carted Hperm Hcarts Hpk Hknown. subst carted.
  unfold shopping_groups.
  rewrite (foldr_add_Permutation _ _ (fmap_Permutation snd _ _ (Hperm _))).
  rewrite annotate_sum_sum.
  unfold cart_ingredient_rows.
  induction (ingredient_in_recipe db) as [|row rows IH]; [by split|].
  apply Forall_cons in Hknown as [Hrow Hknown].
  destruct (IH Hknown) as [IH1 IH2]. clear IH.
  cbn [mbind list_bind]. rewrite filter_cons.
  rewrite (filter_cart_unique _ _ _ Hcarts).
  destruct (decide (mkUserRecipe (user_pk u) (iir_recipe row)
                      ∈ shopping_carts db)) as [Hin|Hout].
  - destruct (get_object_or_404_found ingredient_pk (ingredients db)
                (iir_ingredient row) Hpk Hrow) as (i & Hget & Hi & Hmem).
    unfold get_object_or_404 in Hget.
    destruct (filter (λ i, ingredient_pk i = iir_ingredient row)
                (ingredients db)) as [|i' [|i'' l]] eqn:Hf; [done| |done].
    injection Hget as ->. cbn [mbind list_bind app].
    split.
    + apply Forall2_cons. split; [by exists i|exact IH1].
    + rewrite !fmap_cons. cbn [foldr snd]. f_equal. exact IH2.
  - cbn [mbind list_bind app]. by split.
Qed.

Lemma cart_rows_counted_once_witness :
  Forall2 (λ row out,
             ∃ i, i ∈ ingredients sample_db
                  ∧ ingredient_pk i = iir_ingredient row
                  ∧ out = (ingredient_name i, ingredient_measurement_unit i,
                           iir_amount row))
    (filter (λ row, mkUserRecipe (user_pk bob) (iir_recipe row)
                    ∈ shopping_carts sample_db)
       (ingredient_in_recipe sample_db))
    (cart_ingredient_rows bob sample_db)
  ∧ foldr Z.add 0 (snd <$> shopping_groups reverse bob sample_db)
    = foldr Z.add 0
        (iir_amount
         <$> filter (λ row, mkUserRecipe (user_pk bob) (iir_recipe row)
                            ∈ shopping_carts sample_db)
               (ingredient_in_recipe sample_db)).
Proof.
  apply (cart_rows_counted_once reverse bob sample_db).
  - apply reverse_Permutation.
  - by apply (bool_decide_unpack _).
  - by apply (bool_decide_unpack _).
  - by apply (bool_decide_unpack _).
Defined.

(** ** The username field *)

(** X19.  What [UserSerializer.username] accepts, and what it returns: the
    value with surrounding white space removed, provided that this is not
    empty, has at most 150 characters, is the name of no user, begins with a
    character of the class [[\w.@+-]], and holds neither a null character nor
    a surrogate.  Of the pattern only the first character counts. *)
Theorem username_accepted_exactly (unicode_alnum : N → bool) (db : Store)
  (data value : pystr) :
  UserSerializer_username unicode_alnum db data = Ok value
  ↔ value = strip data
    ∧ (length value ≤ USERNAME_MAX_LENGTH)%nat
    ∧ (value ∉ user_username <$> users db)
    ∧ (∃ c rest, value = c :: rest ∧ username_class unicode_alnum c = true)
    ∧ (0%N ∉ value)
    ∧ Forall (λ c, ¬ (55296 ≤ c ≤ 57343)%N) value.
Proof.
  unfold UserSerializer_username, CharField.
  destruct (strip data) as [|c rest] eqn:Hstrip.
  { split; [done|]. by intros (-> & _ & _ & (? & ? & ? & _) & _). }
  unfold run_validators. cbn [app mbind list_bind].
  unfold MaxLengthValidator, UniqueValidator, RegexValidator, regex_search,
    ProhibitNullCharactersValidator, ProhibitSurrogateCharactersValidator.
  cbn [take_while]. rewrite app_nil_r.
  split.
  - repeat case_bool_decide; destruct (username_class unicode_alnum c) eqn:Hc;
      try done.
    intros [= <-]. split; [done|]. split; [lia|]. split; [done|].
    split; [by exists c, rest|]. split; [done|].
    by apply not_Exists_Forall; [intros ?; apply _|].
  - intros (-> & Hlen & Hfree & (c' & rest' & [= <- <-] & Hc) & Hnull & Hsur).
    rewrite Hc.
    rewrite bool_decide_eq_false_2 by lia.
    rewrite bool_decide_eq_false_2 by done.
    rewrite bool_decide_eq_false_2 by done.
    rewrite bool_decide_eq_false_2; [done|].
    intros Hex. apply Exists_exists in Hex as (x & Hx & Hbad).
    by apply (proj1 (Forall_forall _ _) Hsur x Hx).
Qed.

(** ** A user's shopping list and the actions of others *)

Lemma cart_rows_of_own_carts (u : User) (db db' : Store) :
  ingredient_in_recipe db' = ingredient_in_recipe db →
  ingredients db' = ingredients db →
  user_shopping_cart u db' = user_shopping_cart u db →
  cart_ingredient_rows u db' = cart_ingredient_rows u db.
Proof.
  unfold user_shopping_cart, cart_ingredient_rows. intros -> -> Hown.
  apply list_bind_ext; [|done]. intros row.
  assert (∀ carts : list UserRecipe,
            filter (λ cart, ur_recipe cart = iir_recipe row
                            ∧ ur_user cart = user_pk u) carts
            = filter (λ cart, ur_recipe cart = iir_recipe row)
                (filter (λ cart, ur_user cart = user_pk u) carts)) as Hsplit.
  { intros carts. by rewrite list_filter_filter. }
  by rewrite !Hsplit, Hown.
Qed.

Lemma own_carts_after_toggle (model : RelModel) (request : Request) (pk : Z)
  (u : User) (db : Store) :
  (∀ sender, user request = Some sender → user_pk sender ≠ user_pk u) →
  user_shopping_cart u (snd (respond (toggle_action model request pk db)))
  = user_shopping_cart u db.
Proof.
  intros Hother. unfold user_shopping_cart.
  destruct (toggle_action_cases model request pk db)
    as [(response & -> & _)|[(sender & recipe & Hs & _ & _ & _ & ->)
                            |(sender & Hs & _ & _ & ->)]].
  - by destruct response.
  - destruct model; simpl; [done|].
    rewrite filter_app, filter_cons_False, app_nil_r; [done|].
    simpl. by apply Hother.
  - destruct model; simpl; [done|]. unfold delete_user_recipe.
    rewrite list_filter_filter. apply list_filter_iff. intros cart.
    split; [by intros [? _]|]. intros Hu. split; [done|].
    intros [Hsender _]. apply (Hother sender Hs). congruence.
Qed.

(** X20.  What a user downloads as shopping list does not depend on the
    favourite and cart actions of anybody else: after any such request of an
    anonymous sender or of another user, the answer to the user's download
    is what it was before. *)
Theorem shopping_list_isolated
  (query_order : list (pystr * pystr * Z) → list (pystr * pystr * Z))
  (today : Date) (model : RelModel)
  (request download : Request) (pk : Z) (u : User) (db : Store) :
  (∀ sender, user request = Some sender → user_pk sender ≠ user_pk u) →
  user download = Some u →
  let db' := snd (respond (toggle_action model request pk db)) in
  fst (respond (download_shopping_cart query_order today download db'))
  = fst (respond (download_shopping_cart query_order today download db)).
Proof.
  intros Hother Hu db'.
  pose proof (own_carts_after_toggle model request pk u db Hother) as Hown.
  fold db' in Hown.
  assert (cart_ingredient_rows u db' = cart_ingredient_rows u db) as Hrows.
  { apply cart_rows_of_own_carts; [| |done]; subst db';
      destruct (toggle_action_cases model request pk db)
        as [(response & -> & _)|[(sender & recipe & _ & _ & _ & _ & ->)
                                |(sender & _ & _ & _ & ->)]];
      try (by destruct response); by destruct model. }
  unfold download_shopping_cart. rewrite Hu.
  destruct (check_permissions [IsAuthenticated] download); [|done].
  case_bool_decide; [|by case_bool_decide].
  rewrite Hown. destruct (negb (exists_ (user_shopping_cart u db))); [done|].
  simpl. unfold shopping_list, shopping_groups. by rewrite Hrows.
Qed.

Lemma shopping_list_isolated_witness :
  fst (respond (download_shopping_cart first_seen (mkDate 2024 5 17)
                  (mkRequest GET (Some bob) [])
                  (snd (respond (shopping_cart
                                   (mkRequest POST (Some alice) []) 10
                                   sample_db)))))
  = fst (respond (download_shopping_cart first_seen (mkDate 2024 5 17)
                    (mkRequest GET (Some bob) []) sample_db)).
Proof.
  apply (shopping_list_isolated first_seen (mkDate 2024 5 17) ShoppingCart
           (mkRequest POST (Some alice) []) (mkRequest GET (Some bob) []) 10
           bob sample_db); [|done].
  intros sender [= <-]. done.
Defined.

(** ** The sender's own profile *)

(** X21.  [me] answers an anonymous sender with 401 whatever the method.
    An authenticated sender receives the own row with 200 on GET; while the
    subscription table holds no row from a user to themselves, which
    [subscribe] never inserts, the profile shows [is_subscribed] false.
    Every other method is answered with 405 by the dispatcher: HEAD and
    OPTIONS are not among [http_method_names] and the others have no
    handler, so the branch of the body that returns 405 is never reached. *)
Theorem own_profile (request : Request) (db : Store) :
  let response := profile_respond (user_self_profile request db) in
  (user request = None → profile_status response = HTTP_401_UNAUTHORIZED)
  ∧ (∀ u, user request = Some u → method request = GET →
       Forall (λ s, sub_user s ≠ sub_author s) (subscribes db) →
       response = mkProfileResponse HTTP_200_OK (ProfileData u false))
  ∧ (∀ u, user request = Some u → method request ≠ GET →
       user_self_profile request db = Raise MethodNotAllowed
       ∧ profile_status response = HTTP_405_METHOD_NOT_ALLOWED).
Proof.
  intros response. subst response.
  unfold user_self_profile, check_permissions, permission_denied.
  cbn [has_permission].
  split; [by intros ->|]. split.
  - intros u Hu Hm Hself. rewrite Hu, Hm. simpl.
    unfold user_self_profile_body. rewrite Hm. simpl. rewrite Hu.
    do 2 f_equal.
    destruct (filter_subscribe (user_pk u) (user_pk u) (subscribes db))
      as [|s rows] eqn:Hf; [done|]. exfalso.
    assert (s ∈ filter_subscribe (user_pk u) (user_pk u) (subscribes db))
      as Hin by (rewrite Hf; apply list_elem_of_here).
    apply list_elem_of_filter in Hin as [[Hsu Hsa] Hin].
    apply (proj1 (Forall_forall _ _) Hself s Hin). congruence.
  - intros u Hu Hm. rewrite Hu. simpl.
    by destruct (method request).
Qed.

Lemma own_profile_witness :
  profile_status
    (profile_respond (user_self_profile (mkRequest GET None []) following_db))
  = HTTP_401_UNAUTHORIZED
  ∧ profile_respond
      (user_self_profile (mkRequest GET (Some bob) []) following_db)
    = mkProfileResponse HTTP_200_OK (ProfileData bob false)
  ∧ profile_status
      (profile_respond
         (user_self_profile (mkRequest HEAD (Some bob) []) following_db))
    = HTTP_405_METHOD_NOT_ALLOWED.
Proof.
  split; [|split].
  - by apply (own_profile (mkRequest GET None []) following_db).
  - apply (own_profile (mkRequest GET (Some bob) []) following_db);
      [done|done|]. by apply (bool_decide_unpack _).
  - destruct (own_profile (mkRequest HEAD (Some bob) []) following_db)
      as (_ & _ & Hhead). by apply (Hhead bob).
Defined.

(** ** Tags and ingredients *)

Section Options.

Context {T : Type}.
Variable pk_of : T → Z.
Variable queryset : Store → list T.
Variable get_permissions : option Action → list Permission.
Variable filter_queryset : Request → list T → list T.

Lemma check_permissions_caught perms request e :
  check_permissions perms request = Raise e →
  determine_actions_catches e = true.
Proof.
  induction perms as [|p perms IH]; cbn [check_permissions]; [done|].
  destruct (has_permission p request); [done|]. intros [= <-].
  unfold permission_denied. by destruct (_ && _).
Qed.

(** The round of POST raises nothing. *)
Lemma determine_actions_round_POST request route db :
  ∃ post,
    determine_actions_round pk_of queryset get_permissions filter_queryset
      request route db POST = Ok post.
Proof.
  unfold determine_actions_round.
  rewrite bool_decide_eq_false_2 by done.
  destruct (check_permissions _ _) as [[]|e] eqn:Hcheck;
    cbn [mbind result_bind]; [by eexists|].
  rewrite (check_permissions_caught _ _ _ Hcheck). by eexists.
Qed.

(** A sender whom the permissions refuse PUT gets the description. *)
Lemma options_refused request route db e :
  check_permissions (get_permissions (Some action_metadata))
    (with_method PUT request) = Raise e →
  options pk_of queryset get_permissions filter_queryset request route db
  = Ok (mkCatalogResponse HTTP_200_OK (Plain Metadata)).
Proof.
  intros Hcheck. unfold options, determine_actions.
  destruct (determine_actions_round_POST request route db) as [post ->].
  unfold determine_actions_round. rewrite Hcheck.
  cbn [mbind result_bind].
  by rewrite (check_permissions_caught _ _ _ Hcheck).
Qed.

(** A sender who may PUT makes [get_object] run: on the list route its
    assertion fails. *)
Lemma options_list request db :
  check_permissions (get_permissions (Some action_metadata))
    (with_method PUT request) = Ok () →
  options pk_of queryset get_permissions filter_queryset request ListRoute db
  = Raise AssertionError.
Proof.
  intros Hcheck. unfold options, determine_actions.
  destruct (determine_actions_round_POST request ListRoute db) as [post ->].
  unfold determine_actions_round. rewrite Hcheck.
  by rewrite bool_decide_eq_true_2 by done.
Qed.

(** On the detail route [get_object] returns or raises [Http404], when
    primary keys are unique. *)
Lemma options_detail request pk db :
  NoDup (pk_of <$> filter_queryset (with_method PUT request) (queryset db)) →
  options pk_of queryset get_permissions filter_queryset request
    (DetailRoute pk) db
  = Ok (mkCatalogResponse HTTP_200_OK (Plain Metadata)).
Proof.
  intros Hunique. unfold options, determine_actions.
  destruct (determine_actions_round_POST request (DetailRoute pk) db)
    as [post ->].
  unfold determine_actions_round.
  destruct (check_permissions _ _) as [[]|e] eqn:Hcheck;
    cbn [mbind result_bind].
  - rewrite bool_decide_eq_true_2 by done.
    unfold GenericAPIView_get_object.
    destruct (get_object_or_404 _ _ _) as [row|e] eqn:Hget; [done|].
    by apply get_object_or_404_raise in Hget as [-> _].
  - by rewrite (check_permissions_caught _ _ _ Hcheck).
Qed.

End Options.





(** ** Images sent as data URLs *)

Lemma split_from_absent (c0 : N) (sep' s cur : pystr) :
  c0 ∉ s → split_from (c0 :: sep') s 0 cur = [reverse cur ++ s].
Proof.
  revert cur. induction s as [|c s IH]; intros cur Hnot.
  { simpl. by rewrite app_nil_r. }
  apply not_elem_of_cons in Hnot as [Hne Hnot].
  cbn [split_from startswith].
  rewrite (proj2 (N.eqb_neq c0 c)) by done. cbn [andb].
  rewrite IH by done. by rewrite reverse_cons, <- app_assoc.
Qed.

Lemma split_from_before (c0 : N) (sep' pre rest cur : pystr) :
  c0 ∉ pre →
  split_from (c0 :: sep') (pre ++ rest) 0 cur
  = split_from (c0 :: sep') rest 0 (reverse pre ++ cur).
Proof.
  revert cur. induction pre as [|c pre IH]; intros cur Hnot; [done|].
  apply not_elem_of_cons in Hnot as [Hne Hnot].
  cbn [app split_from startswith].
  rewrite (proj2 (N.eqb_neq c0 c)) by done. cbn [andb].
  rewrite IH by done. by rewrite reverse_cons, <- app_assoc.
Qed.

Ltac eval_lit s :=
  let x := eval vm_compute in (lit s) in change (lit s) with x.

Lemma split_data_url (pre imgstr : pystr) :
  59%N ∉ pre → 59%N ∉ imgstr →
  split (lit ";base64,") (pre ++ lit ";base64," ++ imgstr) = [pre; imgstr].
Proof.
  intros Hpre Himg. unfold split. eval_lit ";base64,".
  rewrite split_from_before by done.
  cbn [app split_from startswith N.eqb Pos.eqb andb length Nat.sub].
  rewrite split_from_absent by done.
  by rewrite app_nil_r, reverse_involutive.
Qed.

Lemma split_extension (ext : pystr) :
  47%N ∉ ext →
  last (split (lit "/") (lit "data:image/" ++ ext)) = Some ext.
Proof.
  intros Hext. unfold split. eval_lit "/". eval_lit "data:image/".
  cbn [app split_from startswith N.eqb Pos.eqb andb length Nat.sub].
  by rewrite split_from_absent by done.
Qed.

Section DataUrl.

Context {Image : Type}.
Variable b64decode : pystr → result (list N).
Variable ImageField_to_internal_value : Upload → result Image.

(** X24.  A string [data:image/<ext>;base64,<payload>], with no semicolon
    in the extension or the payload and no slash in the extension, reaches
    the image field of the framework as a file named [temp.<ext>] that holds
    the decoded payload.  A string that begins with [data:image] and holds no
    semicolon, hence no [;base64,], raises [ValueError]: the client gets
    500, no validation error.  Any other string is handed on as it is. *)
Theorem data_url_decoded :
  (∀ ext imgstr, (59%N ∉ ext) → (47%N ∉ ext) → (59%N ∉ imgstr) →
     Base64ImageField_to_internal_value b64decode
       ImageField_to_internal_value
       (Str (lit "data:image/" ++ ext ++ lit ";base64," ++ imgstr))
     = content ← b64decode imgstr;
       ImageField_to_internal_value (File (lit "temp." ++ ext) content))
  ∧ (∀ s, startswith (lit "data:image") s = true → (59%N ∉ s) →
       Base64ImageField_to_internal_value b64decode
         ImageField_to_internal_value (Str s) = Raise ValueError
       ∧ handle_exception ValueError
         = mkResponse HTTP_500_INTERNAL_SERVER_ERROR NoBody)
  ∧ (∀ s, startswith (lit "data:image") s = false →
       Base64ImageField_to_internal_value b64decode
         ImageField_to_internal_value (Str s)
       = ImageField_to_internal_value (Str s)).
Proof.
  split; [|split].
  - intros ext imgstr Hext Hslash Himg.
    unfold Base64ImageField_to_internal_value.
    assert (startswith (lit "data:image")
              (lit "data:image/" ++ ext ++ lit ";base64," ++ imgstr) = true)
      as ->.
    { eval_lit "data:image". eval_lit "data:image/". reflexivity. }
    rewrite (app_assoc (lit "data:image/") ext).
    rewrite split_data_url; [|
      |done].
    + by rewrite split_extension.
    + eval_lit "data:image/". rewrite elem_of_app. intros [Hin|Hin]; [|done].
      by apply (bool_decide_pack _) in Hin.
  - intros s Hstart Hsemi. split; [|done].
    unfold Base64ImageField_to_internal_value. rewrite Hstart.
    unfold split. eval_lit ";base64,". by rewrite split_from_absent.
  - intros s Hstart. unfold Base64ImageField_to_internal_value.
    by rewrite Hstart.
Qed.

End DataUrl.

Lemma data_url_decoded_witness :
  Base64ImageField_to_internal_value (λ s, Ok s) (λ data, Ok data)
    (Str (lit "data:image/" ++ lit "png" ++ lit ";base64," ++ lit "aGk="))
  = Ok (File (lit "temp.png") (lit "aGk="))
  ∧ Base64ImageField_to_internal_value (λ s, Ok s) (λ data, Ok data)
      (Str (lit "data:image/png,aGk=")) = Raise ValueError.
Proof.
  destruct (data_url_decoded (λ s, Ok s) (λ data : Upload, Ok data))
    as (Hurl & Hbad & _).
  split.
  - rewrite (Hurl (lit "png") (lit "aGk=")); [reflexivity|..];
      intros Hin; by apply (bool_decide_pack _) in Hin.
  - apply (Hbad (lit "data:image/png,aGk=")); [reflexivity|].
    intros Hin. by apply (bool_decide_pack _) in Hin.
Defined.
